(** * ELD trip planner: stop planning and duty-log simulation

    A shallow embedding of [trips/services.py], [trips/views.py] and
    [constants.py], with the properties of the stop planner and of the
    duty-log simulator stated and proved, or refuted, over it.

    Numbers.  Python floats are idealised as exact rationals ([Q]); the
    built-in [round(x, 2)] is rounding to the nearest hundredth with ties
    to even, [int(x)] is truncation towards zero and [//] is floor
    division.  The runs that refute a property stay clear of rounding:
    their hours and miles are multiples of 1/2, which binary floating
    point represents exactly, so they replay unchanged in Python.
    Where a property hangs on the last digit of a float - the index
    taken from a product, the test of the driving counter against 8 -
    it is stated for whatever the arithmetic returns: the route index
    for any value of the product, the simulator a second time ([FSim])
    with its arithmetic left open.

    Effects.  [geocode_location] and [find_poi_near_location] talk to
    the network and to a cache; they are state transformers over an
    abstract world and may raise.  [datetime.now()] is the calendar day
    [today] of the run, [great_circle(a, b).miles] is a parameter, and
    the [while] loop of the simulator runs on a budget of turns that is
    shown never to run out. *)

From Stdlib Require Import ZArith QArith Qround List Sorted String Bool Lia Lqa.
From Stdlib Require Import DecimalString Decimal Ascii.
Import ListNotations.

Open Scope Q_scope.

(** ** Python numerics *)

Definition Qlt_bool (a b : Q) : bool := negb (Qle_bool b a).

(** [min(a, b)] of Python: [b] when [b < a], otherwise [a]. *)
Definition py_min (a b : Q) : Q := if Qlt_bool b a then b else a.

(** Nearest integer, ties to even. *)
Definition round_half_even (q : Q) : Z :=
  let n := Qfloor q in
  match Qcompare (q - inject_Z n) (1 # 2) with
  | Lt => n
  | Gt => (n + 1)%Z
  | Eq => if Z.even n then n else (n + 1)%Z
  end.

(** [round(x, 2)]. *)
Definition py_round2 (q : Q) : Q := round_half_even (q * 100) # 100.

(** [int(x)]: truncation towards zero. *)
Definition py_int (q : Q) : Z := Z.quot (Qnum q) (Zpos (Qden q)).

(** [int(a // b)] for [b > 0]. *)
Definition py_floordiv (a b : Q) : Z := Qfloor (a / b).

(** [range(lo, hi)]. *)
Definition py_range (lo hi : Z) : list Z :=
  map (fun k => (lo + Z.of_nat k)%Z) (seq 0 (Z.to_nat (hi - lo))).

(** [str(i)] for an integer. *)
Definition py_str (i : Z) : string := NilZero.string_of_int (Z.to_int i).

(** ** constants.py *)

Definition MAX_CYCLE_HOURS : Q := 70.
Definition MAX_DAILY_DRIVING : Q := 11.
Definition MAX_CONSECUTIVE_DRIVING : Q := 8.
Definition AVERAGE_SPEED : Q := 50.
Definition FUEL_INTERVAL : Q := 1000.
Definition REST_BREAK_INTERVAL : Q := 8.

(** ** Data model: trips/models *)

(** A (latitude, longitude) pair; route geometry stores (longitude,
    latitude) pairs of the same type. *)
Definition Coord : Type := (Q * Q)%type.

Record Trip : Type := mkTrip {
  current_location : string;
  pickup_location : string;
  dropoff_location : string;
  current_cycle_used : Q
}.

Inductive StopType : Type := pickup | fuel | rest | dropoff.

(** The JSON [metadata] dict of a stop: an absent key is [None].
    [search_radius_km] may be present with the value [None]. *)
Record Metadata : Type := mkMetadata {
  coordinates : option Coord;
  address : option string;
  estimated_mileage : option Q;
  purpose : option string;
  is_fallback : option bool;
  search_radius_km : option (option Z)
}.

Record Stop : Type := mkStop {
  trip : Trip;
  location : string;
  stop_type : StopType;
  duration_minutes : Z;
  sequence : Z;
  metadata : Metadata
}.

(** ** Duty-log records *)

Inductive EventType : Type :=
| driving
| on_duty
| of_stop (t : StopType).

Inductive EventMeta : Type :=
| DrivingMeta (from to : string) (estimated_miles : Q)
| StopMeta (m : Metadata)
| NoMeta.

Record Event : Type := mkEvent {
  ev_type : EventType;
  ev_start : Q;
  ev_end : Q;
  ev_location : string;
  ev_metadata : EventMeta
}.

(** [log_date] is the calendar day as an ordinal; the source formats it
    with [strftime('%Y-%m-%d')], which is injective on days. *)
Record LogDay : Type := mkLogDay {
  log_day : Z;
  log_date : Z;
  log_events : list Event;
  log_odometer : Q
}.

(** ** Outcomes *)

Inductive exn : Type :=
| ValueError (msg : string)
| ZeroDivisionError
| IndexError
| ProviderError (msg : string).

(** What a call does: return, raise, or (for the model of a [while]
    loop only) exhaust its iteration budget. *)
Inductive outcome (A : Type) : Type :=
| Returns (a : A)
| Raises (e : exn)
| OutOfFuel.
Arguments Returns {A} a.
Arguments Raises {A} e.
Arguments OutOfFuel {A}.

(** ** generate_eld_logs_with_stops *)

Module Sim.

Record State : Type := mkState {
  day : Z;
  current_hour : Q;
  odometer : Q;
  daily_drive_hours : Q;
  logs : list LogDay
}.

Definition init : State :=
  {| day := 1; current_hour := 0; odometer := 0; daily_drive_hours := 0;
     logs := [] |}.

(** [logs[-1]["events"].append(e)] *)
Fixpoint last_events_append (l : list LogDay) (e : Event) : list LogDay :=
  match l with
  | [] => []
  | [r] => [ {| log_day := log_day r; log_date := log_date r;
                log_events := log_events r ++ [e];
                log_odometer := log_odometer r |} ]
  | r :: tl => r :: last_events_append tl e
  end.

Section Run.

(** The day [datetime.now()] falls on, and [great_circle(a, b).miles]. *)
Variable today : Z.
Variable great_circle : Coord -> Coord -> Q.

Definition date_of (d : Z) : Z := (today + (d - 1))%Z.

(** Lines 361-370: new day if over the daily limit. *)
Definition roll_day (st : State) : State :=
  if Qle_bool 11 (daily_drive_hours st) || Qle_bool 14 (current_hour st)
  then {| day := day st + 1;
          current_hour := 0;
          odometer := odometer st;
          daily_drive_hours := 0;
          logs := logs st ++
                  [ {| log_day := day st; log_date := date_of (day st);
                       log_events := []; log_odometer := py_round2 (odometer st) |} ] |}
  else st.

Definition driving_event (prev stop : Stop) (event_start event_end max_drive_today : Q) : Event :=
  {| ev_type := driving;
     ev_start := py_round2 event_start;
     ev_end := py_round2 event_end;
     ev_location := "Driving to " ++ location stop;
     ev_metadata := DrivingMeta (location prev) (location stop)
                      (py_round2 (max_drive_today * AVERAGE_SPEED)) |}.

Definition rest_event (h : Q) : Event :=
  {| ev_type := on_duty;
     ev_start := py_round2 h;
     ev_end := py_round2 (h + (1 # 2));
     ev_location := "Mandatory 30-minute rest";
     ev_metadata := NoMeta |}.

(** Lines 372-395: drive as much as today allows and log it. *)
Definition drive_chunk (prev stop : Stop) (drive_hours : Q) (st : State) : Q * State :=
  let max_drive_today := py_min (11 - daily_drive_hours st) drive_hours in
  let event_start := current_hour st in
  let event_end := current_hour st + max_drive_today in
  let odo := odometer st + max_drive_today * AVERAGE_SPEED in
  (drive_hours - max_drive_today,
   {| day := day st;
      current_hour := event_end;
      odometer := odo;
      daily_drive_hours := daily_drive_hours st + max_drive_today;
      logs := logs st ++
              [ {| log_day := day st; log_date := date_of (day st);
                   log_events := [driving_event prev stop event_start event_end max_drive_today];
                   log_odometer := py_round2 odo |} ] |}).

(** Lines 397-406: the mandatory rest break. *)
Definition rest_break (st : State) : State :=
  if Qle_bool 8 (daily_drive_hours st)
  then {| day := day st;
          current_hour := current_hour st + (1 # 2);
          odometer := odometer st;
          daily_drive_hours := 0;
          logs := last_events_append (logs st) (rest_event (current_hour st)) |}
  else st.

(** One turn of the [while drive_hours > 0] loop. *)
Definition drive_step (prev stop : Stop) (drive_hours : Q) (st : State) : Q * State :=
  let (drive_hours', st') := drive_chunk prev stop drive_hours (roll_day st) in
  (drive_hours', rest_break st').

Fixpoint drive_loop (turns : nat) (prev stop : Stop) (drive_hours : Q) (st : State)
  : option State :=
  if Qlt_bool 0 drive_hours then
    match turns with
    | O => None
    | S turns' =>
        let (drive_hours', st') := drive_step prev stop drive_hours st in
        drive_loop turns' prev stop drive_hours' st'
    end
  else Some st.

(** Enough turns for any [drive_hours]: after the first turn every
    further one drives eleven hours or finishes the segment. *)
Definition drive_turns (drive_hours : Q) : nat :=
  S (S (Z.to_nat (Qfloor drive_hours))).

(** Lines 348-357. *)
Definition segment_miles (total_miles : Q) (n_stops : nat) (prev stop : Stop) : Q :=
  match coordinates (metadata prev), coordinates (metadata stop) with
  | Some prev_coords, Some stop_coords => great_circle prev_coords stop_coords
  | _, _ => total_miles / inject_Z (Z.of_nat n_stops - 1)
  end.

Definition drive_to (total_miles : Q) (n_stops : nat) (prev stop : Stop) (st : State)
  : option State :=
  let drive_hours := py_round2 (segment_miles total_miles n_stops prev stop / AVERAGE_SPEED) in
  drive_loop (drive_turns drive_hours) prev stop drive_hours st.

(** Lines 408-427: the stop's own event. *)
Definition add_stop_event (stop : Stop) (st : State) : State :=
  let stop_duration := inject_Z (duration_minutes stop) / 60 in
  let over := Qlt_bool 24 (current_hour st + stop_duration) in
  let d := if over then (day st + 1)%Z else day st in
  let h := if over then 0 else current_hour st in
  {| day := d;
     current_hour := h + stop_duration;
     odometer := odometer st;
     daily_drive_hours := if over then 0 else daily_drive_hours st;
     logs := logs st ++
             [ {| log_day := d; log_date := date_of d;
                  log_events := [ {| ev_type := of_stop (stop_type stop);
                                     ev_start := py_round2 h;
                                     ev_end := py_round2 (h + stop_duration);
                                     ev_location := location stop;
                                     ev_metadata := StopMeta (metadata stop) |} ];
                  log_odometer := py_round2 (odometer st) |} ] |}.

(** The body of [for i, stop in enumerate(stops)]; [prev] is
    [stops[i - 1]], absent when [i = 0]. *)
Definition visit (total_miles : Q) (n_stops : nat) (prev : option Stop) (stop : Stop)
    (st : State) : option State :=
  match prev with
  | None => Some (add_stop_event stop st)
  | Some p =>
      match drive_to total_miles n_stops p stop st with
      | Some st' => Some (add_stop_event stop st')
      | None => None
      end
  end.

Fixpoint visit_all (total_miles : Q) (n_stops : nat) (prev : option Stop)
    (todo : list Stop) (st : State) : option State :=
  match todo with
  | [] => Some st
  | stop :: todo' =>
      match visit total_miles n_stops prev stop st with
      | Some st' => visit_all total_miles n_stops (Some stop) todo' st'
      | None => None
      end
  end.

(** [stops] is [trip.stops.order_by('sequence')] as the database
    returns it. *)
Definition generate_eld_logs_with_stops (stops : list Stop) (current_cycle_used : Q)
    (total_miles : Q) : outcome (list LogDay) :=
  let remaining_cycle_hours := MAX_CYCLE_HOURS - current_cycle_used in
  if Qle_bool remaining_cycle_hours 0
  then Raises (ValueError "Driver has already exceeded 70-hr cycle.")
  else match visit_all total_miles (List.length stops) None stops init with
       | Some st => Returns (logs st)
       | None => OutOfFuel
       end.

End Run.

End Sim.

(** ** calculate_stop_points and its callers *)

Record PointOfInterest : Type := mkPOI {
  poi_name : string;
  poi_address : string;
  poi_coordinates : Coord;
  poi_distance_km : Q
}.

(** [route_geometry['coordinates']]: (longitude, latitude) pairs. *)
Definition RouteGeometry : Type := list Coord.

Inductive result (A : Type) : Type :=
| Ok (a : A)
| Err (e : exn).
Arguments Ok {A} a.
Arguments Err {A} e.

Module Planner.

Section Providers.

(** Cache and network. *)
Variable World : Type.

Definition M (A : Type) : Type := World -> result A * World.

Definition ret {A} (a : A) : M A := fun w => (Ok a, w).
Definition raise {A} (e : exn) : M A := fun w => (Err e, w).
Definition bind {A B} (c : M A) (k : A -> M B) : M B :=
  fun w => match c w with
           | (Ok a, w') => k a w'
           | (Err e, w') => (Err e, w')
           end.
Definition try_except {A} (c : M A) (handler : exn -> M A) : M A :=
  fun w => match c w with
           | (Ok a, w') => (Ok a, w')
           | (Err e, w') => handler e w'
           end.

Notation "x <- c ;; k" := (bind c (fun x => k))
  (at level 61, c at next level, right associativity).

Variable geocode_location : string -> M Coord.
Variable find_poi_near_location : Coord -> list string -> Z -> M (option PointOfInterest).

(** [a / b] on floats. *)
Definition py_div (a b : Q) : M Q :=
  if Qeq_bool b 0 then raise ZeroDivisionError else ret (a / b).

(** Lines 235 and 268: [max(1, min(int(x), len - 2))], for the product
    [x = progress * len(route_coords)] whatever it comes out as. *)
Definition idx_of_product (product : Q) (len : Z) : Z :=
  Z.max 1 (Z.min (py_int product) (len - 2)).

Definition interpolate_index (progress : Q) (len : Z) : Z :=
  idx_of_product (progress * inject_Z len) len.

(** [route_coords[idx][::-1]] for [idx >= 1], from the product. *)
Definition interpolate_at (route_coords : RouteGeometry) (product : Q) : M Coord :=
  let idx := idx_of_product product (Z.of_nat (List.length route_coords)) in
  match nth_error route_coords (Z.to_nat idx) with
  | Some (lon, lat) => ret (lat, lon)
  | None => raise IndexError
  end.

Definition interpolate (route_coords : RouteGeometry) (progress : Q) : M Coord :=
  interpolate_at route_coords
    (progress * inject_Z (Z.of_nat (List.length route_coords))).

(** [for radius in [10, 20, 40]: ... if poi: break]; the radius is
    kept with the hit. *)
Fixpoint search_ladder (coords : Coord) (keywords : list string) (radii : list Z)
  : M (option (PointOfInterest * Z)) :=
  match radii with
  | [] => ret None
  | radius :: radii' =>
      poi <- find_poi_near_location coords keywords radius ;;
      match poi with
      | Some p => ret (Some (p, radius))
      | None => search_ladder coords keywords radii'
      end
  end.

Definition fuel_keywords : list string :=
  ["fuel"; "gas station"; "truck stop"; "petrol station"]%string.
Definition rest_keywords : list string :=
  ["rest area"; "truck rest area"; "highway rest stop"; "rest station"]%string.

Definition fuel_stop (t : Trip) (i : Z) (mile_marker : Q) (coords : Coord)
    (poi : option (PointOfInterest * Z)) (seqno : Z) : Stop :=
  {| trip := t;
     location := match poi with
                 | Some (p, _) => poi_name p
                 | None => "Fuel stop #" ++ py_str i
                 end;
     stop_type := fuel;
     duration_minutes := 30;
     sequence := seqno;
     metadata :=
       {| coordinates := Some match poi with
                              | Some (p, _) => poi_coordinates p
                              | None => coords
                              end;
          address := Some match poi with
                          | Some (p, _) => poi_address p
                          | None => EmptyString
                          end;
          estimated_mileage := Some mile_marker;
          purpose := Some ("Fuel stop #" ++ py_str i)%string;
          is_fallback := Some match poi with Some _ => false | None => true end;
          search_radius_km := Some match poi with
                                   | Some (_, radius) => Some radius
                                   | None => None
                                   end |} |}.

Definition rest_stop (t : Trip) (i : Z) (break_miles : Q) (coords : Coord)
    (poi : option (PointOfInterest * Z)) (seqno : Z) : Stop :=
  {| trip := t;
     location := match poi with
                 | Some (p, _) => poi_name p
                 | None => "Rest stop #" ++ py_str i
                 end;
     stop_type := rest;
     duration_minutes := 30;
     sequence := seqno;
     metadata :=
       {| coordinates := Some match poi with
                              | Some (p, _) => poi_coordinates p
                              | None => coords
                              end;
          address := Some match poi with
                          | Some (p, _) => poi_address p
                          | None => EmptyString
                          end;
          estimated_mileage := None;
          purpose := Some ("Mandatory rest break #" ++ py_str i)%string;
          is_fallback := Some match poi with Some _ => false | None => true end;
          search_radius_km := Some match poi with
                                   | Some (_, radius) => Some radius
                                   | None => None
                                   end |} |}.

(** The shape shared by the fuel loop (lines 230-259) and the rest loop
    (lines 263-291): walk the indices, leave the loop at the first
    marker past the cut-off, otherwise place a stop at the marker. *)
Fixpoint place_stops
    (marker : Z -> Q) (cutoff : Q) (keywords : list string)
    (make : Z -> Q -> Coord -> option (PointOfInterest * Z) -> Z -> Stop)
    (total_miles : Q) (route_coords : RouteGeometry)
    (indices : list Z) (seqno : Z) (stops : list Stop) : M (Z * list Stop) :=
  match indices with
  | [] => ret (seqno, stops)
  | i :: indices' =>
      if Qle_bool (total_miles * cutoff) (marker i)
      then ret (seqno, stops)
      else
        progress <- py_div (marker i) total_miles ;;
        coords <- interpolate route_coords progress ;;
        poi <- search_ladder coords keywords [10; 20; 40]%Z ;;
        place_stops marker cutoff keywords make total_miles route_coords indices'
          (seqno + 1)%Z (stops ++ [make i (marker i) coords poi seqno])
  end.

Definition fuel_needed (total_miles : Q) : Z := py_floordiv total_miles FUEL_INTERVAL.

Definition fuel_marker (i : Z) : Q := inject_Z i * FUEL_INTERVAL.

Definition rest_marker (i : Z) : Q := inject_Z i * REST_BREAK_INTERVAL * AVERAGE_SPEED.

Definition place_fuel_stops (t : Trip) (total_miles : Q) (route_coords : RouteGeometry)
    (seqno : Z) (stops : list Stop) : M (Z * list Stop) :=
  place_stops fuel_marker (95 # 100) fuel_keywords (fuel_stop t)
    total_miles route_coords (py_range 1 (fuel_needed total_miles + 1)) seqno stops.

Definition place_rest_stops (t : Trip) (total_miles : Q) (route_coords : RouteGeometry)
    (seqno : Z) (stops : list Stop) : M (Z * list Stop) :=
  let estimated_drive_hours := total_miles / AVERAGE_SPEED in
  place_stops rest_marker (9 # 10) rest_keywords (rest_stop t)
    total_miles route_coords
    (py_range 1 (py_floordiv estimated_drive_hours REST_BREAK_INTERVAL + 1)) seqno stops.

(** [sorted(stops, key=lambda x: x.sequence)]: a stable sort. *)
Fixpoint insert_by_sequence (s : Stop) (l : list Stop) : list Stop :=
  match l with
  | [] => [s]
  | h :: tl => if (sequence s <=? sequence h)%Z then s :: l
               else h :: insert_by_sequence s tl
  end.

Definition sorted_by_sequence (l : list Stop) : list Stop :=
  fold_right insert_by_sequence [] l.

(** The [try:] block, lines 206-307.  A falsy geometry or one without
    the ['coordinates'] key is [None]. *)
Definition calculate_stop_points_try (t : Trip) (total_miles : Q)
    (route_geometry : option RouteGeometry) : M (list Stop) :=
  match route_geometry with
  | None => raise (ValueError "Invalid route geometry provided")
  | Some route_coords =>
      if (Z.of_nat (List.length route_coords) <? 2)%Z
      then raise (ValueError "Route geometry has insufficient points")
      else
        pickup_coords <- geocode_location (pickup_location t) ;;
        let stops :=
          [ {| trip := t; location := pickup_location t; stop_type := pickup;
               duration_minutes := 60; sequence := 1;
               metadata := {| coordinates := Some pickup_coords; address := None;
                              estimated_mileage := None;
                              purpose := Some "Load pickup"%string;
                              is_fallback := None; search_radius_km := None |} |} ] in
        placed <- place_fuel_stops t total_miles route_coords 2 stops ;;
        placed' <- place_rest_stops t total_miles route_coords (fst placed) (snd placed) ;;
        dropoff_coords <- geocode_location (dropoff_location t) ;;
        ret (sorted_by_sequence
               (snd placed' ++
                [ {| trip := t; location := dropoff_location t; stop_type := dropoff;
                     duration_minutes := 60; sequence := fst placed';
                     metadata := {| coordinates := Some dropoff_coords; address := None;
                                    estimated_mileage := None;
                                    purpose := Some "Unload delivery"%string;
                                    is_fallback := None; search_radius_km := None |} |} ]))
  end.

(** The [except Exception] handler, lines 308-327. *)
Definition calculate_stop_points_except (t : Trip) : M (list Stop) :=
  pickup_coords <- geocode_location (pickup_location t) ;;
  dropoff_coords <- geocode_location (dropoff_location t) ;;
  ret [ {| trip := t; location := pickup_location t; stop_type := pickup;
           duration_minutes := 60; sequence := 1;
           metadata := {| coordinates := Some pickup_coords; address := None;
                          estimated_mileage := None; purpose := None;
                          is_fallback := None; search_radius_km := None |} |};
        {| trip := t; location := dropoff_location t; stop_type := dropoff;
           duration_minutes := 60; sequence := 2;
           metadata := {| coordinates := Some dropoff_coords; address := None;
                          estimated_mileage := None; purpose := None;
                          is_fallback := None; search_radius_km := None |} |} ].

Definition calculate_stop_points (t : Trip) (total_miles : Q)
    (route_geometry : option RouteGeometry) : M (list Stop) :=
  try_except (calculate_stop_points_try t total_miles route_geometry)
             (fun _ => calculate_stop_points_except t).

(** views.py, lines 92-119. *)
Definition create_basic_trip_stops (t : Trip) : list Stop :=
  [ {| trip := t; location := pickup_location t; stop_type := pickup;
       duration_minutes := 60; sequence := 1;
       metadata := {| coordinates := None; address := None;
                      estimated_mileage := None;
                      purpose := Some "Load pickup (fallback)"%string;
                      is_fallback := Some true; search_radius_km := None |} |};
    {| trip := t; location := dropoff_location t; stop_type := dropoff;
       duration_minutes := 60; sequence := 2;
       metadata := {| coordinates := None; address := None;
                      estimated_mileage := None;
                      purpose := Some "Unload delivery (fallback)"%string;
                      is_fallback := Some true; search_radius_km := None |} |} ].

(** views.py, lines 82-90. *)
Definition calculate_stops_with_fallback (t : Trip) (total_miles : Q)
    (route_geometry : option RouteGeometry) : M (list Stop) :=
  try_except
    (stops <- calculate_stop_points t total_miles route_geometry ;;
     if (List.length stops <? 2)%nat
     then raise (ValueError "Insufficient stops calculated")
     else ret stops)
    (fun _ => ret (create_basic_trip_stops t)).

End Providers.

End Planner.


(** ** The request pipeline *)

(** views.py, lines 40-41 and 57: plan the stops, store them, and
    simulate the duty log over the stored stops read back in sequence
    order. *)
Definition plan_and_log {World : Type}
    (geocode_location : string -> Planner.M World Coord)
    (find_poi_near_location : Coord -> list string -> Z -> Planner.M World (option PointOfInterest))
    (today : Z) (great_circle : Coord -> Coord -> Q)
    (t : Trip) (total_miles : Q) (route_geometry : option RouteGeometry)
  : Planner.M World (list Stop * outcome (list LogDay)) :=
  Planner.bind World
    (Planner.calculate_stops_with_fallback World geocode_location find_poi_near_location
       t total_miles route_geometry)
    (fun stops =>
       Planner.ret World
         (stops,
          Sim.generate_eld_logs_with_stops today great_circle
            (Planner.sorted_by_sequence stops) (current_cycle_used t) total_miles)).

(** ** generate_eld_logs_with_stops on the machine's numbers

    The same function once more, with the arithmetic of the floats left
    open: what [+], [-], [*], [/] and [round(x, 2)] return is whatever
    the machine makes of them.  A float is a rational number and
    comparisons are exact; [min] and the integer arithmetic of days and
    dates are exact too. *)

Record Arith : Type := mkArith {
  add : Q -> Q -> Q;
  sub : Q -> Q -> Q;
  mul : Q -> Q -> Q;
  div : Q -> Q -> Q;
  round2 : Q -> Q
}.

(** The arithmetic that rounds nothing away, which [Sim] computes
    with. *)
Definition exact : Arith :=
  {| add := Qplus; sub := Qminus; mul := Qmult; div := Qdiv; round2 := py_round2 |}.

Module FSim.

Import Sim.

Section Run.

Variable fl : Arith.
Variable today : Z.
Variable great_circle : Coord -> Coord -> Q.

(** Lines 361-370: new day if over the daily limit. *)
Definition roll_day (st : State) : State :=
  if Qle_bool 11 (daily_drive_hours st) || Qle_bool 14 (current_hour st)
  then {| day := day st + 1;
          current_hour := 0;
          odometer := odometer st;
          daily_drive_hours := 0;
          logs := logs st ++
                  [ {| log_day := day st; log_date := date_of today (day st);
                       log_events := [];
                       log_odometer := round2 fl (odometer st) |} ] |}
  else st.

Definition driving_event (prev stop : Stop) (event_start event_end max_drive_today : Q) : Event :=
  {| ev_type := driving;
     ev_start := round2 fl event_start;
     ev_end := round2 fl event_end;
     ev_location := "Driving to " ++ location stop;
     ev_metadata := DrivingMeta (location prev) (location stop)
                      (round2 fl (mul fl max_drive_today AVERAGE_SPEED)) |}.

Definition rest_event (h : Q) : Event :=
  {| ev_type := on_duty;
     ev_start := round2 fl h;
     ev_end := round2 fl (add fl h (1 # 2));
     ev_location := "Mandatory 30-minute rest";
     ev_metadata := NoMeta |}.

(** Lines 372-395: drive as much as today allows and log it. *)
Definition drive_chunk (prev stop : Stop) (drive_hours : Q) (st : State) : Q * State :=
  let max_drive_today := py_min (sub fl 11 (daily_drive_hours st)) drive_hours in
  let event_start := current_hour st in
  let event_end := add fl (current_hour st) max_drive_today in
  let odo := add fl (odometer st) (mul fl max_drive_today AVERAGE_SPEED) in
  (sub fl drive_hours max_drive_today,
   {| day := day st;
      current_hour := event_end;
      odometer := odo;
      daily_drive_hours := add fl (daily_drive_hours st) max_drive_today;
      logs := logs st ++
              [ {| log_day := day st; log_date := date_of today (day st);
                   log_events := [driving_event prev stop event_start event_end max_drive_today];
                   log_odometer := round2 fl odo |} ] |}).

(** Lines 397-406: the mandatory rest break. *)
Definition rest_break (st : State) : State :=
  if Qle_bool 8 (daily_drive_hours st)
  then {| day := day st;
          current_hour := add fl (current_hour st) (1 # 2);
          odometer := odometer st;
          daily_drive_hours := 0;
          logs := last_events_append (logs st) (rest_event (current_hour st)) |}
  else st.

(** One turn of the [while drive_hours > 0] loop. *)
Definition drive_step (prev stop : Stop) (drive_hours : Q) (st : State) : Q * State :=
  let (drive_hours', st') := drive_chunk prev stop drive_hours (roll_day st) in
  (drive_hours', rest_break st').

Fixpoint drive_loop (turns : nat) (prev stop : Stop) (drive_hours : Q) (st : State)
  : option State :=
  if Qlt_bool 0 drive_hours then
    match turns with
    | O => None
    | S turns' =>
        let (drive_hours', st') := drive_step prev stop drive_hours st in
        drive_loop turns' prev stop drive_hours' st'
    end
  else Some st.

(** Lines 348-357. *)
Definition segment_miles (total_miles : Q) (n_stops : nat) (prev stop : Stop) : Q :=
  match coordinates (metadata prev), coordinates (metadata stop) with
  | Some prev_coords, Some stop_coords => great_circle prev_coords stop_coords
  | _, _ => div fl total_miles (inject_Z (Z.of_nat n_stops - 1))
  end.

(** The loop runs on the budget of turns that is enough when nothing
    is rounded away. *)
Definition drive_to (total_miles : Q) (n_stops : nat) (prev stop : Stop) (st : State)
  : option State :=
  let drive_hours :=
    round2 fl (div fl (segment_miles total_miles n_stops prev stop) AVERAGE_SPEED) in
  drive_loop (drive_turns drive_hours) prev stop drive_hours st.

(** Lines 408-427: the stop's own event. *)
Definition add_stop_event (stop : Stop) (st : State) : State :=
  let stop_duration := div fl (inject_Z (duration_minutes stop)) 60 in
  let over := Qlt_bool 24 (add fl (current_hour st) stop_duration) in
  let d := if over then (day st + 1)%Z else day st in
  let h := if over then 0 else current_hour st in
  {| day := d;
     current_hour := add fl h stop_duration;
     odometer := odometer st;
     daily_drive_hours := if over then 0 else daily_drive_hours st;
     logs := logs st ++
             [ {| log_day := d; log_date := date_of today d;
                  log_events := [ {| ev_type := of_stop (stop_type stop);
                                     ev_start := round2 fl h;
                                     ev_end := round2 fl (add fl h stop_duration);
                                     ev_location := location stop;
                                     ev_metadata := StopMeta (metadata stop) |} ];
                  log_odometer := round2 fl (odometer st) |} ] |}.

(** The body of [for i, stop in enumerate(stops)]. *)
Definition visit (total_miles : Q) (n_stops : nat) (prev : option Stop) (stop : Stop)
    (st : State) : option State :=
  match prev with
  | None => Some (add_stop_event stop st)
  | Some p =>
      match drive_to total_miles n_stops p stop st with
      | Some st' => Some (add_stop_event stop st')
      | None => None
      end
  end.

Fixpoint visit_all (total_miles : Q) (n_stops : nat) (prev : option Stop)
    (todo : list Stop) (st : State) : option State :=
  match todo with
  | [] => Some st
  | stop :: todo' =>
      match visit total_miles n_stops prev stop st with
      | Some st' => visit_all total_miles n_stops (Some stop) todo' st'
      | None => None
      end
  end.

Definition generate_eld_logs_with_stops (stops : list Stop) (current_cycle_used : Q)
    (total_miles : Q) : outcome (list LogDay) :=
  let remaining_cycle_hours := sub fl MAX_CYCLE_HOURS current_cycle_used in
  if Qle_bool remaining_cycle_hours 0
  then Raises (ValueError "Driver has already exceeded 70-hr cycle.")
  else match visit_all total_miles (List.length stops) None stops init with
       | Some st => Returns (logs st)
       | None => OutOfFuel
       end.

End Run.

End FSim.

(** * The rest of the code *)

(** ** serializers.py *)

Inductive validation (A : Type) : Type :=
| Valid (a : A)
| ValidationError (msg : string).
Arguments Valid {A} a.
Arguments ValidationError {A} msg.

(** [TripSerializer.validate_current_cycle_used], lines 22-27. *)
Definition validate_current_cycle_used (value : Q) : validation Q :=
  if Qlt_bool value 0
  then ValidationError "Cycle hours cannot be negative"
  else if Qlt_bool MAX_CYCLE_HOURS value
       then ValidationError "Cycle hours cannot exceed 70"
       else Valid value.

(** ** services.py: cache keys and bounding boxes

    A character of a Rocq string stands for one character of the Python
    string (a code point below 256). *)

(** The class [[a-zA-Z0-9]] of the regular expression. *)
Definition is_alnum (c : ascii) : bool :=
  let n := nat_of_ascii c in
  ((48 <=? n) && (n <=? 57) || (65 <=? n) && (n <=? 90) || (97 <=? n) && (n <=? 122))%nat.

(** [str.lower()] on one character outside of which only ASCII letters
    are left to lower. *)
Definition ascii_lower (c : ascii) : ascii :=
  let n := nat_of_ascii c in
  if ((65 <=? n) && (n <=? 90))%nat then ascii_of_nat (n + 32) else c.

Fixpoint string_map (f : ascii -> ascii) (s : string) : string :=
  match s with
  | EmptyString => EmptyString
  | String c s' => String (f c) (string_map f s')
  end.

(** [re.sub(r'[^a-zA-Z0-9]', '_', address)] *)
Definition clean_address (address : string) : string :=
  string_map (fun c => if is_alnum c then c else "_"%char) address.

(** Lines 54-57. *)
Definition make_cache_key (address : string) : string :=
  ("geocode_" ++ string_map ascii_lower (clean_address address))%string.

(** Lines 153-162: the corners, longitude first. *)
Definition get_viewbox (coords : Coord) (radius_km : Q) : (Q * Q) * (Q * Q) :=
  let (lat, lng) := coords in
  let delta := (9 # 1000) * radius_km in
  ((lng - delta, lat - delta), (lng + delta, lat + delta)).

(** ** services.py: providers, cache and clock

    The outside world is a state [Net] that every provider call may
    read and change.  The Django cache is three stores, one for each
    key prefix of the source (["geocode_"], ["poi_"], ["rev_"]), which
    hold what was set for as long as the run lasts.  [time.sleep] and
    the provider calls leave their mark on a trace. *)

Module Services.

(** The exceptions the source tells apart, each with its [str(e)]. *)
Inductive pyexn : Type :=
| RequestException (msg : string)
| KeyError (msg : string)
| PyValueError (msg : string)
| ApiError (msg : string)
| OtherException (msg : string).

Definition message (e : pyexn) : string :=
  match e with
  | RequestException m | KeyError m | PyValueError m | ApiError m | OtherException m => m
  end.

Inductive answer (A : Type) : Type :=
| Done (a : A)
| Thrown (e : pyexn).
Arguments Done {A} a.
Arguments Thrown {A} e.

Inductive Effect : Type :=
| Sleep (seconds : Q)
| PeliasSearch (text : string)
| Directions (coords : list Coord) (optimize_waypoints : bool)
| Reverse (coords : Coord)
| NominatimSearch (keyword : string) (viewbox : (Q * Q) * (Q * Q)).

(** What [ors_client.directions] answers, once read. *)
Record RouteResponse : Type := mkRouteResponse {
  distance_m : Q;
  response_geometry : option RouteGeometry
}.

(** The dict [get_route_with_waypoints] returns. *)
Record RouteData : Type := mkRouteData {
  distance_miles : Q;
  geometry : option RouteGeometry;
  waypoints : list Coord
}.

(** One entry of the Nominatim answer: ['display_name'] when present,
    and [(float(lat), float(lon))] or what reading them raises. *)
Record SearchResult : Type := mkSearchResult {
  display_name : option string;
  position : answer Coord
}.

Record HttpResponse : Type := mkHttpResponse {
  status_code : Z;
  json : answer (list SearchResult)
}.

(** [s.split(',')[0]] *)
Fixpoint first_component (s : string) : string :=
  match s with
  | EmptyString => EmptyString
  | String c s' => if Ascii.eqb c ","%char then EmptyString
                   else String c (first_component s')
  end.

(** [keyword.replace(' ', '_')] *)
Definition replace_spaces (keyword : string) : string :=
  string_map (fun c => if Ascii.eqb c " "%char then "_"%char else c) keyword.

Section Net.

Variable Net : Type.
Variable Location : Type.

Record World : Type := mkWorld {
  net : Net;
  geocode_cache : string -> option Coord;
  poi_cache : string -> option PointOfInterest;
  reverse_cache : string -> option Location;
  stored_stops : list Stop;
  trace : list Effect
}.

Definition SM (A : Type) : Type := World -> answer A * World.

Definition ret {A} (a : A) : SM A := fun w => (Done a, w).
Definition raise {A} (e : pyexn) : SM A := fun w => (Thrown e, w).
Definition bind {A B} (c : SM A) (k : A -> SM B) : SM B :=
  fun w => match c w with
           | (Done a, w') => k a w'
           | (Thrown e, w') => (Thrown e, w')
           end.
Definition try_except {A} (c : SM A) (handler : pyexn -> SM A) : SM A :=
  fun w => match c w with
           | (Done a, w') => (Done a, w')
           | (Thrown e, w') => handler e w'
           end.

Notation "x <- c ;; k" := (bind c (fun x => k))
  (at level 61, c at next level, right associativity).
Notation "c ;;; k" := (bind c (fun _ => k))
  (at level 61, right associativity).

Definition of_answer {A} (a : answer A) : SM A := fun w => (a, w).

Definition record (e : Effect) : SM unit :=
  fun w => (Done tt,
            {| net := net w; geocode_cache := geocode_cache w; poi_cache := poi_cache w;
               reverse_cache := reverse_cache w; stored_stops := stored_stops w;
               trace := trace w ++ [e] |}).

(** A provider call: the outside world answers and moves on. *)
Definition call {A} (f : Net -> answer A * Net) : SM A :=
  fun w => let (r, n) := f (net w) in
           (r, {| net := n; geocode_cache := geocode_cache w; poi_cache := poi_cache w;
                  reverse_cache := reverse_cache w; stored_stops := stored_stops w;
                  trace := trace w |}).

(** [time.sleep(seconds)] *)
Definition sleep (seconds : Q) : SM unit := record (Sleep seconds).

Definition store_set {V : Type} (store : string -> option V) (key : string) (v : V)
  : string -> option V :=
  fun k => if String.eqb k key then Some v else store k.

Definition set_geocode_cache (key : string) (v : Coord) : SM unit :=
  fun w => (Done tt,
            {| net := net w; geocode_cache := store_set (geocode_cache w) key v;
               poi_cache := poi_cache w; reverse_cache := reverse_cache w;
               stored_stops := stored_stops w; trace := trace w |}).

Definition set_poi_cache (key : string) (v : PointOfInterest) : SM unit :=
  fun w => (Done tt,
            {| net := net w; geocode_cache := geocode_cache w;
               poi_cache := store_set (poi_cache w) key v; reverse_cache := reverse_cache w;
               stored_stops := stored_stops w; trace := trace w |}).

Definition set_reverse_cache (key : string) (v : Location) : SM unit :=
  fun w => (Done tt,
            {| net := net w; geocode_cache := geocode_cache w; poi_cache := poi_cache w;
               reverse_cache := store_set (reverse_cache w) key v;
               stored_stops := stored_stops w; trace := trace w |}).

(** The providers. *)
Variable pelias_search : string -> Net -> answer (list (list Q)) * Net.
Variable directions : list Coord -> bool -> Net -> answer RouteResponse * Net.
Variable reverse : Coord -> Net -> answer (option Location) * Net.
Variable nominatim_search : string -> (Q * Q) * (Q * Q) -> Net -> answer HttpResponse * Net.
Variable great_circle_miles : Coord -> Coord -> Q.
Variable great_circle_km : Coord -> Coord -> Q.

(** The f-strings that format floats into the ["poi_"] and ["rev_"]
    keys. *)
Variable poi_cache_key : string -> Coord -> Z -> string.
Variable reverse_cache_key : Coord -> string.

(** Lines 19-35. *)
Definition geocode_location (address : string) : SM Coord :=
  fun w =>
    let cache_key := make_cache_key address in
    match geocode_cache w cache_key with
    | Some cached => (Done cached, w)
    | None =>
        try_except
          (geocode <- (record (PeliasSearch address) ;;; call (pelias_search address)) ;;
           match geocode with
           | (c0 :: c1 :: _) :: _ =>
               set_geocode_cache cache_key (c1, c0) ;;; ret (c1, c0)
           | _ => raise (OtherException "list index out of range")
           end)
          (fun e => raise (PyValueError
                             ("Geocoding failed for " ++ address ++ ": " ++ message e)))
          w
    end.

(** Lines 38-51: only [ApiError] is caught. *)
Definition get_route_and_distance (origin destination : Coord) : SM RouteData :=
  try_except
    (let coords := [(snd origin, fst origin); (snd destination, fst destination)] in
     route <- (record (Directions coords false) ;;; call (directions coords false)) ;;
     ret {| distance_miles := py_round2 (distance_m route / (160934 # 100));
            geometry := response_geometry route;
            waypoints := [] |})
    (fun e => match e with
              | ApiError _ => raise (PyValueError ("Routing failed: " ++ message e))
              | _ => raise e
              end).

(** Lines 60-83. *)
Definition get_route_with_waypoints (points : list Coord) : SM RouteData :=
  try_except
    (let coords := map (fun p => (snd p, fst p)) points in
     let optimize_waypoints := (3 <? List.length coords)%nat in
     route <- (record (Directions coords optimize_waypoints) ;;;
               call (directions coords optimize_waypoints)) ;;
     ret {| distance_miles := py_round2 (distance_m route / (160934 # 100));
            geometry := response_geometry route;
            waypoints := points |})
    (fun e => match e with
              | ApiError _ =>
                  raise (PyValueError ("OpenRouteService API error: " ++ message e))
              | _ => raise (PyValueError ("Routing failed: " ++ message e))
              end).

(** What one attempt of [find_poi_near_location] ends in: a [return],
    or the next turn of the loop. *)
Inductive verdict : Type :=
| Return (poi : PointOfInterest)
| NextAttempt.

(** Lines 99-149: the body of [for attempt in range(max_retries)]. *)
Definition poi_attempt (coords : Coord) (keyword : string) (radius_km : Z)
    (cache_key : string) (attempt : Z) : SM verdict :=
  try_except
    (sleep (3 # 2) ;;;
     let reverse_key := reverse_cache_key coords in
     location <- (fun w =>
                    match reverse_cache w reverse_key with
                    | Some l => (Done (Some l), w)
                    | None =>
                        (found <- (record (Reverse coords) ;;; call (reverse coords)) ;;
                         match found with
                         | Some l => set_reverse_cache reverse_key l ;;; ret (Some l)
                         | None => ret None
                         end) w
                    end) ;;
     match location with
     | None => ret NextAttempt
     | Some _ =>
         let bbox := get_viewbox coords (inject_Z radius_km) in
         response <- (record (NominatimSearch keyword bbox) ;;;
                      call (nominatim_search keyword bbox)) ;;
         if (status_code response =? 200)%Z then
           results <- of_answer (json response) ;;
           match results with
           | [] => ret NextAttempt
           | first :: _ =>
               let name := match display_name first with
                           | Some n => n
                           | None => EmptyString
                           end in
               place <- of_answer (position first) ;;
               let result := {| poi_name := first_component name;
                                poi_address := name;
                                poi_coordinates := place;
                                poi_distance_km := great_circle_km coords place |} in
               set_poi_cache cache_key result ;;; ret (Return result)
           end
         else if (status_code response =? 429)%Z then
           sleep (5 * inject_Z (attempt + 1)) ;;; ret NextAttempt
         else ret NextAttempt
     end)
    (fun e => match e with
              | RequestException _ | KeyError _ | PyValueError _ =>
                  sleep 3 ;;; ret NextAttempt
              | _ => raise e
              end).

Fixpoint poi_attempts (coords : Coord) (keyword : string) (radius_km : Z)
    (cache_key : string) (attempts : list Z) : SM (option PointOfInterest) :=
  match attempts with
  | [] => ret None
  | attempt :: attempts' =>
      v <- poi_attempt coords keyword radius_km cache_key attempt ;;
      match v with
      | Return poi => ret (Some poi)
      | NextAttempt => poi_attempts coords keyword radius_km cache_key attempts'
      end
  end.

(** Lines 93-150: [for keyword in keywords]. *)
Fixpoint poi_keywords (coords : Coord) (keywords : list string) (radius_km max_retries : Z)
  : SM (option PointOfInterest) :=
  match keywords with
  | [] => ret None
  | keyword :: keywords' =>
      fun w =>
        let cache_key := poi_cache_key (replace_spaces keyword) coords radius_km in
        match poi_cache w cache_key with
        | Some cached => (Done (Some cached), w)
        | None =>
            (found <- poi_attempts coords keyword radius_km cache_key
                                   (py_range 0 max_retries) ;;
             match found with
             | Some poi => ret (Some poi)
             | None => poi_keywords coords keywords' radius_km max_retries
             end) w
        end
  end.

(** Lines 86-150. *)
Definition find_poi_near_location (coords : Coord) (keywords : list string)
    (radius_km max_retries : Z) : SM (option PointOfInterest) :=
  poi_keywords coords keywords radius_km max_retries.

(** Lines 165-176. *)
Fixpoint geocode_attempts (address : string) (max_retries : Z) (attempts : list Z)
  : SM Coord :=
  match attempts with
  | [] => raise (PyValueError "Geocoding failed after retries")
  | attempt :: attempts' =>
      try_except (geocode_location address)
        (fun e => if (attempt =? max_retries - 1)%Z then raise e
                  else sleep (inject_Z (2 ^ attempt)) ;;;
                       geocode_attempts address max_retries attempts')
  end.

Definition geocode_location_with_retry (address : string) (max_retries : Z) : SM Coord :=
  geocode_attempts address max_retries (py_range 0 max_retries).

(** Lines 179-192: the bare [except:] catches everything. *)
Definition estimate_distance (current_loc pickup_loc dropoff_loc : string) : SM Q :=
  try_except
    (cur_coords <- geocode_location_with_retry current_loc 3 ;;
     pickup_coords <- geocode_location_with_retry pickup_loc 3 ;;
     drop_coords <- geocode_location_with_retry dropoff_loc 3 ;;
     let leg1 := great_circle_miles cur_coords pickup_coords in
     let leg2 := great_circle_miles pickup_coords drop_coords in
     ret (py_round2 (leg1 + leg2)))
    (fun _ => ret 500).

End Net.

End Services.

(** ** views.py: TripCreateView.post

    The request once its data is valid and the trip is saved.  The
    [Stop] rows of the trip are [stored_stops]; the database stores
    what [bulk_create] gives it and raises nothing. *)

Module Views.

Definition exn_message (e : exn) : string :=
  match e with
  | ValueError m | ProviderError m => m
  | ZeroDivisionError => "float division by zero"
  | IndexError => "list index out of range"
  end.

Definition to_exn (e : Services.pyexn) : exn :=
  match e with
  | Services.PyValueError m => ValueError m
  | _ => ProviderError (Services.message e)
  end.

Definition of_exn (e : exn) : Services.pyexn :=
  match e with
  | ValueError m => Services.PyValueError m
  | _ => Services.OtherException (exn_message e)
  end.

(** The JSON body of a success, and the two responses of the [try:]. *)
Record Body : Type := mkBody {
  body_trip : Trip;
  body_total_miles : Q;
  body_eld_logs : list LogDay;
  body_route_geometry : option (option RouteGeometry);
  body_stops : list Stop;
  body_warnings : list string
}.

Inductive Response : Type :=
| Response200 (body : Body)
| Response500 (system_message : string).

(** The local variables of [post] that the loop sets. *)
Record Locals : Type := mkLocals {
  retry_count : Z;
  route_data : option Services.RouteData;
  planned : list Stop;
  miles : option Q
}.

Section Request.

Variable Net : Type.
Variable Location : Type.
Variable pelias_search : string -> Net -> Services.answer (list (list Q)) * Net.
Variable directions :
  list Coord -> bool -> Net -> Services.answer Services.RouteResponse * Net.
Variable reverse : Coord -> Net -> Services.answer (option Location) * Net.
Variable nominatim_search :
  string -> (Q * Q) * (Q * Q) -> Net -> Services.answer Services.HttpResponse * Net.
Variable great_circle_miles : Coord -> Coord -> Q.
Variable great_circle_km : Coord -> Coord -> Q.
Variable poi_cache_key : string -> Coord -> Z -> string.
Variable reverse_cache_key : Coord -> string.
Variable today : Z.

Definition World : Type := Services.World Net Location.

Definition to_planner {A} (c : Services.SM Net Location A) : Planner.M World A :=
  fun w => match c w with
           | (Services.Done a, w') => (Ok a, w')
           | (Services.Thrown e, w') => (Err (to_exn e), w')
           end.

Definition of_planner {A} (c : Planner.M World A) : Services.SM Net Location A :=
  fun w => match c w with
           | (Ok a, w') => (Services.Done a, w')
           | (Err e, w') => (Services.Thrown (of_exn e), w')
           end.

(** The planner over the services of services.py. *)
Definition planner_geocode (address : string) : Planner.M World Coord :=
  to_planner (Services.geocode_location Net Location pelias_search address).

Definition planner_find_poi (coords : Coord) (keywords : list string) (radius_km : Z)
  : Planner.M World (option PointOfInterest) :=
  to_planner (Services.find_poi_near_location Net Location reverse nominatim_search
                great_circle_km poi_cache_key reverse_cache_key
                coords keywords radius_km 3).

Definition calculate_stops_with_fallback (t : Trip) (total_miles : Q)
    (route_geometry : option RouteGeometry) : Services.SM Net Location (list Stop) :=
  of_planner (Planner.calculate_stops_with_fallback World planner_geocode planner_find_poi
                t total_miles route_geometry).

(** [Stop.objects.bulk_create(stops)] *)
Definition bulk_create (stops : list Stop) : Services.SM Net Location unit :=
  fun w => (Services.Done tt,
            {| Services.net := Services.net Net Location w;
               Services.geocode_cache := Services.geocode_cache Net Location w;
               Services.poi_cache := Services.poi_cache Net Location w;
               Services.reverse_cache := Services.reverse_cache Net Location w;
               Services.stored_stops := Services.stored_stops Net Location w ++ stops;
               Services.trace := Services.trace Net Location w |}).

(** Lines 34-38: the three geocodings and the route. *)
Definition route_phase (t : Trip) : Services.SM Net Location Services.RouteData :=
  Services.bind Net Location
    (Services.geocode_location_with_retry Net Location pelias_search (current_location t) 3)
    (fun cur_coords =>
  Services.bind Net Location
    (Services.geocode_location_with_retry Net Location pelias_search (pickup_location t) 3)
    (fun pickup_coords =>
  Services.bind Net Location
    (Services.geocode_location_with_retry Net Location pelias_search (dropoff_location t) 3)
    (fun drop_coords =>
  Services.get_route_with_waypoints Net Location directions
    [cur_coords; pickup_coords; drop_coords]))).

(** Lines 43-55: the [except Exception] of the loop. *)
Definition on_failure (t : Trip) (s : Locals) : Services.SM Net Location Locals :=
  let retry_count' := (retry_count s + 1)%Z in
  if (3 <=? retry_count')%Z
  then Services.bind Net Location
         (Services.estimate_distance Net Location pelias_search great_circle_miles
            (current_location t) (pickup_location t) (dropoff_location t))
         (fun total_miles =>
            Services.ret Net Location
              {| retry_count := retry_count'; route_data := route_data s;
                 planned := Planner.create_basic_trip_stops t;
                 miles := Some total_miles |})
  else Services.bind Net Location
         (Services.sleep Net Location (inject_Z (2 ^ retry_count')))
         (fun _ =>
            Services.ret Net Location
              {| retry_count := retry_count'; route_data := route_data s;
                 planned := planned s; miles := miles s |}).

(** Lines 33-55: one turn of the [while] loop.  The [try:] block sets
    its variables one after the other, so what the handler finds
    depends on how far the block got. *)
Definition attempt (t : Trip) (s : Locals) : Services.SM Net Location Locals :=
  fun w =>
    match route_phase t w with
    | (Services.Thrown _, w1) => on_failure t s w1
    | (Services.Done rd, w1) =>
        let s1 := {| retry_count := retry_count s; route_data := Some rd;
                     planned := planned s;
                     miles := Some (Services.distance_miles rd) |} in
        match calculate_stops_with_fallback t (Services.distance_miles rd)
                (Services.geometry rd) w1 with
        | (Services.Thrown _, w2) => on_failure t s1 w2
        | (Services.Done stops, w2) =>
            let s2 := {| retry_count := retry_count s; route_data := Some rd;
                         planned := stops;
                         miles := Some (Services.distance_miles rd) |} in
            match bulk_create stops w2 with
            | (Services.Thrown _, w3) => on_failure t s2 w3
            | (Services.Done _, w3) => (Services.Done s2, w3)
            end
        end
    end.

(** [while retry_count < max_retries and not route_data], on a budget
    of turns; [None] when the budget runs out. *)
Fixpoint plan_loop (turns : nat) (t : Trip) (s : Locals)
  : Services.SM Net Location (option Locals) :=
  if (retry_count s <? 3)%Z && match route_data s with None => true | Some _ => false end
  then match turns with
       | O => Services.ret Net Location None
       | S turns' =>
           Services.bind Net Location (attempt t s) (fun s' => plan_loop turns' t s')
       end
  else Services.ret Net Location (Some s).

Definition initial : Locals :=
  {| retry_count := 0; route_data := None; planned := []; miles := None |}.

(** Lines 25-80, from [max_retries = 3] on.  Reading [total_miles]
    unset would raise (the text is that of Python up to 3.10), which
    the outer handler would answer; the loop never ends that way. *)
Definition post (t : Trip) : World -> outcome Response * World :=
  fun w =>
    match plan_loop 3 t initial w with
    | (Services.Thrown e, w1) => (Returns (Response500 (Services.message e)), w1)
    | (Services.Done None, w1) => (OutOfFuel, w1)
    | (Services.Done (Some s), w1) =>
        match miles s with
        | None =>
            (Returns (Response500
                        "local variable 'total_miles' referenced before assignment"), w1)
        | Some total_miles =>
            match Sim.generate_eld_logs_with_stops today great_circle_miles
                    (Planner.sorted_by_sequence (Services.stored_stops Net Location w1))
                    (current_cycle_used t) total_miles with
            | Returns eld_logs =>
                (Returns (Response200
                            {| body_trip := t;
                               body_total_miles := py_round2 total_miles;
                               body_eld_logs := eld_logs;
                               body_route_geometry :=
                                 match route_data s with
                                 | Some rd => Some (Services.geometry rd)
                                 | None => None
                                 end;
                               body_stops := planned s;
                               body_warnings :=
                                 if (3 <=? retry_count s)%Z
                                 then ["Used fallback data"%string] else [] |}), w1)
            | Raises e => (Returns (Response500 (exn_message e)), w1)
            | OutOfFuel => (OutOfFuel, w1)
            end
        end
    end.

End Request.

End Views.

(** * Vocabulary of the properties *)

Import Sim.

(** Hundredths: the values [round(x, 2)] ranges over. *)
Definition cents (x : Q) : Prop := exists z : Z, x == z # 100.

(** Hours of driving a record holds, and those of a whole day. *)
Definition is_driving (e : Event) : bool :=
  match ev_type e with driving => true | _ => false end.

Definition driving_hours (r : LogDay) : Q :=
  fold_right (fun e acc => (if is_driving e then ev_end e - ev_start e else 0) + acc)
             0 (log_events r).

Definition driving_hours_on_day (d : Z) (l : list LogDay) : Q :=
  fold_right (fun r acc => (if (log_day r =? d)%Z then driving_hours r else 0) + acc)
             0 l.

(** A property of every event of every record. *)
Definition all_events (ok : Event -> Prop) (l : list LogDay) : Prop :=
  Forall (fun r => Forall ok (log_events r)) l.

(** An hour-of-day interval inside [0, 24). *)
Definition within_day (e : Event) : Prop := 0 <= ev_start e /\ ev_end e < 24.

(** What the simulator does keep: events start at or after hour 0 and
    do not end before they start, and a stop's own event ends at hour 24
    at the latest. *)
Definition event_ok (e : Event) : Prop :=
  0 <= ev_start e /\ ev_start e <= ev_end e /\
  (forall t, ev_type e = of_stop t -> ev_end e <= 24).

(** The clock never runs backwards past hour 0, and the events logged
    so far are in order. *)
Definition bounded (st : State) : Prop :=
  0 <= current_hour st /\ all_events event_ok (logs st).

(** Stops that last between nothing and a whole day. *)
Definition fits_a_day (s : Stop) : Prop := (0 <= duration_minutes s <= 1440)%Z.

(** Miles a record's driving events account for. *)
Definition event_miles (e : Event) : Q :=
  match ev_metadata e with
  | DrivingMeta _ _ estimated_miles => estimated_miles
  | _ => 0
  end.

Definition driving_miles (r : LogDay) : Q :=
  fold_right (fun e acc => event_miles e + acc) 0 (log_events r).

(** Each reading is the previous one plus the miles of the record's
    driving events, and is never below the previous one. *)
Fixpoint odometer_trace (prev : Q) (l : list LogDay) : Prop :=
  match l with
  | [] => True
  | r :: l' =>
      log_odometer r == prev + driving_miles r /\
      prev <= log_odometer r /\
      odometer_trace (log_odometer r) l'
  end.

(** The reading of the last record, [prev] when there is none. *)
Definition last_reading (prev : Q) (l : list LogDay) : Q :=
  fold_left (fun _ r => log_odometer r) l prev.

(** The odometer and the counters stay on hundredths, and the readings
    logged so far follow the driving. *)
Definition odometer_inv (st : State) : Prop :=
  cents (daily_drive_hours st) /\ cents (odometer st) /\
  odometer_trace 0 (logs st) /\ last_reading 0 (logs st) == odometer st.

(** The records of [base] are still there, in place, with whatever was
    appended after them. *)
Definition extends (base : list LogDay) (st : State) : Prop :=
  exists more, logs st = base ++ more.

(** A record stamped as by a run of day [t]. *)
Definition redate (t : Z) (r : LogDay) : LogDay :=
  {| log_day := log_day r; log_date := (t + (log_day r - 1))%Z;
     log_events := log_events r; log_odometer := log_odometer r |}.

Definition redate_state (t : Z) (st : State) : State :=
  {| day := day st; current_hour := current_hour st; odometer := odometer st;
     daily_drive_hours := daily_drive_hours st;
     logs := map (redate t) (logs st) |}.

Definition outcome_map {A B : Type} (f : A -> B) (o : outcome A) : outcome B :=
  match o with
  | Returns a => Returns (f a)
  | Raises e => Raises e
  | OutOfFuel => OutOfFuel
  end.

(** Consecutive integers from [from] on. *)
Fixpoint consec (from : Z) (l : list Z) : Prop :=
  match l with
  | [] => True
  | x :: l' => x = from /\ consec (from + 1) l'
  end.

(** The indices a placing loop gets through before it leaves. *)
Fixpoint leading (marker : Z -> Q) (cutoff total_miles : Q) (indices : list Z) : nat :=
  match indices with
  | [] => O
  | i :: indices' =>
      if Qle_bool (total_miles * cutoff) (marker i) then O
      else S (leading marker cutoff total_miles indices')
  end.

Definition count_stops (ty : StopType) (stops : list Stop) : nat :=
  List.length (filter (fun s => match stop_type s, ty with
                                | pickup, pickup | fuel, fuel
                                | rest, rest | dropoff, dropoff => true
                                | _, _ => false
                                end) stops).

(** A non-empty itinerary numbered upwards from 1 without repeats, from
    the pickup to the dropoff. *)
Definition itinerary_ok (stops : list Stop) : Prop :=
  stops <> [] /\
  (exists s tl, stops = s :: tl /\ sequence s = 1%Z /\ stop_type s = pickup) /\
  (exists front s, stops = front ++ [s] /\ stop_type s = dropoff) /\
  StronglySorted Z.lt (map sequence stops) /\
  NoDup (map sequence stops).

Definition clamp (x lo hi : Z) : Z := Z.max lo (Z.min x hi).

(** ** The break rule, turn by turn *)

(** Record [r] with the events [es] for its own. *)
Definition with_events (r : LogDay) (es : list Event) : LogDay :=
  {| log_day := log_day r; log_date := log_date r;
     log_events := es; log_odometer := log_odometer r |}.

Section BreakRule.

Variable fl : Arith.
Variable today : Z.

(** What a turn of the driving loop does once its chunk is driven.
    [driven] is the state right after the chunk: its last record holds
    the driving event and nothing else, and its counter is the
    continuous-driving counter after the chunk.  [st'] is the state the
    turn ends in.  At eight hours or more the half-hour [on_duty] rest
    is put behind the driving event in that same record, the clock
    moves half an hour on and the counter restarts; below eight hours
    nothing is added. *)
Definition break_rule (driven st' : State) : Prop :=
  exists older r drv,
    logs driven = older ++ [r] /\ log_events r = [drv] /\ ev_type drv = driving /\
    (8 <= daily_drive_hours driven ->
     exists brk,
       logs st' = older ++ [with_events r [drv; brk]] /\
       ev_type brk = on_duty /\
       ev_location brk = "Mandatory 30-minute rest"%string /\
       ev_start brk = ev_end drv /\
       ev_start brk = round2 fl (current_hour driven) /\
       ev_end brk = round2 fl (add fl (current_hour driven) (1 # 2)) /\
       current_hour st' = add fl (current_hour driven) (1 # 2) /\
       daily_drive_hours st' = 0 /\
       day st' = day driven /\ odometer st' = odometer driven) /\
    (daily_drive_hours driven < 8 -> st' = driven).

(** The turns that lead from a state to the last state [final] of a
    run: a stop's event is logged, or a chunk is driven from the state
    (after the change of day, if there is one) and the break rule
    applied; what a driving turn leaves in the logs stays there to the
    end, with everything later behind it. *)
Inductive run (final : State) : State -> Prop :=
| run_end : run final final
| run_stop (stop : Stop) (st : State) :
    run final (FSim.add_stop_event fl today stop st) -> run final st
| run_drive (prev stop : Stop) (drive_hours : Q) (st st' : State) :
    0 < drive_hours ->
    break_rule (snd (FSim.drive_chunk fl today prev stop drive_hours
                       (FSim.roll_day fl today st))) st' ->
    extends (logs st') final ->
    run final st' -> run final st.

End BreakRule.

(** ** Sample inputs *)

Definition sample_trip : Trip :=
  {| current_location := "Chicago, IL";
     pickup_location := "St. Louis, MO";
     dropoff_location := "Dallas, TX";
     current_cycle_used := 0 |}.

(** The two stops of [create_basic_trip_stops]: no coordinates, so the
    simulator splits [total_miles] evenly and never asks for a
    great-circle distance. *)
Definition basic_stops : list Stop := Planner.create_basic_trip_stops sample_trip.

(** A 30-minute fuel stop without coordinates. *)
Definition uncharted_fuel_stop : Stop :=
  {| trip := sample_trip; location := "Fuel stop #1"; stop_type := fuel;
     duration_minutes := 30; sequence := 2;
     metadata := {| coordinates := None; address := Some EmptyString;
                    estimated_mileage := None; purpose := Some "Fuel stop #1"%string;
                    is_fallback := Some true; search_radius_km := Some None |} |}.

Definition basic_pickup : Stop := nth 0 basic_stops uncharted_fuel_stop.
Definition basic_dropoff : Stop := nth 1 basic_stops uncharted_fuel_stop.

Definition no_great_circle : Coord -> Coord -> Q := fun _ _ => 0.

(** Pickup, the fuel stop and dropoff. *)
Definition three_stops : list Stop :=
  match basic_stops with
  | [p; d] =>
      [ p; uncharted_fuel_stop;
        {| trip := trip d; location := location d; stop_type := stop_type d;
           duration_minutes := duration_minutes d; sequence := 3;
           metadata := metadata d |} ]
  | _ => []
  end.

(** Stub providers: a geocoder that knows two addresses, a search that
    finds nothing, a flat great-circle distance, and a five-point route. *)
Definition stub_geocode (a : string) : Planner.M unit Coord :=
  fun w => (Ok (if String.eqb a "St. Louis, MO" then (38, -90) else (32, -97)), w).

Definition stub_no_poi (c : Coord) (keywords : list string) (radius : Z)
  : Planner.M unit (option PointOfInterest) :=
  fun w => (Ok None, w).

Definition stub_great_circle : Coord -> Coord -> Q := fun _ _ => 550.

Definition sample_route : RouteGeometry :=
  [(-90, 38); (-92, 37); (-93, 36); (-95, 34); (-97, 32)].

(** An arithmetic that loses a little: every sum comes out a millionth
    part short. *)
Definition short_sums : Arith :=
  {| add := fun a b => (a + b) * (999999 # 1000000);
     sub := Qminus; mul := Qmult; div := Qdiv; round2 := py_round2 |}.

(** * Vocabulary of the further properties *)

(** Minutes a stop of each type lasts. *)
Definition planned_duration (ty : StopType) : Z :=
  match ty with
  | pickup | dropoff => 60
  | fuel | rest => 30
  end.

(** What a fuel or rest stop records of the search that placed it:
    either no point of interest was found at any radius, and the stop
    is flagged, has no radius and an empty address, and sits on a point
    of the route; or one was found at a radius of the ladder. *)
Definition search_recorded (route_coords : RouteGeometry) (s : Stop) : Prop :=
  (is_fallback (metadata s) = Some true /\
   search_radius_km (metadata s) = Some None /\
   address (metadata s) = Some EmptyString /\
   exists lon lat, In (lon, lat) route_coords /\
                   coordinates (metadata s) = Some (lat, lon)) \/
  (is_fallback (metadata s) = Some false /\
   (exists radius, In radius [10; 20; 40]%Z /\
                   search_radius_km (metadata s) = Some (Some radius)) /\
   exists c, coordinates (metadata s) = Some c).

(** What every stop of a completed plan keeps: its trip, the duration
    of its type, a record of the search for a fuel or rest stop, and
    plain coordinates without a flag for the pickup and the dropoff. *)
Definition planned_ok (t : Trip) (route_coords : RouteGeometry) (s : Stop) : Prop :=
  trip s = t /\
  duration_minutes s = planned_duration (stop_type s) /\
  match stop_type s with
  | fuel | rest => search_recorded route_coords s
  | pickup | dropoff =>
      is_fallback (metadata s) = None /\ exists c, coordinates (metadata s) = Some c
  end.

(** The stop a stop's own event logs: its type, label and metadata. *)
Definition stop_of_event (e : Event) : list (StopType * string * Metadata) :=
  match ev_type e, ev_metadata e with
  | of_stop ty, StopMeta m => [(ty, ev_location e, m)]
  | _, _ => []
  end.

Definition logged_stops (l : list LogDay) : list (StopType * string * Metadata) :=
  flat_map (fun r => flat_map stop_of_event (log_events r)) l.

Definition stop_signature (s : Stop) : StopType * string * Metadata :=
  (stop_type s, location s, metadata s).

(** Day numbers that stay or rise by one from record to record. *)
Fixpoint day_steps (prev : Z) (l : list LogDay) : Prop :=
  match l with
  | [] => True
  | r :: l' => (log_day r = prev \/ log_day r = (prev + 1)%Z) /\ day_steps (log_day r) l'
  end.

Definition last_day (prev : Z) (l : list LogDay) : Z :=
  fold_left (fun _ r => log_day r) l prev.

Definition calendar_inv (today : Z) (st : State) : Prop :=
  day_steps 1 (logs st) /\ last_day 1 (logs st) = day st /\
  Forall (fun r => log_date r = (today + (log_day r - 1))%Z) (logs st).

(** Hours the driving loop drives when asked for [dh]. *)
Definition driven (dh : Q) : Q := if Qlt_bool 0 dh then dh else 0.

(** Hours of driving a run makes: the rounded hours of every leg. *)
Fixpoint hours_to_drive (great_circle : Coord -> Coord -> Q) (total_miles : Q)
    (n_stops : nat) (prev : option Stop) (todo : list Stop) : Q :=
  match todo with
  | [] => 0
  | stop :: todo' =>
      match prev with
      | None => 0
      | Some p =>
          driven (py_round2 (segment_miles great_circle total_miles n_stops p stop
                             / AVERAGE_SPEED))
      end + hours_to_drive great_circle total_miles n_stops (Some stop) todo'
  end.

(** A driving event: it starts by hour 14 and covers no less than
    nothing and at most the 550 miles of eleven hours. *)
Definition driving_ok (d : Event) : Prop :=
  ev_type d = driving /\ ev_start d <= 14 /\
  0 <= event_miles d /\ event_miles d <= 550.

(** The four shapes of a record: a day marker, a stop's event, a
    driving event, a driving event with the rest break behind it. *)
Definition record_shape (r : LogDay) : Prop :=
  log_events r = [] \/
  (exists e ty, log_events r = [e] /\ ev_type e = of_stop ty) \/
  (exists d, log_events r = [d] /\ driving_ok d) \/
  (exists d b, log_events r = [d; b] /\ driving_ok d /\
               ev_type b = on_duty /\ ev_start b = ev_end d /\
               ev_location b = "Mandatory 30-minute rest"%string).

Definition shape_inv (st : State) : Prop :=
  0 <= daily_drive_hours st /\ cents (daily_drive_hours st) /\
  Forall record_shape (logs st).

(** The characters a cache key is made of after its prefix: lower-case
    letters, digits and the underscore. *)
Definition is_key_char (c : ascii) : bool :=
  let n := nat_of_ascii c in
  ((48 <=? n) && (n <=? 57) || (97 <=? n) && (n <=? 122) || (n =? 95))%nat.

Fixpoint string_forall (ok : ascii -> bool) (s : string) : bool :=
  match s with
  | EmptyString => true
  | String c s' => ok c && string_forall ok s'
  end.

(** Two characters the key cannot tell apart: the same letter in either
    case, the same digit, or any two characters that are neither. *)
Definition same_key_char (x y : ascii) : Prop :=
  (is_alnum x = false /\ is_alnum y = false) \/
  (is_alnum x = true /\ is_alnum y = true /\ ascii_lower x = ascii_lower y).

Fixpoint same_key_shape (a b : string) : Prop :=
  match a, b with
  | EmptyString, EmptyString => True
  | String x a', String y b' => same_key_char x y /\ same_key_shape a' b'
  | _, _ => False
  end.

(** A (latitude, longitude) point inside a box given by its
    (longitude, latitude) corners. *)
Definition in_viewbox (p : Coord) (box : (Q * Q) * (Q * Q)) : Prop :=
  fst (fst box) <= snd p /\ snd p <= fst (snd box) /\
  snd (fst box) <= fst p /\ fst p <= snd (snd box).

(** Seconds slept and provider calls made along a trace. *)
Definition slept (tr : list Services.Effect) : Q :=
  fold_right (fun e acc => match e with
                           | Services.Sleep seconds => seconds
                           | _ => 0
                           end + acc) 0 tr.

Definition is_call (e : Services.Effect) : bool :=
  match e with
  | Services.Sleep _ => false
  | _ => true
  end.

Definition calls (tr : list Services.Effect) : nat := List.length (filter is_call tr).

(** From [w] to [w'] the trace only grew, by at most [s] seconds of
    sleep and [n] provider calls. *)
Definition effort {Net Location : Type} (s : Q) (n : nat)
    (w w' : Services.World Net Location) : Prop :=
  exists added,
    Services.trace Net Location w' = Services.trace Net Location w ++ added /\
    slept added <= s /\ (calls added <= n)%nat.

(** The exceptions [find_poi_near_location] catches and retries on. *)
Definition is_caught (e : Services.pyexn) : bool :=
  match e with
  | Services.RequestException _ | Services.KeyError _ | Services.PyValueError _ => true
  | _ => false
  end.

Definition is_value_error (e : Services.pyexn) : bool :=
  match e with
  | Services.PyValueError _ => true
  | _ => false
  end.

(** Seconds one keyword's attempts may sleep: a second and a half
    before each attempt and the longest back-off after it. *)
Definition attempt_budget (attempts : list Z) : Q :=
  fold_right (fun attempt acc => (3 # 2) + 5 * inject_Z (attempt + 1) + acc) 0 attempts.

(** A planner computation that takes every world to one related to
    it by [R]. *)
Definition preserves {World A : Type} (R : World -> World -> Prop)
    (c : Planner.M World A) : Prop :=
  forall w r w', c w = (r, w') -> R w w'.

(** ** Sample providers

    A network that counts the calls made to it; locations are names. *)
Definition sample_pelias (text : string) (n : nat)
  : Services.answer (list (list Q)) * nat :=
  (Services.Done [[-(9016 # 100); 3862 # 100]], S n).

Definition failing_pelias (text : string) (n : nat)
  : Services.answer (list (list Q)) * nat :=
  (Services.Thrown (Services.RequestException "timed out"), S n).

Definition sample_directions (coords : list Coord) (optimize_waypoints : bool) (n : nat)
  : Services.answer Services.RouteResponse * nat :=
  (Services.Done {| Services.distance_m := 1609340;
                    Services.response_geometry := None |}, S n).

Definition failing_directions (coords : list Coord) (optimize_waypoints : bool) (n : nat)
  : Services.answer Services.RouteResponse * nat :=
  (Services.Thrown (Services.RequestException "timed out"), S n).

Definition sample_reverse (coords : Coord) (n : nat)
  : Services.answer (option string) * nat :=
  (Services.Done (Some "St. Louis"%string), S n).

Definition sample_nominatim (keyword : string) (viewbox : (Q * Q) * (Q * Q)) (n : nat)
  : Services.answer Services.HttpResponse * nat :=
  (Services.Done
     {| Services.status_code := 200;
        Services.json :=
          Services.Done
            [{| Services.display_name := Some "Truck Plaza, Main Street"%string;
                Services.position := Services.Done (3863 # 100, -(9017 # 100)) |}] |},
   S n).

Definition busy_nominatim (keyword : string) (viewbox : (Q * Q) * (Q * Q)) (n : nat)
  : Services.answer Services.HttpResponse * nat :=
  (Services.Done {| Services.status_code := 429;
                    Services.json := Services.Done [] |}, S n).

Definition sample_great_circle (a b : Coord) : Q := 250.

Definition sample_poi_key (keyword : string) (coords : Coord) (radius_km : Z) : string :=
  ("poi_" ++ keyword)%string.

Definition sample_reverse_key (coords : Coord) : string := "rev_"%string.

Definition fresh_world : Services.World nat string :=
  {| Services.net := 0%nat;
     Services.geocode_cache := fun _ => None;
     Services.poi_cache := fun _ => None;
     Services.reverse_cache := fun _ => None;
     Services.stored_stops := [];
     Services.trace := [] |}.

Definition st_louis : Coord := (3862 # 100, -(9016 # 100)).

(** * Properties *)

(** ** Facts about the numerics *)

Lemma Qlt_bool_iff (a b : Q) : Qlt_bool a b = true <-> a < b.
Proof.
  unfold Qlt_bool. rewrite negb_true_iff, <- not_true_iff_false, Qle_bool_iff.
  split; [apply Qnot_le_lt | apply Qlt_not_le].
Qed.

Lemma Qlt_bool_false (a b : Q) : Qlt_bool a b = false <-> b <= a.
Proof.
  unfold Qlt_bool. rewrite negb_false_iff. apply Qle_bool_iff.
Qed.

Lemma Qle_bool_false (a b : Q) : Qle_bool a b = false <-> b < a.
Proof.
  rewrite <- not_true_iff_false, Qle_bool_iff.
  split; [apply Qnot_le_lt | apply Qlt_not_le].
Qed.

Lemma py_min_cases (a b : Q) :
  (b < a /\ py_min a b = b) \/ (a <= b /\ py_min a b = a).
Proof.
  unfold py_min. destruct (Qlt_bool b a) eqn:E.
  - left. split; [now apply Qlt_bool_iff | reflexivity].
  - right. split; [now apply Qlt_bool_false | reflexivity].
Qed.

Lemma round_half_even_cases (q : Q) :
  let n := Qfloor q in
  (round_half_even q = n /\ q - inject_Z n < 1 # 2) \/
  (round_half_even q = n /\ q - inject_Z n == 1 # 2 /\ Z.even n = true) \/
  (round_half_even q = (n + 1)%Z /\ q - inject_Z n == 1 # 2 /\ Z.even n = false) \/
  (round_half_even q = (n + 1)%Z /\ 1 # 2 < q - inject_Z n).
Proof.
  intros n. unfold round_half_even. fold n.
  destruct (Qcompare_spec (q - inject_Z n) (1 # 2)) as [E | L | G].
  - destruct (Z.even n) eqn:Ev.
    + right; left. repeat split; assumption.
    + right; right; left. repeat split; assumption.
  - left. split; [reflexivity | assumption].
  - right; right; right. split; [reflexivity | assumption].
Qed.

Lemma round_half_even_mono (x y : Q) :
  x <= y -> (round_half_even x <= round_half_even y)%Z.
Proof.
  intros Hxy.
  pose proof (Qfloor_resp_le x y Hxy) as Hf.
  pose proof (Qfloor_le x) as Hx1. pose proof (Qlt_floor x) as Hx2.
  pose proof (Qfloor_le y) as Hy1. pose proof (Qlt_floor y) as Hy2.
  rewrite inject_Z_plus in Hx2, Hy2.
  destruct (round_half_even_cases x) as [[Rx Cx] | [[Rx [Cx Ex]] | [[Rx [Cx Ex]] | [Rx Cx]]]];
  destruct (round_half_even_cases y) as [[Ry Cy] | [[Ry [Cy Ey]] | [[Ry [Cy Ey]] | [Ry Cy]]]];
    rewrite Rx, Ry; try lia;
    (destruct (Z.eq_dec (Qfloor x) (Qfloor y)) as [E | N]; [ | lia]);
    rewrite E in *; try congruence; exfalso; lra.
Qed.

Lemma round_half_even_inject (q : Q) (z : Z) :
  q == inject_Z z -> round_half_even q = z.
Proof.
  intros E. unfold round_half_even.
  rewrite (Qfloor_comp _ _ E), Qfloor_Z.
  destruct (Qcompare_spec (q - inject_Z z) (1 # 2)) as [C | C | C];
    [exfalso; lra | reflexivity | exfalso; lra].
Qed.

Lemma py_round2_mono (x y : Q) : x <= y -> py_round2 x <= py_round2 y.
Proof.
  intros H. unfold py_round2, Qle. simpl.
  apply Z.mul_le_mono_nonneg_r; [lia |].
  apply round_half_even_mono. lra.
Qed.

Lemma cents_round (x : Q) : cents (py_round2 x).
Proof. eexists. unfold py_round2. reflexivity. Qed.

Lemma py_round2_cents (x : Q) : cents x -> py_round2 x == x.
Proof.
  intros [z E]. unfold py_round2.
  rewrite (round_half_even_inject (x * 100) z).
  - symmetry. exact E.
  - rewrite E. unfold Qeq. simpl. lia.
Qed.

Lemma cents_inject (z : Z) : cents (inject_Z z).
Proof. exists (z * 100)%Z. unfold Qeq. simpl. lia. Qed.

Lemma cents_eq (x y : Q) : x == y -> cents x -> cents y.
Proof. intros E [z H]. exists z. rewrite <- E. exact H. Qed.

Lemma cents_plus (x y : Q) : cents x -> cents y -> cents (x + y).
Proof.
  intros [a Ha] [b Hb]. exists (a + b)%Z. rewrite Ha, Hb.
  unfold Qeq. simpl. lia.
Qed.

Lemma cents_minus (x y : Q) : cents x -> cents y -> cents (x - y).
Proof.
  intros [a Ha] [b Hb]. exists (a - b)%Z. rewrite Ha, Hb.
  unfold Qeq. simpl. lia.
Qed.

Lemma cents_scale (x : Q) (k : Z) : cents x -> cents (x * inject_Z k).
Proof.
  intros [a Ha]. exists (a * k)%Z. rewrite Ha.
  unfold Qeq. simpl. lia.
Qed.

Lemma cents_min (x y : Q) : cents x -> cents y -> cents (py_min x y).
Proof. intros Hx Hy. unfold py_min. destruct (Qlt_bool y x); assumption. Qed.

Lemma py_round2_inject (z : Z) : py_round2 (inject_Z z) == inject_Z z.
Proof. apply py_round2_cents, cents_inject. Qed.

Lemma py_round2_nonneg (x : Q) : 0 <= x -> 0 <= py_round2 x.
Proof.
  intros H. apply py_round2_mono in H.
  rewrite <- (py_round2_inject 0). exact H.
Qed.

(** ** Facts about the simulator *)

Lemma last_events_append_snoc (l : list LogDay) (r : LogDay) (e : Event) :
  Sim.last_events_append (l ++ [r]) e =
  l ++ [ {| log_day := log_day r; log_date := log_date r;
            log_events := log_events r ++ [e];
            log_odometer := log_odometer r |} ].
Proof.
  induction l as [| a l IH]; [reflexivity |].
  simpl. rewrite IH. destruct (l ++ [r]) eqn:E; [| reflexivity].
  destruct l; discriminate.
Qed.


Section SimFacts.

Variable today : Z.
Variable great_circle : Coord -> Coord -> Q.

(** One turn of the driving loop, written out. *)
Lemma drive_step_eq (prev stop : Stop) (dh : Q) (st : State) :
  drive_step today prev stop dh st =
  let st1 := roll_day today st in
  let c := py_min (11 - daily_drive_hours st1) dh in
  let h := current_hour st1 + c in
  let brk := Qle_bool 8 (daily_drive_hours st1 + c) in
  (dh - c,
   {| day := day st1;
      current_hour := if brk then h + (1 # 2) else h;
      odometer := odometer st1 + c * AVERAGE_SPEED;
      daily_drive_hours := if brk then 0 else daily_drive_hours st1 + c;
      logs := logs st1 ++
              [ {| log_day := day st1; log_date := date_of today (day st1);
                   log_events := driving_event prev stop (current_hour st1) h c
                                 :: (if brk then [rest_event h] else []);
                   log_odometer := py_round2 (odometer st1 + c * AVERAGE_SPEED) |} ] |}).
Proof.
  unfold drive_step, drive_chunk, rest_break. cbn zeta. cbn [daily_drive_hours].
  destruct (Qle_bool 8 _); cbn [logs day current_hour odometer];
    [rewrite last_events_append_snoc |]; reflexivity.
Qed.

Lemma roll_day_cases (st : State) :
  (daily_drive_hours st < 11 /\ current_hour st < 14 /\ roll_day today st = st) \/
  ((11 <= daily_drive_hours st \/ 14 <= current_hour st) /\
   roll_day today st =
   {| day := day st + 1; current_hour := 0; odometer := odometer st;
      daily_drive_hours := 0;
      logs := logs st ++
              [ {| log_day := day st; log_date := date_of today (day st);
                   log_events := []; log_odometer := py_round2 (odometer st) |} ] |}).
Proof.
  unfold roll_day.
  destruct (Qle_bool 11 (daily_drive_hours st)) eqn:E1;
  destruct (Qle_bool 14 (current_hour st)) eqn:E2; cbn [orb];
    try (right; split; [| reflexivity]).
  - left. now apply Qle_bool_iff.
  - left. now apply Qle_bool_iff.
  - right. now apply Qle_bool_iff.
  - left. apply Qle_bool_false in E1, E2. auto.
Qed.

(** After rolling the day over, the driver may drive. *)
Lemma roll_day_daily (st : State) : daily_drive_hours (roll_day today st) < 11.
Proof.
  destruct (roll_day_cases st) as [[H [_ E]] | [_ E]]; rewrite E;
    [exact H | reflexivity].
Qed.

Lemma roll_day_daily_lt8 (st : State) :
  daily_drive_hours st < 8 -> daily_drive_hours (roll_day today st) < 8.
Proof.
  intros H. destruct (roll_day_cases st) as [[_ [_ E]] | [_ E]]; rewrite E;
    [exact H | reflexivity].
Qed.

(** Every turn drives for a positive time. *)
Lemma chunk_positive (dh : Q) (st : State) :
  0 < dh -> 0 < py_min (11 - daily_drive_hours (roll_day today st)) dh.
Proof.
  intros H. pose proof (roll_day_daily st).
  destruct (py_min_cases (11 - daily_drive_hours (roll_day today st)) dh)
    as [[_ E] | [_ E]]; rewrite E; lra.
Qed.

Lemma drive_step_daily (prev stop : Stop) (dh : Q) (st : State) :
  daily_drive_hours (snd (drive_step today prev stop dh st)) < 8.
Proof.
  rewrite drive_step_eq. cbn.
  destruct (Qle_bool 8 _) eqn:E; [reflexivity | now apply Qle_bool_false].
Qed.

Lemma drive_step_progress (prev stop : Stop) (dh : Q) (st : State) :
  0 < dh -> fst (drive_step today prev stop dh st) < dh.
Proof.
  intros H. rewrite drive_step_eq. cbn.
  pose proof (chunk_positive dh st H). lra.
Qed.

Lemma drive_step_progress3 (prev stop : Stop) (dh : Q) (st : State) :
  0 < dh -> daily_drive_hours st < 8 ->
  fst (drive_step today prev stop dh st) <= 0 \/
  fst (drive_step today prev stop dh st) <= dh - 3.
Proof.
  intros H H8. rewrite drive_step_eq. cbn.
  pose proof (roll_day_daily_lt8 st H8).
  destruct (py_min_cases (11 - daily_drive_hours (roll_day today st)) dh)
    as [[_ E] | [_ E]]; rewrite E; [left | right]; lra.
Qed.

Lemma drive_loop_S (prev stop : Stop) (n : nat) (dh : Q) (st : State) :
  drive_loop today (S n) prev stop dh st =
  if Qlt_bool 0 dh
  then drive_loop today n prev stop (fst (drive_step today prev stop dh st))
                  (snd (drive_step today prev stop dh st))
  else Some st.
Proof.
  cbn [drive_loop]. destruct (drive_step today prev stop dh st). reflexivity.
Qed.

Lemma drive_loop_runs (prev stop : Stop) (n : nat) :
  forall (dh : Q) (st : State),
    daily_drive_hours st < 8 -> dh <= 3 * inject_Z (Z.of_nat n) ->
    exists st', drive_loop today n prev stop dh st = Some st'.
Proof.
  induction n as [| n IH]; intros dh st H8 Hn.
  - cbn [drive_loop]. destruct (Qlt_bool 0 dh) eqn:E; [| eauto].
    apply Qlt_bool_iff in E. change (inject_Z (Z.of_nat 0)) with 0 in Hn. lra.
  - rewrite drive_loop_S. destruct (Qlt_bool 0 dh) eqn:E; [| eauto].
    apply Qlt_bool_iff in E.
    pose proof (drive_step_daily prev stop dh st) as Hd.
    pose proof (drive_step_progress3 prev stop dh st E H8) as Hp.
    apply IH; [exact Hd |].
    rewrite Nat2Z.inj_succ, <- Z.add_1_r, inject_Z_plus in Hn.
    assert (0 <= inject_Z (Z.of_nat n)).
    { change 0 with (inject_Z 0). rewrite <- Zle_Qle. lia. }
    change (inject_Z 1) with 1 in Hn.
    destruct Hp; lra.
Qed.

(** The budget of turns is never exhausted, whatever the state. *)
Lemma drive_loop_total (prev stop : Stop) (dh : Q) (st : State) :
  exists st', drive_loop today (drive_turns dh) prev stop dh st = Some st'.
Proof.
  unfold drive_turns. rewrite drive_loop_S.
  destruct (Qlt_bool 0 dh) eqn:E; [| eauto].
  apply Qlt_bool_iff in E.
  pose proof (drive_step_daily prev stop dh st) as Hd.
  pose proof (drive_step_progress prev stop dh st E) as Hp.
  apply drive_loop_runs; [exact Hd |].
  pose proof (Qlt_floor dh) as Hf. rewrite inject_Z_plus in Hf.
  change (inject_Z 1) with 1 in Hf.
  assert (0 <= Qfloor dh)%Z.
  { change 0%Z with (Qfloor 0). apply Qfloor_resp_le. lra. }
  rewrite Nat2Z.inj_succ, Z2Nat.id, <- Z.add_1_r, inject_Z_plus by assumption.
  assert (0 <= inject_Z (Qfloor dh)).
  { change 0 with (inject_Z 0). rewrite <- Zle_Qle. assumption. }
  change (inject_Z 1) with 1. lra.
Qed.

Lemma visit_all_total (total_miles : Q) (n : nat) (todo : list Stop) :
  forall (prev : option Stop) (st : State),
    exists st', visit_all today great_circle total_miles n prev todo st = Some st'.
Proof.
  induction todo as [| stop todo IH]; intros prev st; cbn [visit_all]; [eauto |].
  unfold visit. destruct prev as [p |]; [| apply IH].
  unfold drive_to.
  destruct (drive_loop_total p stop
              (py_round2 (segment_miles great_circle total_miles n p stop / AVERAGE_SPEED)) st)
    as [st' E].
  rewrite E. apply IH.
Qed.

(** Below the cycle cap the simulator returns its logs. *)
Lemma generate_returns (stops : list Stop) (ccu total_miles : Q) :
  ccu < 70 ->
  exists st,
    visit_all today great_circle total_miles (List.length stops) None stops init = Some st /\
    generate_eld_logs_with_stops today great_circle stops ccu total_miles = Returns (logs st).
Proof.
  intros H. unfold generate_eld_logs_with_stops.
  assert (E : Qle_bool (MAX_CYCLE_HOURS - ccu) 0 = false).
  { apply Qle_bool_false. unfold MAX_CYCLE_HOURS. lra. }
  rewrite E.
  destruct (visit_all_total total_miles (List.length stops) stops None init) as [st Hst].
  exists st. rewrite Hst. auto.
Qed.

End SimFacts.

(** ** Invariants of a run

    [P] is kept by every turn of the driving loop and by every stop
    event; [D] is a property of the hours still to drive; [S] is what
    is known of the stops. *)

Section Invariant.

Variable today : Z.
Variable great_circle : Coord -> Coord -> Q.
Variable P : State -> Prop.
Variable D : Q -> Prop.
Variable S : Stop -> Prop.

Hypothesis D_round : forall x, D (py_round2 x).
Hypothesis step_ok :
  forall prev stop dh st, P st -> D dh -> 0 < dh ->
    P (snd (drive_step today prev stop dh st)) /\
    D (fst (drive_step today prev stop dh st)).
Hypothesis stop_ok :
  forall stop st, S stop -> P st -> P (add_stop_event today stop st).

Lemma drive_loop_inv (prev stop : Stop) (n : nat) :
  forall dh st st',
    P st -> D dh -> drive_loop today n prev stop dh st = Some st' -> P st'.
Proof.
  induction n as [| n IH]; intros dh st st' HP HD.
  - cbn [drive_loop]. destruct (Qlt_bool 0 dh); [discriminate |].
    intros [= <-]. exact HP.
  - rewrite drive_loop_S. destruct (Qlt_bool 0 dh) eqn:E.
    + apply Qlt_bool_iff in E.
      destruct (step_ok prev stop dh st HP HD E) as [HP' HD'].
      apply IH; assumption.
    + intros [= <-]. exact HP.
Qed.

Lemma visit_all_inv (total_miles : Q) (n : nat) (todo : list Stop) :
  forall prev st st',
    Forall S todo -> P st ->
    visit_all today great_circle total_miles n prev todo st = Some st' -> P st'.
Proof.
  induction todo as [| stop todo IH]; intros prev st st' HS HP; cbn [visit_all].
  - intros [= <-]. exact HP.
  - inversion HS as [| ? ? Hstop Htodo]; subst.
    unfold visit. destruct prev as [p |].
    + unfold drive_to.
      destruct (drive_loop today _ p stop _ st) as [st1 |] eqn:E; [| discriminate].
      apply IH; [exact Htodo |].
      apply stop_ok; [exact Hstop |].
      eapply drive_loop_inv; [exact HP | apply D_round | exact E].
    + apply IH; [exact Htodo |]. apply stop_ok; assumption.
Qed.

Lemma generate_inv (stops : list Stop) (ccu total_miles : Q) (l : list LogDay) :
  Forall S stops -> P init ->
  generate_eld_logs_with_stops today great_circle stops ccu total_miles = Returns l ->
  exists st, P st /\ logs st = l.
Proof.
  intros HS HP. unfold generate_eld_logs_with_stops.
  destruct (Qle_bool _ 0); [discriminate |].
  destruct (visit_all _ _ _ _ _ _ _) as [st |] eqn:E; [| discriminate].
  intros [= <-]. exists st. split; [| reflexivity].
  eapply visit_all_inv; eassumption.
Qed.

End Invariant.

(** ** The cycle cap *)

(** C5.  With seventy or more hours already used in the cycle the
    simulator raises its error, whatever the stops and the mileage: the
    outcome carries no log record at all. *)
Theorem cycle_cap_raises (today : Z) (great_circle : Coord -> Coord -> Q)
    (stops : list Stop) (total_miles : Q) (ccu : Q) :
  70 <= ccu ->
  generate_eld_logs_with_stops today great_circle stops ccu total_miles =
  Raises (ValueError "Driver has already exceeded 70-hr cycle.").
Proof.
  intros H. unfold generate_eld_logs_with_stops.
  assert (E : Qle_bool (MAX_CYCLE_HOURS - ccu) 0 = true).
  { apply Qle_bool_iff. unfold MAX_CYCLE_HOURS. lra. }
  rewrite E. reflexivity.
Qed.

(** ** The daily driving limit *)

(** C1.  Six hundred miles between the two stops of the basic itinerary
    are twelve hours of driving; the simulator logs all twelve on day 1
    (eleven, the rest break that zeroes the counter, then one more), so
    day 1 holds more than the eleven hours a day allows. *)
Theorem day_one_drives_twelve_hours (today : Z) (great_circle : Coord -> Coord -> Q) :
  exists l,
    generate_eld_logs_with_stops today great_circle basic_stops 0 600 = Returns l /\
    driving_hours_on_day 1 l == 12 /\
    ~ driving_hours_on_day 1 l <= MAX_DAILY_DRIVING.
Proof.
  eexists. split; [vm_compute; reflexivity |].
  split; [vm_compute; reflexivity |].
  vm_compute. intros H. apply H. reflexivity.
Qed.

(** ** Hours of the day *)

(** C3, refuted.  On 1050 miles the basic itinerary's dropoff is logged
    from 23 to 24, so a stop's event can end at hour 24 itself; with a
    fuel stop between two eleven-hour legs the second leg is logged from
    13 to 24 and its rest break from 24 to 24.5. *)
Lemma events_reach_hour_24 :
  (exists l r e,
     generate_eld_logs_with_stops 0 no_great_circle basic_stops 0 1050 = Returns l /\
     In r l /\ In e (log_events r) /\
     ev_type e = of_stop dropoff /\ ev_end e == 24 /\ ~ within_day e) /\
  (exists l r e,
     generate_eld_logs_with_stops 0 no_great_circle three_stops 0 1100 = Returns l /\
     In r l /\ In e (log_events r) /\
     ev_type e = on_duty /\ ev_start e == 24 /\ ev_end e == 49 # 2 /\ ~ within_day e).
Proof.
  split.
  - eexists _, _, _. split; [vm_compute; reflexivity |].
    split; [do 3 right; left; reflexivity |].
    split; [left; reflexivity |].
    split; [reflexivity |]. split; [reflexivity |].
    intros [_ H]. vm_compute in H. discriminate.
  - eexists _, _, _. split; [vm_compute; reflexivity |].
    split; [do 3 right; left; reflexivity |].
    split; [right; left; reflexivity |].
    split; [reflexivity |]. split; [reflexivity |]. split; [reflexivity |].
    intros [_ H]. vm_compute in H. discriminate.
Qed.

Lemma all_events_snoc (ok : Event -> Prop) (l : list LogDay) (r : LogDay) :
  all_events ok l -> Forall ok (log_events r) -> all_events ok (l ++ [r]).
Proof.
  intros Hl Hr. apply Forall_app. split; [exact Hl |].
  constructor; [exact Hr | constructor].
Qed.

Lemma stop_duration_bounds (s : Stop) :
  fits_a_day s ->
  0 <= inject_Z (duration_minutes s) / 60 /\ inject_Z (duration_minutes s) / 60 <= 24.
Proof.
  intros [H0 H1]. unfold Qdiv, Qle. simpl. lia.
Qed.

Section EventBounds.

Variable today : Z.
Variable great_circle : Coord -> Coord -> Q.

Lemma roll_day_bounded (st : State) : bounded st -> bounded (roll_day today st).
Proof.
  intros [Hh Hl].
  destruct (roll_day_cases today st) as [[_ [_ E]] | [_ E]]; rewrite E.
  - split; assumption.
  - split; [apply Qle_refl |]. cbn [logs].
    apply all_events_snoc; [exact Hl | constructor].
Qed.

Lemma drive_step_bounded (prev stop : Stop) (dh : Q) (st : State) :
  bounded st -> 0 < dh -> bounded (snd (drive_step today prev stop dh st)).
Proof.
  intros Hb Hdh. apply roll_day_bounded in Hb. destruct Hb as [Hh Hl].
  pose proof (chunk_positive today dh st Hdh) as Hc.
  rewrite drive_step_eq. cbn zeta. cbn [snd].
  set (st1 := roll_day today st) in *.
  set (c := py_min (11 - daily_drive_hours st1) dh) in *.
  assert (Hdrv : event_ok (driving_event prev stop (current_hour st1)
                                         (current_hour st1 + c) c)).
  { repeat split; cbn.
    - now apply py_round2_nonneg.
    - apply py_round2_mono. lra.
    - discriminate. }
  assert (Hrest : event_ok (rest_event (current_hour st1 + c))).
  { repeat split; cbn.
    - apply py_round2_nonneg. lra.
    - apply py_round2_mono. lra.
    - discriminate. }
  split; cbn [current_hour logs].
  - destruct (Qle_bool 8 _); lra.
  - apply all_events_snoc; [exact Hl |]. cbn [log_events].
    destruct (Qle_bool 8 _).
    + apply Forall_cons; [exact Hdrv |].
      apply Forall_cons; [exact Hrest | apply Forall_nil].
    + apply Forall_cons; [exact Hdrv | apply Forall_nil].
Qed.

Lemma add_stop_event_bounded (stop : Stop) (st : State) :
  fits_a_day stop -> bounded st -> bounded (add_stop_event today stop st).
Proof.
  intros Hs [Hh Hl]. apply stop_duration_bounds in Hs. destruct Hs as [Hd0 Hd1].
  unfold add_stop_event. cbn zeta.
  set (d := inject_Z (duration_minutes stop) / 60) in *.
  assert (R24 : py_round2 24 == 24) by apply (py_round2_inject 24).
  split; cbn [current_hour logs].
  - destruct (Qlt_bool 24 _); lra.
  - apply all_events_snoc; [exact Hl |]. cbn [log_events].
    constructor; [| constructor].
    destruct (Qlt_bool 24 (current_hour st + d)) eqn:E; repeat split; cbn.
    + now apply py_round2_nonneg.
    + apply py_round2_mono. lra.
    + intros _ _. rewrite <- R24. apply py_round2_mono. lra.
    + now apply py_round2_nonneg.
    + apply py_round2_mono. lra.
    + intros _ _. apply Qlt_bool_false in E.
      rewrite <- R24. apply py_round2_mono. exact E.
Qed.

(** C3, as the code has it.  Below the cycle cap, and when every stop
    lasts between nothing and a whole day, the simulator returns logs in
    which every event starts at hour 0 or later and ends no earlier than
    it starts, and in which every stop's own event ends at hour 24 at
    the latest. *)
Theorem events_start_in_day_and_stops_end_by_24
    (stops : list Stop) (ccu total_miles : Q) :
  ccu < 70 -> Forall fits_a_day stops ->
  exists l,
    generate_eld_logs_with_stops today great_circle stops ccu total_miles = Returns l /\
    all_events event_ok l.
Proof.
  intros Hc Hs.
  destruct (generate_returns today great_circle stops ccu total_miles Hc) as [st [_ E]].
  exists (logs st). split; [exact E |].
  destruct (generate_inv today great_circle bounded (fun _ => True) fits_a_day) with
    (stops := stops) (ccu := ccu) (total_miles := total_miles) (l := logs st)
    as [st' [[_ Hl] El]].
  - intros; exact I.
  - intros prev stop dh st0 Hb _ Hdh. split; [| exact I].
    now apply drive_step_bounded.
  - intros stop st0. apply add_stop_event_bounded.
  - exact Hs.
  - split; [apply Qle_refl | constructor].
  - exact E.
  - rewrite <- El. exact Hl.
Qed.

End EventBounds.

(** The theorem at the 1050-mile run of the basic itinerary. *)
Lemma events_start_in_day_witness :
  0 < 70 /\ Forall fits_a_day basic_stops /\
  exists l,
    generate_eld_logs_with_stops 0 no_great_circle basic_stops 0 1050 = Returns l /\
    all_events event_ok l.
Proof.
  assert (H1 : 0 < 70) by reflexivity.
  assert (H2 : Forall fits_a_day basic_stops).
  { repeat apply Forall_cons; try apply Forall_nil; unfold fits_a_day; cbn; lia. }
  split; [exact H1 |]. split; [exact H2 |].
  exact (events_start_in_day_and_stops_end_by_24 0 no_great_circle basic_stops 0 1050 H1 H2).
Defined.

(** The cap itself: seventy hours used. *)
Lemma cycle_cap_raises_witness :
  70 <= 70 /\
  generate_eld_logs_with_stops 0 no_great_circle basic_stops 70 500 =
  Raises (ValueError "Driver has already exceeded 70-hr cycle.").
Proof.
  assert (H : 70 <= 70) by apply Qle_refl.
  split; [exact H |].
  exact (cycle_cap_raises 0 no_great_circle basic_stops 500 70 H).
Defined.

(** ** The odometer *)

Lemma odometer_trace_snoc (l : list LogDay) (r : LogDay) :
  forall prev,
    odometer_trace prev l ->
    log_odometer r == last_reading prev l + driving_miles r ->
    last_reading prev l <= log_odometer r ->
    odometer_trace prev (l ++ [r]).
Proof.
  induction l as [| a l IH]; intros prev Ht He Hle; cbn in *.
  - auto.
  - destruct Ht as [H1 [H2 H3]]. repeat split; try assumption.
    apply IH; assumption.
Qed.

Lemma last_reading_snoc (l : list LogDay) (r : LogDay) (prev : Q) :
  last_reading prev (l ++ [r]) = log_odometer r.
Proof. unfold last_reading. rewrite fold_left_app. reflexivity. Qed.

Section Odometer.

Variable today : Z.
Variable great_circle : Coord -> Coord -> Q.

Lemma roll_day_odometer (st : State) : odometer_inv st -> odometer_inv (roll_day today st).
Proof.
  intros [Hd [Ho [Ht Hl]]].
  destruct (roll_day_cases today st) as [[_ [_ E]] | [_ E]]; rewrite E.
  - repeat split; assumption.
  - pose proof (py_round2_cents _ Ho) as R.
    repeat split; cbn [daily_drive_hours odometer logs].
    + apply (cents_inject 0).
    + exact Ho.
    + apply odometer_trace_snoc; [exact Ht | |]; cbn [log_odometer];
        unfold driving_miles; cbn [log_events fold_right]; lra.
    + rewrite last_reading_snoc. exact R.
Qed.

Lemma drive_step_odometer (prev stop : Stop) (dh : Q) (st : State) :
  odometer_inv st -> cents dh -> 0 < dh ->
  odometer_inv (snd (drive_step today prev stop dh st)) /\
  cents (fst (drive_step today prev stop dh st)).
Proof.
  intros Hi Hdh Hpos. apply roll_day_odometer in Hi. destruct Hi as [Hd [Ho [Ht Hl]]].
  pose proof (chunk_positive today dh st Hpos) as Hc.
  rewrite drive_step_eq. cbn zeta. cbn [fst snd].
  set (st1 := roll_day today st) in *.
  set (c := py_min (11 - daily_drive_hours st1) dh) in *.
  assert (Cc : cents c).
  { apply cents_min; [| exact Hdh].
    apply cents_minus; [apply (cents_inject 11) | exact Hd]. }
  assert (Cm : cents (c * AVERAGE_SPEED)) by apply (cents_scale c 50 Cc).
  assert (Co : cents (odometer st1 + c * AVERAGE_SPEED)) by now apply cents_plus.
  pose proof (py_round2_cents _ Cm) as Rm.
  pose proof (py_round2_cents _ Co) as Ro.
  assert (Hm : 0 < c * AVERAGE_SPEED) by (unfold AVERAGE_SPEED; lra).
  split; [| now apply cents_minus].
  repeat split; cbn [daily_drive_hours odometer logs].
  - destruct (Qle_bool 8 _); [apply (cents_inject 0) | now apply cents_plus].
  - exact Co.
  - apply odometer_trace_snoc; [exact Ht | | cbn [log_odometer]; lra].
    cbn [log_odometer]. unfold driving_miles. cbn [log_events].
    destruct (Qle_bool 8 _);
      cbn [fold_right event_miles ev_metadata driving_event rest_event]; lra.
  - rewrite last_reading_snoc. exact Ro.
Qed.

Lemma add_stop_event_odometer (stop : Stop) (st : State) :
  odometer_inv st -> odometer_inv (add_stop_event today stop st).
Proof.
  intros [Hd [Ho [Ht Hl]]]. pose proof (py_round2_cents _ Ho) as R.
  unfold add_stop_event. cbn zeta.
  repeat split; cbn [daily_drive_hours odometer logs].
  - destruct (Qlt_bool 24 _); [apply (cents_inject 0) | exact Hd].
  - exact Ho.
  - apply odometer_trace_snoc; [exact Ht | |]; cbn [log_odometer];
      unfold driving_miles; cbn [log_events fold_right event_miles ev_metadata]; lra.
  - rewrite last_reading_snoc. exact R.
Qed.

(** C10.  Below the cycle cap the simulator returns logs whose odometer
    readings never decrease in the order they were appended, each
    reading being the previous one plus the miles of the record's
    driving event (so a record without one repeats the reading); one
    turn of the driving loop advances the odometer by fifty times the
    hours it drove, and a stop's event leaves it alone. *)
Theorem odometer_follows_driving (stops : list Stop) (ccu total_miles : Q) :
  ccu < 70 ->
  (exists l,
     generate_eld_logs_with_stops today great_circle stops ccu total_miles = Returns l /\
     odometer_trace 0 l) /\
  (forall prev stop dh st,
     odometer (snd (drive_step today prev stop dh st)) ==
     odometer st + (dh - fst (drive_step today prev stop dh st)) * AVERAGE_SPEED) /\
  (forall stop st, odometer (add_stop_event today stop st) = odometer st).
Proof.
  intros Hc. split; [| split].
  - destruct (generate_returns today great_circle stops ccu total_miles Hc) as [st [_ E]].
    exists (logs st). split; [exact E |].
    destruct (generate_inv today great_circle odometer_inv cents (fun _ => True)) with
      (stops := stops) (ccu := ccu) (total_miles := total_miles) (l := logs st)
      as [st' [[_ [_ [Ht _]]] El]].
    + apply cents_round.
    + intros prev stop dh st0. apply drive_step_odometer.
    + intros stop st0 _. apply add_stop_event_odometer.
    + apply Forall_forall. intros; exact I.
    + split; [apply (cents_inject 0) |].
      split; [apply (cents_inject 0) |].
      split; [exact I | apply Qeq_refl].
    + exact E.
    + rewrite <- El. exact Ht.
  - intros prev stop dh st. rewrite drive_step_eq. cbn zeta. cbn [fst snd odometer].
    destruct (roll_day_cases today st) as [[_ [_ E]] | [_ E]]; rewrite E;
      cbn [odometer]; unfold AVERAGE_SPEED; lra.
  - reflexivity.
Qed.

End Odometer.

(** The theorem at the 1050-mile run of the basic itinerary. *)
Lemma odometer_follows_driving_witness :
  0 < 70 /\
  exists l,
    generate_eld_logs_with_stops 0 no_great_circle basic_stops 0 1050 = Returns l /\
    odometer_trace 0 l.
Proof.
  assert (H : 0 < 70) by reflexivity.
  split; [exact H |].
  exact (proj1 (odometer_follows_driving 0 no_great_circle basic_stops 0 1050 H)).
Defined.

(** ** The mandatory rest break *)

(** With nothing rounded away the simulator on the machine's numbers is
    [Sim]. *)
Section Exact.

Variable today : Z.
Variable great_circle : Coord -> Coord -> Q.

Lemma exact_drive_loop (turns : nat) (prev stop : Stop) (dh : Q) (st : State) :
  FSim.drive_loop exact today turns prev stop dh st = drive_loop today turns prev stop dh st.
Proof.
  revert dh st. induction turns as [| n IH]; intros dh st; cbn [FSim.drive_loop drive_loop].
  - reflexivity.
  - destruct (Qlt_bool 0 dh); [| reflexivity].
    change (FSim.drive_step exact today prev stop dh st)
      with (drive_step today prev stop dh st).
    destruct (drive_step today prev stop dh st) as [dh' st']. apply IH.
Qed.

Lemma exact_visit_all (total_miles : Q) (k : nat) (prev : option Stop) (todo : list Stop)
    (st : State) :
  FSim.visit_all exact today great_circle total_miles k prev todo st =
  visit_all today great_circle total_miles k prev todo st.
Proof.
  revert prev st. induction todo as [| stop todo IH]; intros prev st; [reflexivity |].
  cbn [FSim.visit_all visit_all].
  assert (E : FSim.visit exact today great_circle total_miles k prev stop st =
              visit today great_circle total_miles k prev stop st).
  { destruct prev as [p |]; [| reflexivity].
    unfold FSim.visit, visit, FSim.drive_to, drive_to. rewrite exact_drive_loop.
    reflexivity. }
  rewrite E. destruct (visit today great_circle total_miles k prev stop st); [apply IH |].
  reflexivity.
Qed.

Lemma exact_generate (stops : list Stop) (ccu total_miles : Q) :
  FSim.generate_eld_logs_with_stops exact today great_circle stops ccu total_miles =
  generate_eld_logs_with_stops today great_circle stops ccu total_miles.
Proof.
  unfold FSim.generate_eld_logs_with_stops, generate_eld_logs_with_stops.
  rewrite exact_visit_all. reflexivity.
Qed.

End Exact.

Section RestBreak.

Variable fl : Arith.
Variable today : Z.
Variable great_circle : Coord -> Coord -> Q.

Lemma extends_refl (st : State) : extends (logs st) st.
Proof. exists []. now rewrite app_nil_r. Qed.

Lemma extends_app (base more : list LogDay) (st : State) :
  extends (base ++ more) st -> extends base st.
Proof. intros [l E]. exists (more ++ l). now rewrite E, app_assoc. Qed.

Lemma fsim_roll_day_logs (st : State) :
  exists marker, logs (FSim.roll_day fl today st) = logs st ++ marker.
Proof.
  unfold FSim.roll_day. destruct (_ || _).
  - eexists. reflexivity.
  - exists []. now rewrite app_nil_r.
Qed.

(** Every turn of the loop keeps the break rule. *)
Lemma drive_step_break_rule (prev stop : Stop) (dh : Q) (st : State) :
  break_rule fl (snd (FSim.drive_chunk fl today prev stop dh (FSim.roll_day fl today st)))
             (snd (FSim.drive_step fl today prev stop dh st)).
Proof.
  unfold FSim.drive_step.
  set (st1 := FSim.roll_day fl today st).
  destruct (FSim.drive_chunk fl today prev stop dh st1) as [dh' driven] eqn:E.
  cbn [snd]. unfold FSim.drive_chunk in E. injection E as _ E.
  eexists (logs st1), _, _. split; [rewrite <- E; reflexivity |].
  split; [reflexivity |]. split; [reflexivity |]. split.
  - intros H8. apply Qle_bool_iff in H8. unfold FSim.rest_break. rewrite H8.
    eexists. rewrite <- E. cbn [logs current_hour daily_drive_hours day odometer].
    rewrite last_events_append_snoc. cbn [log_day log_date log_events log_odometer app].
    repeat split.
  - intros H8. unfold FSim.rest_break.
    assert (F : Qle_bool 8 (daily_drive_hours driven) = false) by now apply Qle_bool_false.
    now rewrite F.
Qed.

(** A run only appends to what is logged. *)
Lemma run_extends (final st : State) : run fl today final st -> extends (logs st) final.
Proof.
  induction 1 as [| stop st _ IH | prev stop dh st st' _ Hb Hx _ _].
  - apply extends_refl.
  - unfold FSim.add_stop_event in IH. cbn [logs] in IH. now apply extends_app in IH.
  - destruct Hb as [older [r [drv [Hl [_ [_ [Hge Hlt]]]]]]].
    unfold FSim.drive_chunk in Hl. cbn [snd logs] in Hl.
    apply app_inj_tail in Hl. destruct Hl as [Hl _].
    destruct (fsim_roll_day_logs st) as [marker Hm]. rewrite Hm in Hl.
    destruct (Qlt_le_dec (daily_drive_hours
                (snd (FSim.drive_chunk fl today prev stop dh (FSim.roll_day fl today st)))) 8)
      as [L | G].
    + rewrite (Hlt L) in Hx. unfold FSim.drive_chunk in Hx. cbn [snd logs] in Hx.
      rewrite Hm, <- app_assoc in Hx. now apply extends_app in Hx.
    + destruct (Hge G) as [brk [Hs _]]. rewrite Hs, <- Hl, <- app_assoc in Hx.
      now apply extends_app in Hx.
Qed.

Lemma drive_loop_run (final : State) (turns : nat) (prev stop : Stop) (dh : Q)
    (st st' : State) :
  FSim.drive_loop fl today turns prev stop dh st = Some st' ->
  run fl today final st' -> run fl today final st.
Proof.
  revert dh st. induction turns as [| n IH]; intros dh st E R; cbn [FSim.drive_loop] in E.
  - destruct (Qlt_bool 0 dh); [discriminate | now injection E as ->].
  - destruct (Qlt_bool 0 dh) eqn:Hd; [| now injection E as ->].
    apply Qlt_bool_iff in Hd.
    pose proof (drive_step_break_rule prev stop dh st) as Hb.
    destruct (FSim.drive_step fl today prev stop dh st) as [dh1 st1].
    cbn [snd] in Hb. specialize (IH _ _ E R).
    eapply run_drive; [exact Hd | exact Hb | now apply run_extends | exact IH].
Qed.

Lemma visit_all_run (final : State) (total_miles : Q) (k : nat) (todo : list Stop) :
  forall prev st,
    FSim.visit_all fl today great_circle total_miles k prev todo st = Some final ->
    run fl today final st.
Proof.
  induction todo as [| stop todo IH]; intros prev st E; cbn [FSim.visit_all] in E.
  - injection E as ->. apply run_end.
  - destruct (FSim.visit fl today great_circle total_miles k prev stop st) as [st2 |] eqn:V;
      [| discriminate].
    apply IH in E. unfold FSim.visit in V. destruct prev as [p |].
    + destruct (FSim.drive_to fl today great_circle total_miles k p stop st) as [st1 |] eqn:D;
        [| discriminate].
      injection V as <-. unfold FSim.drive_to in D.
      eapply drive_loop_run; [exact D |]. eapply run_stop. exact E.
    + injection V as <-. eapply run_stop. exact E.
Qed.

(** C8.  Whatever the machine makes of the arithmetic, the logs a run
    returns are those of a sequence of turns from the initial state,
    each logging a stop or driving a chunk; and at every driving turn,
    when the continuous-driving counter stands at eight hours or more
    after the chunk, the half-hour [on_duty] rest event is put right
    behind that driving event in its record, the clock moves on by half
    an hour and the counter restarts at 0, while below eight hours no
    rest is logged; everything the run logs after the turn, further
    driving included, comes behind that record.  With nothing rounded
    away the run is the one of [Sim], which returns below the cycle
    cap. *)
Theorem rest_break_follows_driving (stops : list Stop) (ccu total_miles : Q) :
  (forall l,
     FSim.generate_eld_logs_with_stops fl today great_circle stops ccu total_miles =
       Returns l ->
     exists final, logs final = l /\ run fl today final init) /\
  FSim.generate_eld_logs_with_stops exact today great_circle stops ccu total_miles =
    generate_eld_logs_with_stops today great_circle stops ccu total_miles /\
  (ccu < 70 ->
   exists l,
     generate_eld_logs_with_stops today great_circle stops ccu total_miles = Returns l).
Proof.
  split; [| split].
  - intros l E. unfold FSim.generate_eld_logs_with_stops in E.
    destruct (Qle_bool _ 0); [discriminate |].
    destruct (FSim.visit_all fl today great_circle total_miles (List.length stops) None
                stops init) as [final |] eqn:V; [| discriminate].
    injection E as <-. exists final. split; [reflexivity |].
    eapply visit_all_run. exact V.
  - apply exact_generate.
  - intros H. destruct (generate_returns today great_circle stops ccu total_miles H)
      as [st [_ E]]. eexists. exact E.
Qed.

End RestBreak.

(** The 1050-mile run of the basic itinerary with nothing rounded away:
    eleven hours and ten hours are driven, each with the rest behind
    it.  And the 400-mile run on sums that come out short: the counter
    reads less than eight after the eight hours, and no rest is
    logged. *)
Lemma rest_break_follows_driving_witness :
  (exists l final,
     FSim.generate_eld_logs_with_stops exact 0 no_great_circle basic_stops 0 1050 =
       Returns l /\
     logs final = l /\ run exact 0 final init /\
     map (fun r => map ev_type (log_events r)) l =
       [[of_stop pickup]; [driving; on_duty]; [driving; on_duty]; [of_stop dropoff]]) /\
  (exists l final,
     FSim.generate_eld_logs_with_stops short_sums 0 no_great_circle basic_stops 0 400 =
       Returns l /\
     logs final = l /\ run short_sums 0 final init /\
     map (fun r => map ev_type (log_events r)) l =
       [[of_stop pickup]; [driving]; [of_stop dropoff]]).
Proof.
  split.
  - destruct (rest_break_follows_driving exact 0 no_great_circle basic_stops 0 1050)
      as [H _].
    eexists. destruct (H _ eq_refl) as [final [E R]].
    exists final. split; [reflexivity |]. split; [exact E |]. split; [exact R |].
    vm_compute. reflexivity.
  - destruct (rest_break_follows_driving short_sums 0 no_great_circle basic_stops 0 400)
      as [H _].
    eexists. destruct (H _ eq_refl) as [final [E R]].
    exists final. split; [reflexivity |]. split; [exact E |]. split; [exact R |].
    vm_compute. reflexivity.
Defined.

(** ** Determinism and the calendar *)

(** C9, refuted.  The same trip, the same stub responses, the same
    stops: a run on day 0 and a run on day 1 return different logs. *)
Lemma logs_differ_from_day_to_day :
  exists stops l0 l1,
    plan_and_log stub_geocode stub_no_poi 0 stub_great_circle
                 sample_trip 550 (Some sample_route) tt = (Ok (stops, Returns l0), tt) /\
    plan_and_log stub_geocode stub_no_poi 1 stub_great_circle
                 sample_trip 550 (Some sample_route) tt = (Ok (stops, Returns l1), tt) /\
    l0 <> l1.
Proof.
  eexists _, _, _. split; [vm_compute; reflexivity |].
  split; [vm_compute; reflexivity |].
  discriminate.
Qed.

Section Calendar.

Variable today : Z.
Variable today' : Z.
Variable great_circle : Coord -> Coord -> Q.

Lemma roll_day_redate (st : State) :
  roll_day today (redate_state today st) = redate_state today (roll_day today' st).
Proof.
  unfold roll_day, redate_state. cbn [daily_drive_hours current_hour day odometer logs].
  destruct (Qle_bool 11 _ || Qle_bool 14 _); [| reflexivity].
  cbn [daily_drive_hours current_hour day odometer logs].
  rewrite map_app. reflexivity.
Qed.

Lemma drive_step_redate (prev stop : Stop) (dh : Q) (st : State) :
  drive_step today prev stop dh (redate_state today st) =
  (fst (drive_step today' prev stop dh st),
   redate_state today (snd (drive_step today' prev stop dh st))).
Proof.
  rewrite !drive_step_eq. cbn zeta. rewrite roll_day_redate.
  destruct (roll_day today' st) as [d h o dd l].
  unfold redate_state. cbn [fst snd daily_drive_hours current_hour day odometer logs].
  rewrite map_app. reflexivity.
Qed.

Lemma drive_loop_redate (prev stop : Stop) (n : nat) :
  forall dh st,
    drive_loop today n prev stop dh (redate_state today st) =
    option_map (redate_state today) (drive_loop today' n prev stop dh st).
Proof.
  induction n as [| n IH]; intros dh st.
  - cbn [drive_loop]. destruct (Qlt_bool 0 dh); reflexivity.
  - rewrite !drive_loop_S. destruct (Qlt_bool 0 dh); [| reflexivity].
    rewrite drive_step_redate. cbn [fst snd]. apply IH.
Qed.

Lemma add_stop_event_redate (stop : Stop) (st : State) :
  add_stop_event today stop (redate_state today st) =
  redate_state today (add_stop_event today' stop st).
Proof.
  unfold add_stop_event, redate_state. cbn [daily_drive_hours current_hour day odometer logs].
  rewrite map_app. reflexivity.
Qed.

Lemma visit_all_redate (total_miles : Q) (k : nat) (todo : list Stop) :
  forall prev st,
    visit_all today great_circle total_miles k prev todo (redate_state today st) =
    option_map (redate_state today)
               (visit_all today' great_circle total_miles k prev todo st).
Proof.
  induction todo as [| stop todo IH]; intros prev st; cbn [visit_all]; [reflexivity |].
  unfold visit. destruct prev as [p |].
  - unfold drive_to. rewrite drive_loop_redate.
    destruct (drive_loop today' _ p stop _ st) as [st1 |]; cbn [option_map]; [| reflexivity].
    rewrite add_stop_event_redate. apply IH.
  - rewrite add_stop_event_redate. apply IH.
Qed.

Lemma generate_redate (stops : list Stop) (ccu total_miles : Q) :
  generate_eld_logs_with_stops today great_circle stops ccu total_miles =
  outcome_map (map (redate today))
    (generate_eld_logs_with_stops today' great_circle stops ccu total_miles).
Proof.
  unfold generate_eld_logs_with_stops.
  destruct (Qle_bool _ 0); [reflexivity |].
  change init with (redate_state today init) at 1.
  rewrite visit_all_redate.
  destruct (visit_all today' _ _ _ _ _ _); reflexivity.
Qed.

End Calendar.

(** ** Facts about the planner *)

Lemma consec_lower (l : list Z) :
  forall from, consec from l -> Forall (fun x => (from <= x)%Z) l.
Proof.
  induction l as [| x l IH]; intros from H; [constructor |].
  destruct H as [-> H]. constructor; [lia |].
  apply IH in H. eapply Forall_impl; [| exact H]. cbn. intros; lia.
Qed.

Lemma consec_sorted (l : list Z) :
  forall from, consec from l -> StronglySorted Z.lt l.
Proof.
  induction l as [| x l IH]; intros from H; [constructor |].
  destruct H as [-> H]. constructor; [now apply IH in H |].
  apply consec_lower in H. eapply Forall_impl; [| exact H]. cbn. intros; lia.
Qed.

Lemma consec_nodup (l : list Z) :
  forall from, consec from l -> NoDup l.
Proof.
  induction l as [| x l IH]; intros from H; [constructor |].
  destruct H as [-> H]. constructor; [| now apply IH in H].
  intros Hin. apply consec_lower in H.
  rewrite Forall_forall in H. apply H in Hin. lia.
Qed.

Lemma consec_app (l1 l2 : list Z) :
  forall from,
    consec from l1 -> consec (from + Z.of_nat (List.length l1)) l2 ->
    consec from (l1 ++ l2).
Proof.
  induction l1 as [| x l1 IH]; intros from H1 H2; cbn in *.
  - now rewrite Z.add_0_r in H2.
  - destruct H1 as [-> H1]. split; [reflexivity |].
    apply IH; [exact H1 |].
    replace (from + 1 + Z.of_nat (List.length l1))%Z
      with (from + Z.pos (Pos.of_succ_nat (List.length l1)))%Z by lia.
    exact H2.
Qed.

(** Sorting an itinerary that is already in order changes nothing. *)
Lemma sorted_by_sequence_id (l : list Stop) :
  StronglySorted Z.lt (map sequence l) -> Planner.sorted_by_sequence l = l.
Proof.
  induction l as [| s l IH]; intros H; [reflexivity |].
  cbn in H. inversion H as [| ? ? Hs Hall]; subst.
  cbn [Planner.sorted_by_sequence fold_right].
  change (fold_right Planner.insert_by_sequence [] l) with (Planner.sorted_by_sequence l).
  rewrite (IH Hs).
  destruct l as [| h l]; [reflexivity |].
  cbn [Planner.insert_by_sequence].
  inversion Hall as [| ? ? Hlt _]; subst.
  destruct (Z.leb_spec (sequence s) (sequence h)); [reflexivity | lia].
Qed.

Lemma py_range_length (lo hi : Z) : List.length (py_range lo hi) = Z.to_nat (hi - lo).
Proof. unfold py_range. now rewrite length_map, length_seq. Qed.

Lemma py_range_sorted (lo hi : Z) : StronglySorted Z.le (py_range lo hi).
Proof.
  unfold py_range. generalize (Z.to_nat (hi - lo)) as n. generalize 0%nat as s.
  intros s n. revert s.
  induction n as [| n IH]; intros s; cbn [seq map]; constructor; [apply IH |].
  apply Forall_forall. intros x Hx.
  apply in_map_iff in Hx. destruct Hx as [k [<- Hk]].
  apply in_seq in Hk. lia.
Qed.

(** With markers that grow with the index, leaving the loop at the
    first marker past the cut-off skips exactly the indices whose marker
    is past it. *)
Lemma leading_filter (marker : Z -> Q) (cutoff total_miles : Q) :
  (forall i j, (i <= j)%Z -> marker i <= marker j) ->
  forall indices,
    StronglySorted Z.le indices ->
    (leading marker cutoff total_miles indices +
     List.length (filter (fun i => Qle_bool (total_miles * cutoff) (marker i)) indices))%nat =
    List.length indices.
Proof.
  intros Hm indices. induction indices as [| i indices IH]; intros Hs; [reflexivity |].
  inversion Hs as [| ? ? Hs' Hall]; subst.
  cbn [leading filter]. destruct (Qle_bool (total_miles * cutoff) (marker i)) eqn:E.
  - cbn [List.length Nat.add]. f_equal.
    f_equal. apply forallb_filter_id. apply forallb_forall. intros j Hj.
    rewrite Forall_forall in Hall. apply Hall in Hj.
    apply Qle_bool_iff. apply Qle_bool_iff in E.
    eapply Qle_trans; [exact E | now apply Hm].
  - cbn [List.length Nat.add]. f_equal. now apply IH.
Qed.

Lemma fuel_marker_mono (i j : Z) :
  (i <= j)%Z -> Planner.fuel_marker i <= Planner.fuel_marker j.
Proof.
  intros H. unfold Planner.fuel_marker, FUEL_INTERVAL.
  rewrite Zle_Qle in H. lra.
Qed.

Lemma count_stops_app (ty : StopType) (l1 l2 : list Stop) :
  count_stops ty (l1 ++ l2) = (count_stops ty l1 + count_stops ty l2)%nat.
Proof. unfold count_stops. now rewrite filter_app, length_app. Qed.

Lemma count_stops_all (ty : StopType) (l : list Stop) :
  Forall (fun s => stop_type s = ty) l -> count_stops ty l = List.length l.
Proof.
  induction 1 as [| s l Hs _ IH]; [reflexivity |].
  unfold count_stops in *. cbn [filter]. rewrite Hs.
  destruct ty; cbn [List.length]; now rewrite IH.
Qed.

Lemma count_stops_none (ty ty' : StopType) (l : list Stop) :
  ty <> ty' -> Forall (fun s => stop_type s = ty') l -> count_stops ty l = O.
Proof.
  intros N. induction 1 as [| s l Hs _ IH]; [reflexivity |].
  unfold count_stops in *. cbn [filter]. rewrite Hs.
  destruct ty, ty'; try contradiction; exact IH.
Qed.

Section PlannerFacts.

Variable World : Type.
Variable geocode_location : string -> Planner.M World Coord.
Variable find_poi_near_location :
  Coord -> list string -> Z -> Planner.M World (option PointOfInterest).

Lemma bind_ok {A B : Type} (c : Planner.M World A) (k : A -> Planner.M World B)
    (w w' : World) (b : B) :
  Planner.bind World c k w = (Ok b, w') ->
  exists a w1, c w = (Ok a, w1) /\ k a w1 = (Ok b, w').
Proof.
  unfold Planner.bind. destruct (c w) as [[a | e] w1]; [eauto | discriminate].
Qed.

Section Placing.

Variable marker : Z -> Q.
Variable cutoff : Q.
Variable keywords : list string.
Variable make : Z -> Q -> Coord -> option (PointOfInterest * Z) -> Z -> Stop.
Variable kind : StopType.
Variable total_miles : Q.
Variable route_coords : RouteGeometry.

Hypothesis make_sequence : forall i m c p s, sequence (make i m c p s) = s.
Hypothesis make_type : forall i m c p s, stop_type (make i m c p s) = kind.

Lemma place_stops_spec (indices : list Z) :
  forall seqno stops w r w',
    Planner.place_stops World find_poi_near_location marker cutoff keywords make
      total_miles route_coords indices seqno stops w = (Ok r, w') ->
    exists added,
      snd r = stops ++ added /\
      fst r = (seqno + Z.of_nat (List.length added))%Z /\
      consec seqno (map sequence added) /\
      Forall (fun s => stop_type s = kind) added /\
      List.length added = leading marker cutoff total_miles indices.
Proof.
  induction indices as [| i indices IH]; intros seqno stops w r w' H;
    cbn [Planner.place_stops leading] in *.
  - injection H as <- _. exists []. cbn. rewrite app_nil_r, Z.add_0_r.
    repeat split. constructor.
  - destruct (Qle_bool (total_miles * cutoff) (marker i)).
    + injection H as <- _. exists []. cbn. rewrite app_nil_r, Z.add_0_r.
      repeat split. constructor.
    + apply bind_ok in H. destruct H as [progress [w1 [_ H]]].
      apply bind_ok in H. destruct H as [coords [w2 [_ H]]].
      apply bind_ok in H. destruct H as [poi [w3 [_ H]]].
      apply IH in H. destruct H as [added [E1 [E2 [Hc [Ht Hn]]]]].
      exists (make i (marker i) coords poi seqno :: added).
      rewrite E1, E2, <- app_assoc. cbn [List.length map app].
      rewrite make_sequence, Hn.
      split; [reflexivity |]. split; [lia |].
      split; [split; [reflexivity | exact Hc] |].
      split; [| reflexivity].
      constructor; [apply make_type | exact Ht].
Qed.

End Placing.

Lemma itinerary_ok_intro (p d : Stop) (mid : list Stop) :
  stop_type p = pickup -> stop_type d = dropoff ->
  consec 1 (map sequence (p :: mid ++ [d])) ->
  itinerary_ok (p :: mid ++ [d]).
Proof.
  intros Hp Hd Hc. split; [discriminate |].
  split; [exists p, (mid ++ [d]); repeat split; [apply Hc | exact Hp] |].
  split; [exists (p :: mid), d; split; [reflexivity | exact Hd] |].
  split; [eapply consec_sorted | eapply consec_nodup]; exact Hc.
Qed.

(** What the [try:] block returns when it gets to its end. *)
Lemma calculate_stop_points_try_spec (t : Trip) (total_miles : Q)
    (route_geometry : option RouteGeometry) (w w' : World) (stops : list Stop) :
  Planner.calculate_stop_points_try World geocode_location find_poi_near_location
    t total_miles route_geometry w = (Ok stops, w') ->
  exists p fuels rests d,
    stops = p :: (fuels ++ rests) ++ [d] /\
    stop_type p = pickup /\ stop_type d = dropoff /\
    Forall (fun s => stop_type s = fuel) fuels /\
    Forall (fun s => stop_type s = rest) rests /\
    consec 1 (map sequence stops) /\
    List.length fuels =
      leading Planner.fuel_marker (95 # 100) total_miles
              (py_range 1 (Planner.fuel_needed total_miles + 1)) /\
    List.length rests =
      leading Planner.rest_marker (9 # 10) total_miles
              (py_range 1 (py_floordiv (total_miles / AVERAGE_SPEED) REST_BREAK_INTERVAL + 1)).
Proof.
  unfold Planner.calculate_stop_points_try.
  destruct route_geometry as [route_coords |]; [| discriminate].
  destruct (Z.of_nat (List.length route_coords) <? 2)%Z; [discriminate |].
  intros H.
  apply bind_ok in H. destruct H as [pc [w1 [_ H]]].
  apply bind_ok in H. destruct H as [placed [w2 [Hf H]]].
  apply bind_ok in H. destruct H as [placed' [w3 [Hr H]]].
  apply bind_ok in H. destruct H as [dc [w4 [_ H]]].
  injection H as H _.
  unfold Planner.place_fuel_stops in Hf. unfold Planner.place_rest_stops in Hr.
  apply (place_stops_spec _ _ _ _ fuel) in Hf; [| reflexivity | reflexivity].
  apply (place_stops_spec _ _ _ _ rest) in Hr; [| reflexivity | reflexivity].
  destruct Hf as [fuels [F1 [F2 [F3 [F4 F5]]]]].
  destruct Hr as [rests [R1 [R2 [R3 [R4 R5]]]]].
  rewrite R1, F1, R2, F2 in H.
  match type of H with
  | Planner.sorted_by_sequence ((([?p] ++ _) ++ _) ++ [?d]) = _ =>
      change ((([p] ++ fuels) ++ rests) ++ [d]) with (p :: (fuels ++ rests) ++ [d]) in H;
      exists p, fuels, rests, d
  end.
  match type of H with
  | Planner.sorted_by_sequence ?l = _ =>
      assert (Hc : consec 1 (map sequence l))
  end.
  { cbn [map sequence]. split; [reflexivity |].
    rewrite !map_app. cbn [map sequence].
    apply consec_app; [apply consec_app |].
    - exact F3.
    - rewrite length_map. rewrite F2 in R3. exact R3.
    - rewrite length_app, !length_map. cbn [consec]. split; [lia | exact I]. }
  rewrite sorted_by_sequence_id in H by (eapply consec_sorted; exact Hc).
  subst stops.
  split; [reflexivity |]. split; [reflexivity |]. split; [reflexivity |].
  split; [exact F4 |]. split; [exact R4 |]. split; [exact Hc |].
  split; [exact F5 | exact R5].
Qed.

Lemma calculate_stop_points_except_ok (t : Trip) (w w' : World) (stops : list Stop) :
  Planner.calculate_stop_points_except World geocode_location t w = (Ok stops, w') ->
  itinerary_ok stops.
Proof.
  unfold Planner.calculate_stop_points_except. intros H.
  apply bind_ok in H. destruct H as [pc [w1 [_ H]]].
  apply bind_ok in H. destruct H as [dc [w2 [_ H]]].
  injection H as <- _.
  apply (itinerary_ok_intro _ _ []); cbn; auto.
Qed.

(** Whatever the handler returns, with whatever geocoder: the pickup,
    then the dropoff, neither with the [is_fallback] key. *)
Lemma calculate_stop_points_except_unflagged (t : Trip) (w w' : World) (stops : list Stop) :
  Planner.calculate_stop_points_except World geocode_location t w = (Ok stops, w') ->
  map stop_type stops = [pickup; dropoff] /\
  map (fun s => is_fallback (metadata s)) stops = [None; None].
Proof.
  unfold Planner.calculate_stop_points_except. intros H.
  apply bind_ok in H. destruct H as [pc [w1 [_ H]]].
  apply bind_ok in H. destruct H as [dc [w2 [_ H]]].
  injection H as <- _. split; reflexivity.
Qed.

Lemma calculate_stop_points_ok (t : Trip) (total_miles : Q)
    (route_geometry : option RouteGeometry) (w w' : World) (stops : list Stop) :
  Planner.calculate_stop_points World geocode_location find_poi_near_location
    t total_miles route_geometry w = (Ok stops, w') ->
  itinerary_ok stops.
Proof.
  unfold Planner.calculate_stop_points, Planner.try_except.
  destruct (Planner.calculate_stop_points_try _ _ _ _ _ _ w) as [[l | e] w1] eqn:E.
  - intros [= <- _]. apply calculate_stop_points_try_spec in E.
    destruct E as [p [fuels [rests [d [-> [Hp [Hd [_ [_ [Hc _]]]]]]]]]].
    now apply itinerary_ok_intro.
  - apply calculate_stop_points_except_ok.
Qed.

Lemma create_basic_trip_stops_ok (t : Trip) :
  itinerary_ok (Planner.create_basic_trip_stops t).
Proof. apply (itinerary_ok_intro _ _ []); cbn; auto. Qed.

(** The wrapper of views.py always returns a list. *)
Lemma calculate_stops_with_fallback_ok (t : Trip) (total_miles : Q)
    (route_geometry : option RouteGeometry) (w : World) :
  exists stops w',
    Planner.calculate_stops_with_fallback World geocode_location find_poi_near_location
      t total_miles route_geometry w = (Ok stops, w') /\
    itinerary_ok stops.
Proof.
  unfold Planner.calculate_stops_with_fallback, Planner.try_except, Planner.bind.
  destruct (Planner.calculate_stop_points _ _ _ _ _ _ w) as [[l | e] w1] eqn:E.
  - destruct (List.length l <? 2)%nat; cbn.
    + eexists _, _. split; [reflexivity | apply create_basic_trip_stops_ok].
    + eexists _, _. split; [reflexivity |].
      eapply calculate_stop_points_ok. exact E.
  - eexists _, _. split; [reflexivity | apply create_basic_trip_stops_ok].
Qed.

(** C6.  Whatever the trip, the mileage, the route geometry and the
    behaviour of the providers, the planner behind its fallback wrapper
    returns a list, and that list is not empty, is numbered upwards from
    1 without repeats, starts with the pickup and ends with the dropoff;
    the same holds of every list [calculate_stop_points] itself
    returns, its own fallback included. *)
Theorem planned_stops_well_formed (t : Trip) (total_miles : Q)
    (route_geometry : option RouteGeometry) (w : World) :
  (exists stops w',
     Planner.calculate_stops_with_fallback World geocode_location find_poi_near_location
       t total_miles route_geometry w = (Ok stops, w') /\
     itinerary_ok stops) /\
  (forall stops w',
     Planner.calculate_stop_points World geocode_location find_poi_near_location
       t total_miles route_geometry w = (Ok stops, w') ->
     itinerary_ok stops).
Proof.
  split; [apply calculate_stops_with_fallback_ok |].
  intros stops w'. apply calculate_stop_points_ok.
Qed.

(** The [try:] block does get to its end when the route has two points
    or more and neither provider raises. *)
Lemma search_ladder_returns (coords : Coord) (keywords : list string) (radii : list Z) :
  (forall c k r w, exists p w', find_poi_near_location c k r w = (Ok p, w')) ->
  forall w, exists p w',
    Planner.search_ladder World find_poi_near_location coords keywords radii w = (Ok p, w').
Proof.
  intros Hp. induction radii as [| r radii IH]; intros w; cbn [Planner.search_ladder].
  - eexists _, _. reflexivity.
  - unfold Planner.bind. destruct (Hp coords keywords r w) as [p [w1 E]]. rewrite E.
    destruct p as [p |]; [eexists _, _; reflexivity | apply IH].
Qed.

Lemma interpolate_returns (route_coords : RouteGeometry) (progress : Q) (w : World) :
  (2 <= List.length route_coords)%nat ->
  exists c, Planner.interpolate World route_coords progress w = (Ok c, w).
Proof.
  intros H. unfold Planner.interpolate, Planner.interpolate_at.
  destruct (nth_error route_coords _) as [[lon lat] |] eqn:E; [eexists; reflexivity |].
  apply nth_error_None in E. unfold Planner.idx_of_product in E. lia.
Qed.

Lemma place_stops_returns (marker : Z -> Q) (cutoff : Q) (keywords : list string)
    (make : Z -> Q -> Coord -> option (PointOfInterest * Z) -> Z -> Stop)
    (total_miles : Q) (route_coords : RouteGeometry) (indices : list Z) :
  (2 <= List.length route_coords)%nat ->
  (forall c k r w, exists p w', find_poi_near_location c k r w = (Ok p, w')) ->
  0 < cutoff -> Forall (fun i => 0 < marker i) indices ->
  forall seqno stops w, exists r w',
    Planner.place_stops World find_poi_near_location marker cutoff keywords make
      total_miles route_coords indices seqno stops w = (Ok r, w').
Proof.
  intros Hlen Hp Hc Hm. induction Hm as [| i indices Hi _ IH]; intros seqno stops w;
    cbn [Planner.place_stops].
  - eexists _, _. reflexivity.
  - destruct (Qle_bool (total_miles * cutoff) (marker i)) eqn:E;
      [eexists _, _; reflexivity |].
    apply Qle_bool_false in E.
    unfold Planner.bind at 1. unfold Planner.py_div.
    destruct (Qeq_bool total_miles 0) eqn:Z0.
    + apply Qeq_bool_iff in Z0. rewrite Z0 in E. lra.
    + unfold Planner.ret at 1. unfold Planner.bind at 1.
      destruct (interpolate_returns route_coords (marker i / total_miles) w Hlen) as [c Ec].
      rewrite Ec. unfold Planner.bind at 1.
      destruct (search_ladder_returns c keywords [10; 20; 40]%Z Hp w) as [p [w1 Es]].
      rewrite Es. apply IH.
Qed.

Lemma py_range_lower (lo hi : Z) : Forall (fun i => (lo <= i)%Z) (py_range lo hi).
Proof.
  unfold py_range. apply Forall_forall. intros x Hx.
  apply in_map_iff in Hx. destruct Hx as [k [<- _]]. lia.
Qed.

Lemma calculate_stop_points_try_returns (t : Trip) (total_miles : Q)
    (route_coords : RouteGeometry) (w : World) :
  (2 <= List.length route_coords)%nat ->
  (forall a w, exists c w', geocode_location a w = (Ok c, w')) ->
  (forall c k r w, exists p w', find_poi_near_location c k r w = (Ok p, w')) ->
  exists stops w',
    Planner.calculate_stop_points_try World geocode_location find_poi_near_location
      t total_miles (Some route_coords) w = (Ok stops, w').
Proof.
  intros Hlen Hg Hp. unfold Planner.calculate_stop_points_try.
  destruct (Z.ltb_spec (Z.of_nat (List.length route_coords)) 2); [lia |].
  unfold Planner.bind at 1.
  destruct (Hg (pickup_location t) w) as [pc [w1 E1]]. rewrite E1.
  unfold Planner.bind at 1. unfold Planner.place_fuel_stops.
  match goal with
  | |- context [Planner.place_stops _ _ ?m ?c ?k ?mk ?tm ?rc ?ids ?s ?st w1] =>
      destruct (place_stops_returns m c k mk tm rc ids Hlen Hp) with (seqno := s)
        (stops := st) (w := w1) as [placed [w2 E2]]
  end.
  { reflexivity. }
  { eapply Forall_impl; [| apply py_range_lower]. cbn. intros i Hi.
    unfold Planner.fuel_marker, FUEL_INTERVAL.
    rewrite Zle_Qle in Hi. change (inject_Z 1) with 1 in Hi. lra. }
  rewrite E2. unfold Planner.bind at 1. unfold Planner.place_rest_stops.
  match goal with
  | |- context [Planner.place_stops _ _ ?m ?c ?k ?mk ?tm ?rc ?ids ?s ?st w2] =>
      destruct (place_stops_returns m c k mk tm rc ids Hlen Hp) with (seqno := s)
        (stops := st) (w := w2) as [placed' [w3 E3]]
  end.
  { reflexivity. }
  { eapply Forall_impl; [| apply py_range_lower]. cbn. intros i Hi.
    unfold Planner.rest_marker, REST_BREAK_INTERVAL, AVERAGE_SPEED.
    rewrite Zle_Qle in Hi. change (inject_Z 1) with 1 in Hi. lra. }
  rewrite E3. unfold Planner.bind at 1.
  destruct (Hg (dropoff_location t) w3) as [dc [w4 E4]]. rewrite E4.
  eexists _, _. reflexivity.
Qed.

(** C7.  When the [try:] block gets to its end, on a mileage that is
    not negative, the fuel stops in the list it returns number
    [floor(total_miles / 1000)] less the indices [i] from 1 to that
    floor whose mile marker [i * 1000] is at or past
    [0.95 * total_miles]. *)
Theorem fuel_stop_count (t : Trip) (total_miles : Q)
    (route_geometry : option RouteGeometry) (w w' : World) (stops : list Stop) :
  0 <= total_miles ->
  Planner.calculate_stop_points_try World geocode_location find_poi_near_location
    t total_miles route_geometry w = (Ok stops, w') ->
  Z.of_nat (count_stops fuel stops) =
  (Qfloor (total_miles / 1000) -
   Z.of_nat (List.length
               (filter (fun i => Qle_bool (total_miles * (95 # 100)) (inject_Z i * 1000))
                       (py_range 1 (Qfloor (total_miles / 1000) + 1)))))%Z.
Proof.
  intros Hpos H. apply calculate_stop_points_try_spec in H.
  destruct H as [p [fuels [rests [d [-> [Hp [Hd [Hf [Hr [_ [Hn _]]]]]]]]]]].
  change (p :: (fuels ++ rests) ++ [d]) with ([p] ++ (fuels ++ rests) ++ [d]).
  rewrite !count_stops_app.
  rewrite (count_stops_none fuel pickup [p]) by (try discriminate; now repeat constructor).
  rewrite (count_stops_none fuel dropoff [d]) by (try discriminate; now repeat constructor).
  rewrite (count_stops_none fuel rest rests) by (try discriminate; assumption).
  rewrite (count_stops_all fuel fuels Hf), Hn.
  pose proof (leading_filter Planner.fuel_marker (95 # 100) total_miles fuel_marker_mono
                (py_range 1 (Planner.fuel_needed total_miles + 1))
                (py_range_sorted _ _)) as L.
  rewrite py_range_length in L.
  unfold Planner.fuel_needed, py_floordiv, Planner.fuel_marker, FUEL_INTERVAL in *.
  assert (0 <= Qfloor (total_miles / 1000))%Z.
  { change 0%Z with (Qfloor 0). apply Qfloor_resp_le.
    unfold Qdiv. change (/ 1000) with (1 # 1000). lra. }
  lia.
Qed.

End PlannerFacts.

(** 1200 miles over the sample route: one fuel stop and two rest stops
    between the pickup and the dropoff. *)
Example plan_for_1200_miles :
  exists stops,
    Planner.calculate_stop_points unit stub_geocode stub_no_poi
      sample_trip 1200 (Some sample_route) tt = (Ok stops, tt) /\
    map stop_type stops = [pickup; fuel; rest; rest; dropoff] /\
    map sequence stops = [1; 2; 3; 4; 5]%Z.
Proof. eexists. split; [vm_compute; reflexivity |]. split; reflexivity. Qed.

(** The theorem at that plan. *)
Lemma planned_stops_well_formed_witness :
  exists stops,
    Planner.calculate_stop_points unit stub_geocode stub_no_poi
      sample_trip 1200 (Some sample_route) tt = (Ok stops, tt) /\
    itinerary_ok stops.
Proof.
  eexists. split; [vm_compute; reflexivity |].
  apply (proj2 (planned_stops_well_formed unit stub_geocode stub_no_poi
                  sample_trip 1200 (Some sample_route) tt) _ tt).
  vm_compute. reflexivity.
Defined.

(** The theorem at that plan: one fuel stop. *)
Lemma fuel_stop_count_witness :
  0 <= 1200 /\
  exists stops,
    Planner.calculate_stop_points_try unit stub_geocode stub_no_poi
      sample_trip 1200 (Some sample_route) tt = (Ok stops, tt) /\
    Z.of_nat (count_stops fuel stops) = 1%Z /\
    Z.of_nat (count_stops fuel stops) =
    (Qfloor (1200 / 1000) -
     Z.of_nat (List.length
                 (filter (fun i => Qle_bool (1200 * (95 # 100)) (inject_Z i * 1000))
                         (py_range 1 (Qfloor (1200 / 1000) + 1)))))%Z.
Proof.
  assert (H : 0 <= 1200) by discriminate.
  split; [exact H |].
  eexists. split; [vm_compute; reflexivity |].
  split; [reflexivity |].
  apply (fuel_stop_count unit stub_geocode stub_no_poi sample_trip 1200
           (Some sample_route) tt tt _ H).
  vm_compute. reflexivity.
Defined.

(** ** Interpolation along the route *)

Lemma py_int_nonneg (q : Q) : 0 <= q -> py_int q = Qfloor q.
Proof.
  intros H. unfold py_int, Qfloor. destruct q as [n d]. cbn [Qnum Qden].
  apply Z.quot_div_nonneg; [| lia].
  unfold Qle in H. cbn in H. lia.
Qed.

Lemma py_int_negative (q : Q) : q < 0 -> (py_int q <= 0 /\ Qfloor q < 0)%Z.
Proof.
  intros H. unfold py_int, Qfloor. destruct q as [n d]. cbn [Qnum Qden].
  unfold Qlt in H. cbn in H.
  split.
  - replace n with (- - n)%Z by lia. rewrite Z.quot_opp_l by lia.
    pose proof (Z.quot_pos (- n) (Z.pos d)). lia.
  - apply Z.div_lt_upper_bound; lia.
Qed.

Lemma idx_of_product_floor (product : Q) (len : Z) :
  (3 <= len)%Z ->
  Planner.idx_of_product product len = clamp (Qfloor product) 1 (len - 2).
Proof.
  intros H. unfold Planner.idx_of_product, clamp.
  destruct (Qlt_le_dec product 0) as [N | P].
  - apply py_int_negative in N. lia.
  - now rewrite py_int_nonneg.
Qed.

(** C4, refuted.  A quarter of the way along seven points the code
    picks index 1, where rounding 1.75 would give 2; and on a route of
    two points it returns the second one, the route's far end. *)
Lemma interpolation_truncates_and_reaches_the_end :
  (Planner.interpolate_index (1 # 4) 7 = 1%Z /\
   clamp (round_half_even ((1 # 4) * 7)) 1 (7 - 2) = 2%Z) /\
  (let route := [(-90, 38); (-97, 32)] in
   Planner.interpolate unit route (1 # 2) tt = (Ok (32, -97), tt) /\
   nth_error route (List.length route - 1) = Some (-97, 32)).
Proof. repeat split. Qed.

(** C4, as the code has it.  On a route of three points or more, and
    whatever number the product [progress * len(route)] comes out as,
    the index is the floor of that number clamped to
    [1 .. len(route) - 2]: [int()] cuts the fraction off and nothing is
    rounded.  So the index is neither the first nor the last one, and
    the point returned is the route's point at that index, latitude
    first. *)
Theorem interpolate_interior (World : Type) (route : RouteGeometry) (product : Q)
    (w : World) :
  (3 <= List.length route)%nat ->
  let len := Z.of_nat (List.length route) in
  let idx := Planner.idx_of_product product len in
  idx = clamp (Qfloor product) 1 (len - 2) /\
  (1 <= idx <= len - 2)%Z /\
  (exists lon lat,
     nth_error route (Z.to_nat idx) = Some (lon, lat) /\
     Planner.interpolate_at World route product w = (Ok (lat, lon), w)) /\
  (forall progress,
     Planner.interpolate World route progress =
     Planner.interpolate_at World route (progress * inject_Z len)).
Proof.
  intros H len idx.
  assert (H3 : (3 <= len)%Z) by (subst len; lia).
  assert (Hi : (1 <= idx <= len - 2)%Z).
  { subst idx. unfold Planner.idx_of_product. lia. }
  split; [now apply idx_of_product_floor |].
  split; [exact Hi |].
  split; [| reflexivity].
  unfold Planner.interpolate_at. fold len. fold idx.
  destruct (nth_error route (Z.to_nat idx)) as [[lon lat] |] eqn:E.
  - exists lon, lat. split; reflexivity.
  - apply nth_error_None in E. subst len. lia.
Qed.

(** On the five points of the sample route, for the product 2.5 of a
    half and for 3.9999, which is not rounded up to 4. *)
Lemma interpolate_interior_witness :
  (3 <= List.length sample_route)%nat /\
  Planner.idx_of_product (5 # 2) 5 = 2%Z /\
  Planner.idx_of_product (39999 # 10000) 5 = clamp (Qfloor (39999 # 10000)) 1 (5 - 2) /\
  (1 <= Planner.idx_of_product (39999 # 10000) 5 <= 5 - 2)%Z /\
  (exists lon lat,
     nth_error sample_route (Z.to_nat (Planner.idx_of_product (39999 # 10000) 5)) =
       Some (lon, lat) /\
     Planner.interpolate_at unit sample_route (39999 # 10000) tt = (Ok (lat, lon), tt)).
Proof.
  assert (H : (3 <= List.length sample_route)%nat) by (cbn; lia).
  split; [exact H |].
  split; [reflexivity |].
  pose proof (interpolate_interior unit sample_route (39999 # 10000) tt H) as T.
  cbv zeta in T. destruct T as [T1 [T2 [T3 _]]].
  split; [exact T1 |]. split; [exact T2 | exact T3].
Defined.

(** ** The planner's own fallback *)

(** C2.  With no route geometry the [try:] block raises at once and the
    handler answers; with a working geocoder it returns the pickup and
    the dropoff, numbered 1 and 2, each with its coordinates and without
    the [is_fallback] key - unlike the two stops of
    [create_basic_trip_stops], which carry [is_fallback = true]. *)
Theorem planner_fallback_stops_are_not_flagged :
  exists p d,
    Planner.calculate_stop_points unit stub_geocode stub_no_poi
      sample_trip 550 None tt = (Ok [p; d], tt) /\
    Planner.calculate_stops_with_fallback unit stub_geocode stub_no_poi
      sample_trip 550 None tt = (Ok [p; d], tt) /\
    stop_type p = pickup /\ stop_type d = dropoff /\
    sequence p = 1%Z /\ sequence d = 2%Z /\
    is_fallback (metadata p) = None /\ is_fallback (metadata d) = None /\
    map (fun s => is_fallback (metadata s)) (Planner.create_basic_trip_stops sample_trip) =
      [Some true; Some true].
Proof. eexists _, _. repeat split. Qed.

(** ** Two runs of the pipeline *)

(** C9, as the code has it.  With the same providers in the same state,
    a run on day [today] and a run on day [today'] return the same
    stops and leave the providers in the same state, and their logs
    differ only in the date stamped on each record, which is the day of
    the run plus the record's day number less one. *)
Theorem runs_agree_up_to_the_date (World : Type)
    (geocode_location : string -> Planner.M World Coord)
    (find_poi_near_location : Coord -> list string -> Z -> Planner.M World (option PointOfInterest))
    (today today' : Z) (great_circle : Coord -> Coord -> Q)
    (t : Trip) (total_miles : Q) (route_geometry : option RouteGeometry) (w : World) :
  exists stops logs' w',
    plan_and_log geocode_location find_poi_near_location today' great_circle
                 t total_miles route_geometry w = (Ok (stops, logs'), w') /\
    plan_and_log geocode_location find_poi_near_location today great_circle
                 t total_miles route_geometry w =
      (Ok (stops, outcome_map (map (redate today)) logs'), w').
Proof.
  destruct (calculate_stops_with_fallback_ok World geocode_location find_poi_near_location
              t total_miles route_geometry w) as [stops [w' [E _]]].
  unfold plan_and_log, Planner.bind, Planner.ret. rewrite E.
  eexists _, _, _. split; [reflexivity |].
  now rewrite (generate_redate today today').
Qed.

(** * Further properties *)

(** ** The planner *)

Lemma rest_marker_mono (i j : Z) :
  (i <= j)%Z -> Planner.rest_marker i <= Planner.rest_marker j.
Proof.
  intros H. unfold Planner.rest_marker, REST_BREAK_INTERVAL, AVERAGE_SPEED.
  rewrite Zle_Qle in H. lra.
Qed.

Lemma strongly_sorted_app_lt (l1 l2 : list Z) (x y : Z) :
  StronglySorted Z.lt (l1 ++ l2) -> In x l1 -> In y l2 -> (x < y)%Z.
Proof.
  induction l1 as [| a l1 IH]; intros Hs Hx Hy; [contradiction |].
  cbn in Hs. inversion Hs as [| ? ? Hs' Hall]; subst.
  destruct Hx as [-> | Hx].
  - rewrite Forall_forall in Hall. apply Hall. apply in_or_app. now right.
  - now apply IH.
Qed.

Section PlannerMore.

Variable World : Type.
Variable geocode_location : string -> Planner.M World Coord.
Variable find_poi_near_location :
  Coord -> list string -> Z -> Planner.M World (option PointOfInterest).

(** X1.  When the [try:] block gets to its end, on a mileage that is
    not negative, the rest stops in the list it returns number
    [floor((total_miles / 50) / 8)] less the indices [i] from 1 to that
    floor whose break mile [i * 8 * 50] is at or past
    [0.9 * total_miles]. *)
Theorem rest_stop_count (t : Trip) (total_miles : Q)
    (route_geometry : option RouteGeometry) (w w' : World) (stops : list Stop) :
  0 <= total_miles ->
  Planner.calculate_stop_points_try World geocode_location find_poi_near_location
    t total_miles route_geometry w = (Ok stops, w') ->
  Z.of_nat (count_stops rest stops) =
  (Qfloor (total_miles / 50 / 8) -
   Z.of_nat (List.length
               (filter (fun i => Qle_bool (total_miles * (9 # 10)) (inject_Z i * 8 * 50))
                       (py_range 1 (Qfloor (total_miles / 50 / 8) + 1)))))%Z.
Proof.
  intros Hpos H.
  apply (calculate_stop_points_try_spec World geocode_location find_poi_near_location) in H.
  destruct H as [p [fuels [rests [d [-> [Hp [Hd [Hf [Hr [_ [_ Hn]]]]]]]]]]].
  change (p :: (fuels ++ rests) ++ [d]) with ([p] ++ (fuels ++ rests) ++ [d]).
  rewrite !count_stops_app.
  rewrite (count_stops_none rest pickup [p]) by (try discriminate; now repeat constructor).
  rewrite (count_stops_none rest dropoff [d]) by (try discriminate; now repeat constructor).
  rewrite (count_stops_none rest fuel fuels) by (try discriminate; assumption).
  rewrite (count_stops_all rest rests Hr), Hn.
  pose proof (leading_filter Planner.rest_marker (9 # 10) total_miles rest_marker_mono
                (py_range 1 (py_floordiv (total_miles / AVERAGE_SPEED) REST_BREAK_INTERVAL + 1))
                (py_range_sorted _ _)) as L.
  rewrite py_range_length in L.
  unfold py_floordiv, Planner.rest_marker, REST_BREAK_INTERVAL, AVERAGE_SPEED in *.
  assert (0 <= Qfloor (total_miles / 50 / 8))%Z.
  { change 0%Z with (Qfloor 0). apply Qfloor_resp_le.
    unfold Qdiv. change (/ 50) with (1 # 50). change (/ 8) with (1 # 8). lra. }
  lia.
Qed.

Lemma search_ladder_spec (coords : Coord) (keywords : list string) (radii : list Z) :
  forall w w' r,
    Planner.search_ladder World find_poi_near_location coords keywords radii w = (Ok r, w') ->
    r = None \/ exists p radius, r = Some (p, radius) /\ In radius radii.
Proof.
  induction radii as [| radius radii IH]; intros w w' r H; cbn [Planner.search_ladder] in H.
  - injection H as <- _. now left.
  - apply bind_ok in H. destruct H as [poi [w1 [_ H]]].
    destruct poi as [p |].
    + injection H as <- _. right. exists p, radius. split; [reflexivity | now left].
    + apply IH in H. destruct H as [-> | [p [r0 [-> Hin]]]]; [now left |].
      right. exists p, r0. split; [reflexivity | now right].
Qed.

Lemma interpolate_spec (route_coords : RouteGeometry) (progress : Q) (w w' : World) (c : Coord) :
  Planner.interpolate World route_coords progress w = (Ok c, w') ->
  exists lon lat, In (lon, lat) route_coords /\ c = (lat, lon).
Proof.
  unfold Planner.interpolate, Planner.interpolate_at.
  destruct (nth_error route_coords _) as [[lon lat] |] eqn:E; [| discriminate].
  intros [= <- _]. exists lon, lat. split; [| reflexivity].
  eapply nth_error_In. exact E.
Qed.

(** A property of stops that each placed stop has holds of the whole
    list a placing loop returns. *)
Lemma place_stops_forall (ok : Stop -> Prop) (marker : Z -> Q) (cutoff : Q)
    (keywords : list string)
    (make : Z -> Q -> Coord -> option (PointOfInterest * Z) -> Z -> Stop)
    (total_miles : Q) (route_coords : RouteGeometry) :
  (forall i coords poi seqno,
     (exists lon lat, In (lon, lat) route_coords /\ coords = (lat, lon)) ->
     (poi = None \/ exists p radius, poi = Some (p, radius) /\ In radius [10; 20; 40]%Z) ->
     ok (make i (marker i) coords poi seqno)) ->
  forall indices seqno stops w r w',
    Forall ok stops ->
    Planner.place_stops World find_poi_near_location marker cutoff keywords make
      total_miles route_coords indices seqno stops w = (Ok r, w') ->
    Forall ok (snd r).
Proof.
  intros Hmake indices.
  induction indices as [| i indices IH]; intros seqno stops w r w' Hs H;
    cbn [Planner.place_stops] in H.
  - injection H as <- _. exact Hs.
  - destruct (Qle_bool (total_miles * cutoff) (marker i)).
    + injection H as <- _. exact Hs.
    + apply bind_ok in H. destruct H as [progress [w1 [_ H]]].
      apply bind_ok in H. destruct H as [coords [w2 [Hc H]]].
      apply bind_ok in H. destruct H as [poi [w3 [Hl H]]].
      apply interpolate_spec in Hc. apply search_ladder_spec in Hl.
      eapply IH; [| exact H].
      apply Forall_app. split; [exact Hs |].
      constructor; [now apply Hmake | constructor].
Qed.

Lemma insert_by_sequence_forall (ok : Stop -> Prop) (s : Stop) (l : list Stop) :
  ok s -> Forall ok l -> Forall ok (Planner.insert_by_sequence s l).
Proof.
  intros Hs Hl. induction Hl as [| h l Hh Hl IH]; cbn [Planner.insert_by_sequence].
  - now constructor.
  - destruct (sequence s <=? sequence h)%Z; repeat constructor; assumption.
Qed.

Lemma sorted_by_sequence_forall (ok : Stop -> Prop) (l : list Stop) :
  Forall ok l -> Forall ok (Planner.sorted_by_sequence l).
Proof.
  induction 1 as [| s l Hs Hl IH]; [constructor |].
  cbn. now apply insert_by_sequence_forall.
Qed.

Lemma fuel_stop_ok (t : Trip) (route_coords : RouteGeometry) (i : Z) (m : Q)
    (coords : Coord) (poi : option (PointOfInterest * Z)) (seqno : Z) :
  (exists lon lat, In (lon, lat) route_coords /\ coords = (lat, lon)) ->
  (poi = None \/ exists p radius, poi = Some (p, radius) /\ In radius [10; 20; 40]%Z) ->
  planned_ok t route_coords (Planner.fuel_stop t i m coords poi seqno).
Proof.
  intros Hc Hp. split; [reflexivity |]. split; [reflexivity |].
  cbn [stop_type Planner.fuel_stop]. unfold search_recorded. cbn.
  destruct Hp as [-> | [p [radius [-> Hin]]]].
  - left. repeat split.
    destruct Hc as [lon [lat [Hin ->]]]. exists lon, lat. auto.
  - right. split; [reflexivity |]. split; [exists radius; auto | eexists; reflexivity].
Qed.

Lemma rest_stop_ok (t : Trip) (route_coords : RouteGeometry) (i : Z) (m : Q)
    (coords : Coord) (poi : option (PointOfInterest * Z)) (seqno : Z) :
  (exists lon lat, In (lon, lat) route_coords /\ coords = (lat, lon)) ->
  (poi = None \/ exists p radius, poi = Some (p, radius) /\ In radius [10; 20; 40]%Z) ->
  planned_ok t route_coords (Planner.rest_stop t i m coords poi seqno).
Proof.
  intros Hc Hp. split; [reflexivity |]. split; [reflexivity |].
  cbn [stop_type Planner.rest_stop]. unfold search_recorded. cbn.
  destruct Hp as [-> | [p [radius [-> Hin]]]].
  - left. repeat split.
    destruct Hc as [lon [lat [Hin ->]]]. exists lon, lat. auto.
  - right. split; [reflexivity |]. split; [exists radius; auto | eexists; reflexivity].
Qed.

Lemma calculate_stop_points_try_planned (t : Trip) (total_miles : Q)
    (route_coords : RouteGeometry) (w w' : World) (stops : list Stop) :
  Planner.calculate_stop_points_try World geocode_location find_poi_near_location
    t total_miles (Some route_coords) w = (Ok stops, w') ->
  Forall (planned_ok t route_coords) stops.
Proof.
  unfold Planner.calculate_stop_points_try.
  destruct (Z.of_nat (List.length route_coords) <? 2)%Z; [discriminate |].
  intros H.
  apply bind_ok in H. destruct H as [pc [w1 [_ H]]].
  apply bind_ok in H. destruct H as [placed [w2 [Hf H]]].
  apply bind_ok in H. destruct H as [placed' [w3 [Hr H]]].
  apply bind_ok in H. destruct H as [dc [w4 [_ H]]].
  injection H as <- _.
  apply sorted_by_sequence_forall. apply Forall_app. split.
  - unfold Planner.place_rest_stops in Hr. unfold Planner.place_fuel_stops in Hf.
    refine (place_stops_forall (planned_ok t route_coords) _ _ _ _ _ _
              (fun i c p s Hc Hp => rest_stop_ok t route_coords i _ c p s Hc Hp)
              _ _ _ _ _ _ _ Hr).
    refine (place_stops_forall (planned_ok t route_coords) _ _ _ _ _ _
              (fun i c p s Hc Hp => fuel_stop_ok t route_coords i _ c p s Hc Hp)
              _ _ _ _ _ _ _ Hf).
    constructor; [| constructor].
    split; [reflexivity |]. split; [reflexivity |]. cbn. split; [reflexivity | eauto].
  - constructor; [| constructor].
    split; [reflexivity |]. split; [reflexivity |]. cbn. split; [reflexivity | eauto].
Qed.

(** X2.  In the list of a completed plan every fuel stop comes before
    every rest stop: the fuel stops are numbered right after the pickup
    and the rest stops after them, wherever their mile markers lie. *)
Theorem fuel_stops_precede_rest_stops (t : Trip) (total_miles : Q)
    (route_geometry : option RouteGeometry) (w w' : World) (stops : list Stop)
    (f r : Stop) :
  Planner.calculate_stop_points_try World geocode_location find_poi_near_location
    t total_miles route_geometry w = (Ok stops, w') ->
  In f stops -> In r stops -> stop_type f = fuel -> stop_type r = rest ->
  (sequence f < sequence r)%Z /\
  exists before between after, stops = before ++ f :: between ++ r :: after.
Proof.
  intros H Hf Hr Tf Tr.
  apply (calculate_stop_points_try_spec World geocode_location find_poi_near_location) in H.
  destruct H as [p [fuels [rests [d [-> [Hp [Hd [Ff [Fr [Hc _]]]]]]]]]].
  assert (Inf : In f fuels).
  { destruct Hf as [<- | Hf]; [congruence |].
    apply in_app_or in Hf. destruct Hf as [Hf | [<- | []]]; [| congruence].
    apply in_app_or in Hf. destruct Hf as [Hf | Hf]; [exact Hf |].
    rewrite Forall_forall in Fr. apply Fr in Hf. congruence. }
  assert (Inr : In r rests).
  { destruct Hr as [<- | Hr]; [congruence |].
    apply in_app_or in Hr. destruct Hr as [Hr | [<- | []]]; [| congruence].
    apply in_app_or in Hr. destruct Hr as [Hr | Hr]; [| exact Hr].
    rewrite Forall_forall in Ff. apply Ff in Hr. congruence. }
  split.
  - apply consec_sorted in Hc. cbn [map] in Hc.
    inversion Hc as [| ? ? Hs _]; subst.
    rewrite map_app, map_app, <- app_assoc in Hs.
    eapply strongly_sorted_app_lt; [exact Hs | now apply in_map |].
    apply in_or_app. left. now apply in_map.
  - apply in_split in Inf. destruct Inf as [f1 [f2 ->]].
    apply in_split in Inr. destruct Inr as [r1 [r2 ->]].
    exists (p :: f1), (f2 ++ r1), (r2 ++ [d]).
    cbn. now rewrite <- !app_assoc.
Qed.

Lemma calculate_stops_with_fallback_durations (t : Trip) (total_miles : Q)
    (route_geometry : option RouteGeometry) (w w' : World) (stops : list Stop) :
  Planner.calculate_stops_with_fallback World geocode_location find_poi_near_location
    t total_miles route_geometry w = (Ok stops, w') ->
  Forall (fun s => trip s = t /\ duration_minutes s = planned_duration (stop_type s)) stops.
Proof.
  assert (Hbasic : Forall (fun s => trip s = t /\
                             duration_minutes s = planned_duration (stop_type s))
                          (Planner.create_basic_trip_stops t)).
  { repeat constructor. }
  unfold Planner.calculate_stops_with_fallback, Planner.try_except, Planner.bind.
  destruct (Planner.calculate_stop_points _ _ _ _ _ _ w) as [[l | e] w1] eqn:E;
    [| intros [= <- _]; exact Hbasic].
  destruct (List.length l <? 2)%nat; cbn; intros [= <- _]; [exact Hbasic |].
  unfold Planner.calculate_stop_points, Planner.try_except in E.
  destruct (Planner.calculate_stop_points_try _ _ _ _ _ _ w) as [[l' | e] w2] eqn:E'.
  - injection E as <- _. destruct route_geometry as [route_coords |]; [| discriminate].
    apply calculate_stop_points_try_planned in E'.
    eapply Forall_impl; [| exact E']. intros s [H1 [H2 _]]. auto.
  - unfold Planner.calculate_stop_points_except in E.
    apply bind_ok in E. destruct E as [pc [w3 [_ E]]].
    apply bind_ok in E. destruct E as [dc [w4 [_ E]]].
    injection E as <- _. repeat constructor.
Qed.

(** X3.  Whatever path the planner takes - the completed plan, its own
    handler, or the basic stops of the wrapper - every stop it returns
    belongs to the trip and lasts 60 minutes when it is the pickup or
    the dropoff and 30 minutes when it is a fuel or a rest stop. *)
Theorem planned_stops_have_fixed_durations (t : Trip) (total_miles : Q)
    (route_geometry : option RouteGeometry) (w w' : World) (stops : list Stop) :
  Planner.calculate_stops_with_fallback World geocode_location find_poi_near_location
    t total_miles route_geometry w = (Ok stops, w') ->
  Forall (fun s => trip s = t /\ duration_minutes s = planned_duration (stop_type s)) stops.
Proof. apply calculate_stops_with_fallback_durations. Qed.

(** X4.  In a completed plan every fuel and rest stop records its
    search: flagged [is_fallback] with no radius, an empty address and
    the coordinates of a point of the route (latitude first) when no
    point of interest was found, and otherwise unflagged with the radius
    of the ladder - 10, 20 or 40 km - at which one was found; the pickup
    and the dropoff carry coordinates and no flag. *)
Theorem placed_stops_record_their_search (t : Trip) (total_miles : Q)
    (route_coords : RouteGeometry) (w w' : World) (stops : list Stop) :
  Planner.calculate_stop_points_try World geocode_location find_poi_near_location
    t total_miles (Some route_coords) w = (Ok stops, w') ->
  Forall (fun s =>
            match stop_type s with
            | fuel | rest => search_recorded route_coords s
            | pickup | dropoff =>
                is_fallback (metadata s) = None /\
                exists c, coordinates (metadata s) = Some c
            end) stops.
Proof.
  intros H. apply calculate_stop_points_try_planned in H.
  eapply Forall_impl; [| exact H]. intros s [_ [_ Hs]]. exact Hs.
Qed.

End PlannerMore.

(** X1 at 1200 miles: two rest stops. *)
Lemma rest_stop_count_witness :
  0 <= 1200 /\
  exists stops,
    Planner.calculate_stop_points_try unit stub_geocode stub_no_poi
      sample_trip 1200 (Some sample_route) tt = (Ok stops, tt) /\
    Z.of_nat (count_stops rest stops) = 2%Z /\
    Z.of_nat (count_stops rest stops) =
    (Qfloor (1200 / 50 / 8) -
     Z.of_nat (List.length
                 (filter (fun i => Qle_bool (1200 * (9 # 10)) (inject_Z i * 8 * 50))
                         (py_range 1 (Qfloor (1200 / 50 / 8) + 1)))))%Z.
Proof.
  assert (H : 0 <= 1200) by discriminate.
  split; [exact H |].
  eexists. split; [vm_compute; reflexivity |].
  split; [reflexivity |].
  apply (rest_stop_count unit stub_geocode stub_no_poi sample_trip 1200
           (Some sample_route) tt tt _ H).
  vm_compute. reflexivity.
Defined.

(** X2 at 1200 miles: the fuel stop at mile 1000 is numbered 2, the rest
    stop at mile 400 is numbered 3. *)
Lemma fuel_stops_precede_rest_stops_witness :
  exists stops f r,
    Planner.calculate_stop_points_try unit stub_geocode stub_no_poi
      sample_trip 1200 (Some sample_route) tt = (Ok stops, tt) /\
    In f stops /\ In r stops /\ stop_type f = fuel /\ stop_type r = rest /\
    estimated_mileage (metadata f) = Some 1000 /\
    purpose (metadata r) = Some "Mandatory rest break #1"%string /\
    (sequence f < sequence r)%Z.
Proof.
  eexists _, _, _. split; [vm_compute; reflexivity |].
  assert (Hf : stop_type (Planner.fuel_stop sample_trip 1 1000 (34, -95) None 2) = fuel)
    by reflexivity.
  assert (Hr : stop_type (Planner.rest_stop sample_trip 1 400 (37, -92) None 3) = rest)
    by reflexivity.
  split; [right; left; reflexivity |].
  split; [right; right; left; reflexivity |].
  split; [exact Hf |]. split; [exact Hr |].
  split; [reflexivity |]. split; [reflexivity |].
  refine (proj1 (fuel_stops_precede_rest_stops unit stub_geocode stub_no_poi
                   sample_trip 1200 (Some sample_route) tt tt _ _ _ _ _ _ Hf Hr)).
  - vm_compute. reflexivity.
  - right; left; reflexivity.
  - right; right; left; reflexivity.
Defined.

(** X3 and X4 at the same plan. *)
Lemma planned_stops_have_fixed_durations_witness :
  exists stops,
    Planner.calculate_stops_with_fallback unit stub_geocode stub_no_poi
      sample_trip 1200 (Some sample_route) tt = (Ok stops, tt) /\
    map duration_minutes stops = [60; 30; 30; 30; 60]%Z /\
    Forall (fun s => trip s = sample_trip /\
                     duration_minutes s = planned_duration (stop_type s)) stops.
Proof.
  eexists. split; [vm_compute; reflexivity |]. split; [reflexivity |].
  apply (planned_stops_have_fixed_durations unit stub_geocode stub_no_poi
           sample_trip 1200 (Some sample_route) tt tt).
  vm_compute. reflexivity.
Defined.

Lemma placed_stops_record_their_search_witness :
  exists stops,
    Planner.calculate_stop_points_try unit stub_geocode stub_no_poi
      sample_trip 1200 (Some sample_route) tt = (Ok stops, tt) /\
    Forall (fun s =>
              match stop_type s with
              | fuel | rest => search_recorded sample_route s
              | pickup | dropoff =>
                  is_fallback (metadata s) = None /\
                  exists c, coordinates (metadata s) = Some c
              end) stops.
Proof.
  eexists. split; [vm_compute; reflexivity |].
  apply (placed_stops_record_their_search unit stub_geocode stub_no_poi
           sample_trip 1200 sample_route tt tt).
  vm_compute. reflexivity.
Defined.

(** ** The simulator *)

Lemma logged_stops_snoc (l : list LogDay) (r : LogDay) :
  logged_stops (l ++ [r]) = logged_stops l ++ flat_map stop_of_event (log_events r).
Proof. unfold logged_stops. rewrite flat_map_app. cbn. now rewrite app_nil_r. Qed.

Section SimulatorMore.

Variable today : Z.
Variable great_circle : Coord -> Coord -> Q.

Lemma drive_step_logged (prev stop : Stop) (dh : Q) (st : State) :
  logged_stops (logs (snd (drive_step today prev stop dh st))) = logged_stops (logs st).
Proof.
  rewrite drive_step_eq. cbn zeta. cbn [snd logs]. rewrite logged_stops_snoc.
  cbn [log_events].
  assert (E : logged_stops (logs (roll_day today st)) = logged_stops (logs st)).
  { destruct (roll_day_cases today st) as [[_ [_ E]] | [_ E]]; rewrite E; [reflexivity |].
    cbn [logs]. rewrite logged_stops_snoc. cbn. now rewrite app_nil_r. }
  rewrite E. destruct (Qle_bool 8 _); cbn; now rewrite app_nil_r.
Qed.

Lemma drive_loop_logged (prev stop : Stop) (n : nat) (dh : Q) (st st' : State) :
  drive_loop today n prev stop dh st = Some st' ->
  logged_stops (logs st') = logged_stops (logs st).
Proof.
  intros H.
  eapply (drive_loop_inv today (fun s => logged_stops (logs s) = logged_stops (logs st))
            (fun _ => True)); [| reflexivity | exact I | exact H].
  intros p s d st0 H0 _ _. split; [| exact I].
  now rewrite drive_step_logged.
Qed.

Lemma add_stop_event_logged (stop : Stop) (st : State) :
  logged_stops (logs (add_stop_event today stop st)) =
  logged_stops (logs st) ++ [stop_signature stop].
Proof. unfold add_stop_event. cbn [logs]. now rewrite logged_stops_snoc. Qed.

Lemma visit_all_logged (total_miles : Q) (n : nat) (todo : list Stop) :
  forall prev st st',
    visit_all today great_circle total_miles n prev todo st = Some st' ->
    logged_stops (logs st') = logged_stops (logs st) ++ map stop_signature todo.
Proof.
  induction todo as [| stop todo IH]; intros prev st st' H; cbn [visit_all] in H.
  - injection H as <-. cbn. now rewrite app_nil_r.
  - unfold visit in H. destruct prev as [p |].
    + unfold drive_to in H.
      destruct (drive_loop today _ p stop _ st) as [st1 |] eqn:E; [| discriminate].
      apply IH in H. rewrite H, add_stop_event_logged.
      apply drive_loop_logged in E. rewrite E. cbn [map]. now rewrite <- app_assoc.
    + apply IH in H. rewrite H, add_stop_event_logged.
      cbn [map]. now rewrite <- app_assoc.
Qed.

Lemma generate_logged (stops : list Stop) (ccu total_miles : Q) (l : list LogDay) :
  generate_eld_logs_with_stops today great_circle stops ccu total_miles = Returns l ->
  logged_stops l = map stop_signature stops.
Proof.
  unfold generate_eld_logs_with_stops.
  destruct (Qle_bool _ 0); [discriminate |].
  destruct (visit_all _ _ _ _ _ _ _) as [st |] eqn:E; [| discriminate].
  intros [= <-]. apply visit_all_logged in E. exact E.
Qed.

(** X5.  Below the cycle cap the logs hold exactly one event of their
    own for every stop, in the order of the stop list, each with the
    stop's type, label and metadata; the driving events, rest breaks and
    day markers between them add none. *)
Theorem every_stop_is_logged_once (stops : list Stop) (ccu total_miles : Q) :
  ccu < 70 ->
  exists l,
    generate_eld_logs_with_stops today great_circle stops ccu total_miles = Returns l /\
    logged_stops l = map stop_signature stops.
Proof.
  intros Hc.
  destruct (generate_returns today great_circle stops ccu total_miles Hc) as [st [_ E]].
  exists (logs st). split; [exact E | now apply generate_logged in E].
Qed.

End SimulatorMore.

(** X5 at the 1050-mile run of the basic itinerary. *)
Lemma every_stop_is_logged_once_witness :
  0 < 70 /\
  exists l,
    generate_eld_logs_with_stops 0 no_great_circle basic_stops 0 1050 = Returns l /\
    logged_stops l = map stop_signature basic_stops.
Proof.
  assert (H : 0 < 70) by reflexivity.
  split; [exact H |].
  exact (every_stop_is_logged_once 0 no_great_circle basic_stops 0 1050 H).
Defined.

Lemma day_steps_snoc (l : list LogDay) (r : LogDay) :
  forall prev,
    day_steps prev l ->
    (log_day r = last_day prev l \/ log_day r = (last_day prev l + 1)%Z) ->
    day_steps prev (l ++ [r]).
Proof.
  induction l as [| a l IH]; intros prev Hs Hr; cbn in *.
  - auto.
  - destruct Hs as [H1 H2]. split; [exact H1 | now apply IH].
Qed.

Lemma last_day_snoc (l : list LogDay) (r : LogDay) (prev : Z) :
  last_day prev (l ++ [r]) = log_day r.
Proof. unfold last_day. rewrite fold_left_app. reflexivity. Qed.

Lemma forall_snoc {A : Type} (ok : A -> Prop) (l : list A) (a : A) :
  Forall ok l -> ok a -> Forall ok (l ++ [a]).
Proof. intros Hl Ha. apply Forall_app. split; [exact Hl | now constructor]. Qed.

Section Calendar2.

Variable today : Z.
Variable great_circle : Coord -> Coord -> Q.

Lemma drive_step_calendar (prev stop : Stop) (dh : Q) (st : State) :
  calendar_inv today st -> calendar_inv today (snd (drive_step today prev stop dh st)).
Proof.
  intros H.
  assert (H1 : calendar_inv today (roll_day today st) \/
               (day_steps 1 (logs (roll_day today st)) /\
                (last_day 1 (logs (roll_day today st)) + 1)%Z = day (roll_day today st) /\
                Forall (fun r => log_date r = (today + (log_day r - 1))%Z)
                       (logs (roll_day today st)))).
  { destruct H as [Hs [Hl Hd]].
    destruct (roll_day_cases today st) as [[_ [_ E]] | [_ E]]; rewrite E.
    - left. repeat split; assumption.
    - right. cbn [logs day]. rewrite last_day_snoc. cbn [log_day].
      split; [apply day_steps_snoc; [exact Hs | left; now rewrite Hl] |].
      split; [reflexivity |].
      apply forall_snoc; [exact Hd | reflexivity]. }
  rewrite drive_step_eq. cbn zeta. cbn [snd].
  unfold calendar_inv. cbn [logs day]. rewrite last_day_snoc. cbn [log_day].
  destruct H1 as [[Hs [Hl Hd]] | [Hs [Hl Hd]]].
  - split; [apply day_steps_snoc; [exact Hs | left; now rewrite Hl] |].
    split; [reflexivity |]. apply forall_snoc; [exact Hd | reflexivity].
  - split; [apply day_steps_snoc; [exact Hs | right; now rewrite Hl] |].
    split; [reflexivity |]. apply forall_snoc; [exact Hd | reflexivity].
Qed.

Lemma add_stop_event_calendar (stop : Stop) (st : State) :
  calendar_inv today st -> calendar_inv today (add_stop_event today stop st).
Proof.
  intros [Hs [Hl Hd]]. unfold add_stop_event, calendar_inv. cbn zeta.
  cbn [logs day]. rewrite last_day_snoc. cbn [log_day].
  split; [| split; [reflexivity | apply forall_snoc; [exact Hd | reflexivity]]].
  apply day_steps_snoc; [exact Hs |]. cbn [log_day]. rewrite Hl.
  destruct (Qlt_bool 24 _); auto.
Qed.

Lemma generate_calendar (stops : list Stop) (ccu total_miles : Q) (l : list LogDay) :
  generate_eld_logs_with_stops today great_circle stops ccu total_miles = Returns l ->
  day_steps 1 l /\ Forall (fun r => log_date r = (today + (log_day r - 1))%Z) l.
Proof.
  intros E.
  destruct (generate_inv today great_circle (calendar_inv today) (fun _ => True)
              (fun _ => True)) with
    (stops := stops) (ccu := ccu) (total_miles := total_miles) (l := l)
    as [st [[Hs [_ Hd]] El]].
  - intros; exact I.
  - intros prev stop dh st0 H _ _. split; [now apply drive_step_calendar | exact I].
  - intros stop st0 _. apply add_stop_event_calendar.
  - apply Forall_forall. intros; exact I.
  - split; [exact I |]. split; [reflexivity | constructor].
  - exact E.
  - rewrite <- El. auto.
Qed.

(** X6.  Below the cycle cap the day numbers of the logs start at 1 (or
    at 2, when the first stop alone overflows a day) and from one record
    to the next stay or rise by exactly one, and every record is dated
    the day of the run plus its day number less one. *)
Theorem days_advance_one_at_a_time (stops : list Stop) (ccu total_miles : Q) :
  ccu < 70 ->
  exists l,
    generate_eld_logs_with_stops today great_circle stops ccu total_miles = Returns l /\
    day_steps 1 l /\
    Forall (fun r => log_date r = (today + (log_day r - 1))%Z) l.
Proof.
  intros Hc.
  destruct (generate_returns today great_circle stops ccu total_miles Hc) as [st [_ E]].
  exists (logs st). split; [exact E | now apply generate_calendar in E].
Qed.

End Calendar2.

(** X6 at the 1100-mile run of the basic itinerary, which ends on day 2. *)
Lemma days_advance_one_at_a_time_witness :
  0 < 70 /\
  exists l,
    generate_eld_logs_with_stops 5 no_great_circle basic_stops 0 1100 = Returns l /\
    map log_day l = [1; 1; 1; 2]%Z /\ map log_date l = [5; 5; 5; 6]%Z /\
    day_steps 1 l /\
    Forall (fun r => log_date r = (5 + (log_day r - 1))%Z) l.
Proof.
  assert (H : 0 < 70) by reflexivity.
  split; [exact H |].
  destruct (days_advance_one_at_a_time 5 no_great_circle basic_stops 0 1100 H)
    as [l [E [H1 H2]]].
  exists l. split; [exact E |].
  assert (El : Returns l =
               generate_eld_logs_with_stops 5 no_great_circle basic_stops 0 1100)
    by (symmetry; exact E).
  vm_compute in El. injection El as ->.
  split; [reflexivity |]. split; [reflexivity |]. split; assumption.
Defined.

Lemma driven_nonneg (dh : Q) : 0 <= dh -> driven dh == dh.
Proof.
  intros H. unfold driven. destruct (Qlt_bool 0 dh) eqn:E; [reflexivity |].
  apply Qlt_bool_false in E. lra.
Qed.

Lemma round_half_even_near (q : Q) :
  q - (1 # 2) <= inject_Z (round_half_even q) /\ inject_Z (round_half_even q) <= q + (1 # 2).
Proof.
  pose proof (Qfloor_le q) as H1. pose proof (Qlt_floor q) as H2.
  rewrite inject_Z_plus in H2. change (inject_Z 1) with 1 in H2.
  destruct (round_half_even_cases q) as [[R C] | [[R [C _]] | [[R [C _]] | [R C]]]];
    rewrite R; try rewrite inject_Z_plus; try change (inject_Z 1) with 1; lra.
Qed.

(** [round(x, 2)] is within half a hundredth of [x]. *)
Lemma py_round2_near (x : Q) :
  x - (1 # 200) <= py_round2 x /\ py_round2 x <= x + (1 # 200).
Proof.
  destruct (round_half_even_near (x * 100)) as [H1 H2].
  assert (E : py_round2 x == inject_Z (round_half_even (x * 100)) / 100).
  { unfold py_round2, Qeq, Qdiv, Qmult, Qinv, inject_Z. simpl. lia. }
  rewrite E. unfold Qdiv. change (/ 100) with (1 # 100). lra.
Qed.

Section Mileage.

Variable today : Z.
Variable great_circle : Coord -> Coord -> Q.

Lemma drive_loop_consumes (prev stop : Stop) (n : nat) :
  forall dh st st',
    drive_loop today n prev stop dh st = Some st' ->
    odometer st' == odometer st + driven dh * AVERAGE_SPEED.
Proof.
  induction n as [| n IH]; intros dh st st'.
  - cbn [drive_loop]. unfold driven. destruct (Qlt_bool 0 dh); [discriminate |].
    intros [= <-]. lra.
  - rewrite drive_loop_S. unfold driven at 1. destruct (Qlt_bool 0 dh) eqn:E.
    + apply Qlt_bool_iff in E. intros H. apply IH in H. rewrite H. clear H.
      rewrite drive_step_eq. cbn zeta. cbn [fst snd odometer].
      assert (Eo : odometer (roll_day today st) = odometer st).
      { destruct (roll_day_cases today st) as [[_ [_ R]] | [_ R]]; now rewrite R. }
      rewrite Eo.
      set (c := py_min (11 - daily_drive_hours (roll_day today st)) dh).
      assert (Hc : c <= dh).
      { subst c. destruct (py_min_cases (11 - daily_drive_hours (roll_day today st)) dh)
          as [[_ R] | [L R]]; rewrite R; lra. }
      rewrite (driven_nonneg (dh - c)) by lra.
      unfold AVERAGE_SPEED. lra.
    + intros [= <-]. lra.
Qed.

Lemma visit_all_consumes (total_miles : Q) (n : nat) (todo : list Stop) :
  forall prev st st',
    visit_all today great_circle total_miles n prev todo st = Some st' ->
    odometer st' ==
    odometer st + hours_to_drive great_circle total_miles n prev todo * AVERAGE_SPEED.
Proof.
  induction todo as [| stop todo IH]; intros prev st st' H;
    cbn [visit_all hours_to_drive] in *.
  - injection H as <-. lra.
  - unfold visit in H. destruct prev as [p |].
    + unfold drive_to in H.
      destruct (drive_loop today _ p stop _ st) as [st1 |] eqn:E; [| discriminate].
      apply IH in H. apply drive_loop_consumes in E.
      rewrite H. change (odometer (add_stop_event today stop st1)) with (odometer st1).
      rewrite E. unfold AVERAGE_SPEED. lra.
    + apply IH in H. rewrite H.
      change (odometer (add_stop_event today stop st)) with (odometer st).
      unfold AVERAGE_SPEED. lra.
Qed.

Lemma generate_final_reading (stops : list Stop) (ccu total_miles : Q) :
  ccu < 70 ->
  exists l,
    generate_eld_logs_with_stops today great_circle stops ccu total_miles = Returns l /\
    last_reading 0 l ==
    hours_to_drive great_circle total_miles (List.length stops) None stops * AVERAGE_SPEED.
Proof.
  intros Hc.
  destruct (generate_returns today great_circle stops ccu total_miles Hc) as [st [Ev E]].
  exists (logs st). split; [exact E |].
  assert (Hi : odometer_inv st).
  { eapply (visit_all_inv today great_circle odometer_inv cents (fun _ => True));
      [apply cents_round | | | | | exact Ev].
    - intros prev stop dh st0. apply drive_step_odometer.
    - intros stop st0 _. apply add_stop_event_odometer.
    - apply Forall_forall. intros; exact I.
    - split; [apply (cents_inject 0) |]. split; [apply (cents_inject 0) |].
      split; [exact I | apply Qeq_refl]. }
  destruct Hi as [_ [_ [_ Hl]]]. rewrite Hl.
  apply visit_all_consumes in Ev. rewrite Ev. cbn [odometer init]. lra.
Qed.

(** X7.  Below the cycle cap no driving is lost or invented: the last
    odometer reading of the logs is fifty miles for every hour of the
    legs, each leg counting its hours rounded to the hundredth (and
    nothing when they are not positive). *)
Theorem final_odometer_is_the_driving (stops : list Stop) (ccu total_miles : Q) :
  ccu < 70 ->
  exists l,
    generate_eld_logs_with_stops today great_circle stops ccu total_miles = Returns l /\
    last_reading 0 l ==
    hours_to_drive great_circle total_miles (List.length stops) None stops * 50.
Proof. apply generate_final_reading. Qed.

Lemma hours_to_drive_uncharted (total_miles : Q) (n : nat) (todo : list Stop) :
  Forall (fun s => coordinates (metadata s) = None) todo ->
  forall p,
    hours_to_drive great_circle total_miles n (Some p) todo ==
    inject_Z (Z.of_nat (List.length todo)) *
    driven (py_round2 (total_miles / inject_Z (Z.of_nat n - 1) / AVERAGE_SPEED)).
Proof.
  induction 1 as [| s todo Hs _ IH]; intros p; cbn [hours_to_drive List.length].
  - change (inject_Z (Z.of_nat 0)) with 0. lra.
  - rewrite IH. unfold segment_miles. rewrite Hs.
    destruct (coordinates (metadata p));
      rewrite Nat2Z.inj_succ, <- Z.add_1_r, inject_Z_plus;
      change (inject_Z 1) with 1; lra.
Qed.

(** X8.  For stops without coordinates - the basic itinerary of the
    wrapper - the legs split [total_miles] evenly, and below the cycle
    cap the last odometer reading is within a quarter of a mile per leg
    of [total_miles]. *)
Theorem uncharted_run_covers_total_miles (stops : list Stop) (ccu total_miles : Q) :
  ccu < 70 -> 0 <= total_miles -> (2 <= List.length stops)%nat ->
  Forall (fun s => coordinates (metadata s) = None) stops ->
  exists l,
    generate_eld_logs_with_stops today great_circle stops ccu total_miles = Returns l /\
    total_miles - inject_Z (Z.of_nat (List.length stops) - 1) * (1 # 4) <= last_reading 0 l /\
    last_reading 0 l <= total_miles + inject_Z (Z.of_nat (List.length stops) - 1) * (1 # 4).
Proof.
  intros Hc Ht Hn Hs.
  destruct (generate_final_reading stops ccu total_miles Hc) as [l [E Hl]].
  exists l. split; [exact E |]. rewrite Hl. clear Hl E.
  destruct stops as [| p todo]; [cbn in Hn; lia |].
  inversion Hs as [| ? ? _ Hs']; subst.
  cbn [hours_to_drive]. rewrite (hours_to_drive_uncharted total_miles _ todo Hs' p).
  cbn [List.length] in *.
  replace (Z.of_nat (S (List.length todo)) - 1)%Z with (Z.of_nat (List.length todo)) by lia.
  set (k := inject_Z (Z.of_nat (List.length todo))).
  assert (Hk : 1 <= k).
  { subst k. change 1 with (inject_Z 1). rewrite <- Zle_Qle. lia. }
  set (x := total_miles / k / AVERAGE_SPEED).
  assert (Hx : total_miles == k * x * 50).
  { subst x. unfold AVERAGE_SPEED. field. lra. }
  assert (Hx0 : 0 <= x).
  { assert (0 <= k * x) by lra. 
    destruct (Qlt_le_dec x 0) as [N | P]; [| exact P].
    exfalso. assert (k * x < 0); [| lra].
    setoid_replace (k * x) with (- (k * (- x))) by ring.
    assert (0 < k * (- x)); [apply Qmult_lt_0_compat; lra | lra]. }
  destruct (py_round2_near x) as [N1 N2].
  assert (Hr : 0 <= py_round2 x) by now apply py_round2_nonneg.
  rewrite (driven_nonneg _ Hr).
  unfold AVERAGE_SPEED.
  assert (B1 : k * (x - (1 # 200)) <= k * py_round2 x).
  { apply Qmult_le_l; lra. }
  assert (B2 : k * py_round2 x <= k * (x + (1 # 200))).
  { apply Qmult_le_l; lra. }
  split; lra.
Qed.

End Mileage.

(** X7 and X8 at the 1050-mile run of the basic itinerary: the odometer
    ends on 1050. *)
Lemma final_odometer_is_the_driving_witness :
  0 < 70 /\
  exists l,
    generate_eld_logs_with_stops 0 no_great_circle basic_stops 0 1050 = Returns l /\
    last_reading 0 l ==
    hours_to_drive no_great_circle 1050 (List.length basic_stops) None basic_stops * 50 /\
    last_reading 0 l == 1050.
Proof.
  assert (H : 0 < 70) by reflexivity.
  split; [exact H |].
  destruct (final_odometer_is_the_driving 0 no_great_circle basic_stops 0 1050 H)
    as [l [E Hl]].
  exists l. split; [exact E |]. split; [exact Hl |].
  rewrite Hl. vm_compute. reflexivity.
Defined.

Lemma uncharted_run_covers_total_miles_witness :
  0 < 70 /\ 0 <= 1050 /\ (2 <= List.length basic_stops)%nat /\
  Forall (fun s => coordinates (metadata s) = None) basic_stops /\
  exists l,
    generate_eld_logs_with_stops 0 no_great_circle basic_stops 0 1050 = Returns l /\
    1050 - inject_Z (Z.of_nat (List.length basic_stops) - 1) * (1 # 4) <= last_reading 0 l /\
    last_reading 0 l <= 1050 + inject_Z (Z.of_nat (List.length basic_stops) - 1) * (1 # 4).
Proof.
  assert (H1 : 0 < 70) by reflexivity.
  assert (H2 : 0 <= 1050) by discriminate.
  assert (H3 : (2 <= List.length basic_stops)%nat) by (cbn; lia).
  assert (H4 : Forall (fun s => coordinates (metadata s) = None) basic_stops)
    by (repeat constructor).
  split; [exact H1 |]. split; [exact H2 |]. split; [exact H3 |]. split; [exact H4 |].
  exact (uncharted_run_covers_total_miles 0 no_great_circle basic_stops 0 1050 H1 H2 H3 H4).
Defined.

Section Shapes.

Variable today : Z.
Variable great_circle : Coord -> Coord -> Q.

Lemma roll_day_clock (st : State) : current_hour (roll_day today st) < 14.
Proof.
  destruct (roll_day_cases today st) as [[_ [H E]] | [_ E]]; rewrite E;
    [exact H | reflexivity].
Qed.

Lemma roll_day_shape (st : State) : shape_inv st -> shape_inv (roll_day today st).
Proof.
  intros [H0 [Hc Hl]].
  destruct (roll_day_cases today st) as [[_ [_ E]] | [_ E]]; rewrite E.
  - repeat split; assumption.
  - split; [apply Qle_refl |]. split; [apply (cents_inject 0) |].
    cbn [logs]. apply forall_snoc; [exact Hl | now left].
Qed.

Lemma drive_step_shape (prev stop : Stop) (dh : Q) (st : State) :
  shape_inv st -> cents dh -> 0 < dh ->
  shape_inv (snd (drive_step today prev stop dh st)) /\
  cents (fst (drive_step today prev stop dh st)).
Proof.
  intros Hi Hdh Hpos. apply roll_day_shape in Hi. destruct Hi as [H0 [Hc Hl]].
  pose proof (chunk_positive today dh st Hpos) as Hp.
  pose proof (roll_day_clock st) as Hclock.
  rewrite drive_step_eq. cbn zeta. cbn [fst snd].
  set (st1 := roll_day today st) in *.
  set (c := py_min (11 - daily_drive_hours st1) dh) in *.
  assert (Cc : cents c).
  { apply cents_min; [| exact Hdh].
    apply cents_minus; [apply (cents_inject 11) | exact Hc]. }
  assert (C11 : c <= 11).
  { subst c. destruct (py_min_cases (11 - daily_drive_hours st1) dh)
      as [[L R] | [_ R]]; rewrite R; lra. }
  assert (Rm : py_round2 (c * AVERAGE_SPEED) == c * AVERAGE_SPEED).
  { apply py_round2_cents. apply (cents_scale c 50 Cc). }
  assert (Hd : driving_ok (driving_event prev stop (current_hour st1)
                                         (current_hour st1 + c) c)).
  { split; [reflexivity |]. cbn [driving_event ev_start event_miles ev_metadata].
    split.
    - eapply Qle_trans;
        [apply py_round2_mono, Qlt_le_weak; exact Hclock |].
      rewrite (py_round2_inject 14). apply Qle_refl.
    - rewrite Rm. unfold AVERAGE_SPEED. split; lra. }
  split; [| now apply cents_minus].
  split; [| split]; cbn [daily_drive_hours logs].
  - destruct (Qle_bool 8 _); lra.
  - destruct (Qle_bool 8 _); [apply (cents_inject 0) | now apply cents_plus].
  - apply forall_snoc; [exact Hl |]. unfold record_shape. cbn [log_events].
    destruct (Qle_bool 8 _).
    + do 3 right. eexists _, _. split; [reflexivity |].
      split; [exact Hd |]. repeat split.
    + right; right; left. eexists. split; [reflexivity | exact Hd].
Qed.

Lemma add_stop_event_shape (stop : Stop) (st : State) :
  shape_inv st -> shape_inv (add_stop_event today stop st).
Proof.
  intros [H0 [Hc Hl]]. unfold add_stop_event, shape_inv. cbn zeta.
  cbn [daily_drive_hours logs].
  split; [destruct (Qlt_bool 24 _); lra |].
  split; [destruct (Qlt_bool 24 _); [apply (cents_inject 0) | exact Hc] |].
  apply forall_snoc; [exact Hl |]. right; left.
  eexists _, _. split; reflexivity.
Qed.

(** X9.  Below the cycle cap every record of the logs has one of four
    shapes: no event (a day marker), one stop's event, one driving
    event, or one driving event with the rest break right behind it,
    starting at the hour the driving ends.  Every driving event starts
    by hour 14 and covers at least 0 and at most 550 miles, the eleven
    hours of one chunk. *)
Theorem records_have_four_shapes (stops : list Stop) (ccu total_miles : Q) :
  ccu < 70 ->
  exists l,
    generate_eld_logs_with_stops today great_circle stops ccu total_miles = Returns l /\
    Forall record_shape l.
Proof.
  intros Hc.
  destruct (generate_returns today great_circle stops ccu total_miles Hc) as [st [_ E]].
  exists (logs st). split; [exact E |].
  destruct (generate_inv today great_circle shape_inv cents (fun _ => True)) with
    (stops := stops) (ccu := ccu) (total_miles := total_miles) (l := logs st)
    as [st' [[_ [_ Hl]] El]].
  - apply cents_round.
  - intros prev stop dh st0. apply drive_step_shape.
  - intros stop st0 _. apply add_stop_event_shape.
  - apply Forall_forall. intros; exact I.
  - split; [apply Qle_refl |]. split; [apply (cents_inject 0) | constructor].
  - exact E.
  - rewrite <- El. exact Hl.
Qed.

End Shapes.

(** X9 at the 1050-mile run of the basic itinerary. *)
Lemma records_have_four_shapes_witness :
  0 < 70 /\
  exists l,
    generate_eld_logs_with_stops 0 no_great_circle basic_stops 0 1050 = Returns l /\
    Forall record_shape l.
Proof.
  assert (H : 0 < 70) by reflexivity.
  split; [exact H |].
  exact (records_have_four_shapes 0 no_great_circle basic_stops 0 1050 H).
Defined.

(** ** The serializer and the pipeline *)

(** X10.  The serializer accepts the cycle hours from 0 to 70, both
    included, and hands them on unchanged; of the hours it accepts, the
    simulator raises its cycle error on exactly 70 and returns logs on
    all the others. *)
Theorem accepted_cycle_hours_fail_only_at_70 (today : Z)
    (great_circle : Coord -> Coord -> Q) (stops : list Stop) (total_miles : Q)
    (value : Q) :
  ((exists v, validate_current_cycle_used value = Valid v) <-> 0 <= value /\ value <= 70) /\
  (forall v, validate_current_cycle_used value = Valid v ->
     v = value /\
     (v == 70 ->
      generate_eld_logs_with_stops today great_circle stops v total_miles =
      Raises (ValueError "Driver has already exceeded 70-hr cycle.")) /\
     (~ v == 70 ->
      exists l,
        generate_eld_logs_with_stops today great_circle stops v total_miles = Returns l)).
Proof.
  unfold validate_current_cycle_used, MAX_CYCLE_HOURS.
  destruct (Qlt_bool value 0) eqn:E0; [| destruct (Qlt_bool 70 value) eqn:E1].
  - apply Qlt_bool_iff in E0. split.
    + split; [intros [v H]; discriminate | intros [H _]; lra].
    + intros v H. discriminate.
  - apply Qlt_bool_iff in E1. split.
    + split; [intros [v H]; discriminate | intros [_ H]; lra].
    + intros v H. discriminate.
  - apply Qlt_bool_false in E0, E1. split.
    + split; [auto | eauto].
    + intros v [= <-]. split; [reflexivity |]. split.
      * intros H. unfold generate_eld_logs_with_stops.
        assert (E : Qle_bool (MAX_CYCLE_HOURS - value) 0 = true).
        { apply Qle_bool_iff. unfold MAX_CYCLE_HOURS. lra. }
        now rewrite E.
      * intros H.
        assert (Hlt : value < 70).
        { destruct (Qlt_le_dec value 70) as [L | G]; [exact L |].
          exfalso. apply H. lra. }
        destruct (generate_returns today great_circle stops value total_miles Hlt)
          as [st [_ E]].
        eauto.
Qed.

(** X10 at the boundary: 70 is accepted and the simulator raises on it. *)
Lemma accepted_cycle_hours_fail_only_at_70_witness :
  validate_current_cycle_used 70 = Valid 70 /\
  generate_eld_logs_with_stops 0 no_great_circle basic_stops 70 500 =
  Raises (ValueError "Driver has already exceeded 70-hr cycle.").
Proof.
  assert (H : validate_current_cycle_used 70 = Valid 70) by reflexivity.
  split; [exact H |].
  apply (proj2 (accepted_cycle_hours_fail_only_at_70 0 no_great_circle basic_stops 500 70)
           70 H).
  reflexivity.
Defined.

Lemma generate_events_ok (today : Z) (great_circle : Coord -> Coord -> Q)
    (stops : list Stop) (ccu total_miles : Q) (l : list LogDay) :
  Forall fits_a_day stops ->
  generate_eld_logs_with_stops today great_circle stops ccu total_miles = Returns l ->
  all_events event_ok l.
Proof.
  intros Hs E.
  destruct (generate_inv today great_circle bounded (fun _ => True) fits_a_day) with
    (stops := stops) (ccu := ccu) (total_miles := total_miles) (l := l)
    as [st' [[_ Hl] El]].
  - intros; exact I.
  - intros prev stop dh st0 Hb _ Hdh. split; [| exact I].
    now apply drive_step_bounded.
  - intros stop st0. apply add_stop_event_bounded.
  - exact Hs.
  - split; [apply Qle_refl | constructor].
  - exact E.
  - rewrite <- El. exact Hl.
Qed.

(** X11.  For a trip below the cycle cap, whatever the providers do,
    planning and then simulating returns a well-formed itinerary and
    logs that hold one event for every stop of that itinerary, in its
    order, with every event starting at hour 0 or later and every
    stop's event ending by hour 24. *)
Theorem planned_trip_is_logged (World : Type)
    (geocode_location : string -> Planner.M World Coord)
    (find_poi_near_location : Coord -> list string -> Z -> Planner.M World (option PointOfInterest))
    (today : Z) (great_circle : Coord -> Coord -> Q)
    (t : Trip) (total_miles : Q) (route_geometry : option RouteGeometry) (w : World) :
  current_cycle_used t < 70 ->
  exists stops l w',
    plan_and_log geocode_location find_poi_near_location today great_circle
                 t total_miles route_geometry w = (Ok (stops, Returns l), w') /\
    itinerary_ok stops /\
    logged_stops l = map stop_signature stops /\
    all_events event_ok l.
Proof.
  intros Hc.
  destruct (calculate_stops_with_fallback_ok World geocode_location find_poi_near_location
              t total_miles route_geometry w) as [stops [w' [E Hok]]].
  pose proof (calculate_stops_with_fallback_durations World geocode_location
                find_poi_near_location t total_miles route_geometry w w' stops E) as Hd.
  assert (Hsorted : Planner.sorted_by_sequence stops = stops).
  { apply sorted_by_sequence_id. apply Hok. }
  destruct (generate_returns today great_circle stops (current_cycle_used t) total_miles Hc)
    as [st [_ El]].
  exists stops, (logs st), w'.
  unfold plan_and_log, Planner.bind, Planner.ret. rewrite E, Hsorted, El.
  split; [reflexivity |]. split; [exact Hok |].
  split; [eapply generate_logged; exact El |].
  eapply generate_events_ok; [| exact El].
  eapply Forall_impl; [| exact Hd].
  intros s [_ H]. unfold fits_a_day. rewrite H. destruct (stop_type s); cbn; lia.
Qed.

Lemma planned_trip_is_logged_witness :
  current_cycle_used sample_trip < 70 /\
  exists stops l w',
    plan_and_log stub_geocode stub_no_poi 0 stub_great_circle
                 sample_trip 1200 (Some sample_route) tt = (Ok (stops, Returns l), w') /\
    itinerary_ok stops /\
    logged_stops l = map stop_signature stops /\
    all_events event_ok l.
Proof.
  assert (H : current_cycle_used sample_trip < 70) by reflexivity.
  split; [exact H |].
  exact (planned_trip_is_logged unit stub_geocode stub_no_poi 0 stub_great_circle
           sample_trip 1200 (Some sample_route) tt H).
Defined.

(** ** Cache keys *)

Lemma key_char_alnum (c : ascii) :
  is_alnum c = true ->
  is_key_char (ascii_lower c) = true /\ ascii_lower c <> "_"%char.
Proof.
  destruct c as [[] [] [] [] [] [] [] []]; vm_compute; intros H;
    try discriminate H; (split; [reflexivity | discriminate]).
Qed.

Lemma string_map_length (f : ascii -> ascii) (s : string) :
  String.length (string_map f s) = String.length s.
Proof. induction s as [| c s IH]; cbn; [reflexivity | now rewrite IH]. Qed.

Lemma key_body_chars (a : string) :
  string_forall is_key_char (string_map ascii_lower (clean_address a)) = true.
Proof.
  induction a as [| c a IH]; [reflexivity |].
  cbn [clean_address string_map string_forall]. fold (clean_address a). rewrite IH.
  destruct (is_alnum c) eqn:E.
  - now rewrite (proj1 (key_char_alnum c E)).
  - reflexivity.
Qed.

(** X12.  A cache key is ["geocode_"] followed by one character for
    every character of the address, each a lower-case letter, a digit
    or an underscore: a key holds no space, no capital and no
    punctuation. *)
Theorem make_cache_key_shape (address : string) :
  exists body,
    make_cache_key address = ("geocode_" ++ body)%string /\
    String.length body = String.length address /\
    string_forall is_key_char body = true.
Proof.
  exists (string_map ascii_lower (clean_address address)).
  split; [reflexivity |]. split; [| apply key_body_chars].
  unfold clean_address. now rewrite !string_map_length.
Qed.

Lemma key_char_eq_iff (x y : ascii) :
  ascii_lower (if is_alnum x then x else "_"%char) =
  ascii_lower (if is_alnum y then y else "_"%char) <->
  same_key_char x y.
Proof.
  unfold same_key_char.
  destruct (is_alnum x) eqn:Ex, (is_alnum y) eqn:Ey.
  - split; [intros H; right; auto | intros [[H _] | [_ [_ H]]]; [discriminate | exact H]].
  - split.
    + intros H. exfalso. apply (proj2 (key_char_alnum x Ex)). exact H.
    + intros [[H _] | [_ [H _]]]; discriminate.
  - split.
    + intros H. exfalso. apply (proj2 (key_char_alnum y Ey)). symmetry. exact H.
    + intros [[_ H] | [H _]]; discriminate.
  - split; [intros _; left; auto | reflexivity].
Qed.

Lemma make_cache_key_eq_iff (a b : string) :
  make_cache_key a = make_cache_key b <-> same_key_shape a b.
Proof.
  unfold make_cache_key. cbn [String.append].
  split.
  - intros H. injection H as H. revert b H.
    induction a as [| x a IH]; intros [| y b] H; cbn in *; try discriminate; [exact I |].
    injection H as Hc H. split; [now apply key_char_eq_iff | now apply IH].
  - intros H. do 8 f_equal. revert b H.
    induction a as [| x a IH]; intros [| y b] H; cbn in *; try contradiction;
      [reflexivity |].
    destruct H as [Hc H]. f_equal; [now apply key_char_eq_iff | now apply IH].
Qed.

(** X13.  Two addresses get the same cache key exactly when they have
    the same length and agree character by character up to the case of
    letters, any character that is neither a letter nor a digit standing
    for any other such character. *)
Theorem make_cache_key_collisions (a b : string) :
  make_cache_key a = make_cache_key b <-> same_key_shape a b.
Proof. apply make_cache_key_eq_iff. Qed.

(** X13 on two spellings of one town. *)
Example cache_key_of_st_louis :
  make_cache_key "St. Louis, MO" = "geocode_st__louis__mo"%string /\
  make_cache_key "ST LOUIS (MO)" = "geocode_st_louis__mo_"%string /\
  make_cache_key "st. louis; mo" = make_cache_key "St. Louis, MO".
Proof. repeat split. Qed.

(** ** Bounding boxes *)

(** X14.  The box around a point is a square of [0.018 * radius_km]
    degrees a side with the point in its middle, its corners given
    longitude first; for radii that are not negative the point is
    inside, and the box of a larger radius holds every point of the box
    of a smaller one, so each step of the radius ladder only widens the
    search. *)
Theorem get_viewbox_widens (coords : Coord) (r1 r2 : Q) :
  0 <= r1 -> r1 <= r2 ->
  in_viewbox coords (get_viewbox coords r1) /\
  (forall p, in_viewbox p (get_viewbox coords r1) -> in_viewbox p (get_viewbox coords r2)) /\
  fst (snd (get_viewbox coords r1)) - fst (fst (get_viewbox coords r1)) == (18 # 1000) * r1 /\
  snd (snd (get_viewbox coords r1)) - snd (fst (get_viewbox coords r1)) == (18 # 1000) * r1 /\
  fst (fst (get_viewbox coords r1)) + fst (snd (get_viewbox coords r1)) == 2 * snd coords /\
  snd (fst (get_viewbox coords r1)) + snd (snd (get_viewbox coords r1)) == 2 * fst coords.
Proof.
  intros H0 H12. destruct coords as [lat lng].
  unfold in_viewbox, get_viewbox. cbn [fst snd].
  split; [repeat split; lra |].
  split; [intros [plat plng]; cbn [fst snd]; intros [A [B [C D]]]; repeat split; lra |].
  repeat split; lra.
Qed.

(** X14 on the first two steps of the ladder. *)
Lemma get_viewbox_widens_witness :
  0 <= 10 /\ 10 <= 20 /\
  in_viewbox (38, -90) (get_viewbox (38, -90) 10) /\
  get_viewbox (38, -90) 10 = ((-90 - (9 # 1000) * 10, 38 - (9 # 1000) * 10),
                              (-90 + (9 # 1000) * 10, 38 + (9 # 1000) * 10)) /\
  (forall p, in_viewbox p (get_viewbox (38, -90) 10) ->
             in_viewbox p (get_viewbox (38, -90) 20)).
Proof.
  assert (H1 : 0 <= 10) by discriminate.
  assert (H2 : 10 <= 20) by discriminate.
  destruct (get_viewbox_widens (38, -90) 10 20 H1 H2) as [A [B _]].
  split; [exact H1 |]. split; [exact H2 |]. split; [exact A |].
  split; [reflexivity | exact B].
Defined.

(** ** Providers, cache and clock *)

Lemma slept_cons (e : Services.Effect) (tr : list Services.Effect) :
  slept (e :: tr) =
  match e with
  | Services.Sleep seconds => seconds
  | _ => 0
  end + slept tr.
Proof. reflexivity. Qed.

Lemma slept_app (a b : list Services.Effect) : slept (a ++ b) == slept a + slept b.
Proof.
  induction a as [| e a IH].
  - change ([] ++ b) with b. change (slept []) with 0. lra.
  - change ((e :: a) ++ b) with (e :: a ++ b). rewrite !slept_cons, IH. lra.
Qed.

Lemma calls_app (a b : list Services.Effect) : calls (a ++ b) = (calls a + calls b)%nat.
Proof. unfold calls. now rewrite filter_app, length_app. Qed.

Section ServiceFacts.

Variable Net : Type.
Variable Location : Type.

Abbreviation World := (Services.World Net Location).

Variable pelias_search : string -> Net -> Services.answer (list (list Q)) * Net.
Variable directions : list Coord -> bool -> Net -> Services.answer Services.RouteResponse * Net.
Variable reverse : Coord -> Net -> Services.answer (option Location) * Net.
Variable nominatim_search :
  string -> (Q * Q) * (Q * Q) -> Net -> Services.answer Services.HttpResponse * Net.
Variable great_circle_miles : Coord -> Coord -> Q.
Variable great_circle_km : Coord -> Coord -> Q.
Variable poi_cache_key : string -> Coord -> Z -> string.
Variable reverse_cache_key : Coord -> string.

Abbreviation geocode_location := (Services.geocode_location Net Location pelias_search).
Abbreviation geocode_location_with_retry :=
  (Services.geocode_location_with_retry Net Location pelias_search).

Lemma effort_refl (w : World) : effort 0 0 w w.
Proof. exists []. rewrite app_nil_r. repeat split; [apply Qle_refl | apply Nat.le_refl]. Qed.

Lemma effort_trans (s1 s2 : Q) (n1 n2 : nat) (w w1 w2 : World) :
  effort s1 n1 w w1 -> effort s2 n2 w1 w2 -> effort (s1 + s2) (n1 + n2) w w2.
Proof.
  intros [a1 [E1 [S1 C1]]] [a2 [E2 [S2 C2]]]. exists (a1 ++ a2).
  rewrite E2, E1, <- app_assoc. split; [reflexivity |].
  rewrite slept_app, calls_app. split; [lra | lia].
Qed.

Lemma effort_weaken (s s' : Q) (n n' : nat) (w w' : World) :
  effort s n w w' -> s <= s' -> (n <= n')%nat -> effort s' n' w w'.
Proof.
  intros [a [E [S C]]] Hs Hn. exists a. split; [exact E |]. split; [lra | lia].
Qed.

(** What one call of [geocode_location] can do. *)
Lemma geocode_location_cases (address : string) (w : World) :
  (exists c, Services.geocode_cache Net Location w (make_cache_key address) = Some c /\
             geocode_location address w = (Services.Done c, w)) \/
  (Services.geocode_cache Net Location w (make_cache_key address) = None /\
   exists r w',
     geocode_location address w = (r, w') /\
     Services.trace Net Location w' =
       Services.trace Net Location w ++ [Services.PeliasSearch address] /\
     Services.stored_stops Net Location w' = Services.stored_stops Net Location w /\
     ((exists m, r = Services.Thrown (Services.PyValueError m) /\
                 Services.geocode_cache Net Location w' =
                 Services.geocode_cache Net Location w) \/
      (exists lon lat more others n,
         pelias_search address (Services.net Net Location w) =
           (Services.Done ((lon :: lat :: more) :: others), n) /\
         r = Services.Done (lat, lon) /\
         Services.geocode_cache Net Location w' =
           Services.store_set (Services.geocode_cache Net Location w)
                              (make_cache_key address) (lat, lon)))).
Proof.
  unfold Services.geocode_location.
  destruct (Services.geocode_cache Net Location w (make_cache_key address)) as [c |] eqn:Ec.
  - left. exists c. auto.
  - right. split; [reflexivity |].
    unfold Services.try_except, Services.bind, Services.record, Services.call.
    cbn [Services.net].
    destruct (pelias_search address (Services.net Net Location w)) as [[g | e] n] eqn:Ep.
    + destruct g as [| [| lon [| lat more]] others]; cbn;
        try (eexists _, _; split; [reflexivity |]; split; [reflexivity |];
             split; [reflexivity |]; left; eexists; split; reflexivity).
      eexists _, _. split; [reflexivity |]. split; [reflexivity |]. split; [reflexivity |].
      right. exists lon, lat, more, others, n. repeat split.
    + cbn. eexists _, _. split; [reflexivity |]. split; [reflexivity |].
      split; [reflexivity |]. left. eexists. split; reflexivity.
Qed.

Lemma store_set_same {V : Type} (store : string -> option V) (key : string) (v : V) :
  Services.store_set store key v key = Some v.
Proof. unfold Services.store_set. now rewrite String.eqb_refl. Qed.

Lemma geocode_location_effort (address : string) (w w' : World) r :
  geocode_location address w = (r, w') -> effort 0 1 w w'.
Proof.
  intros H.
  destruct (geocode_location_cases address w)
    as [[c [_ E]] | [_ [r' [w1 [E [Ht _]]]]]]; rewrite E in H; injection H as <- <-.
  - eapply effort_weaken; [apply effort_refl | apply Qle_refl | lia].
  - exists [Services.PeliasSearch address]. split; [exact Ht |].
    split; [cbn; lra | cbn; lia].
Qed.

Lemma geocode_location_cached (a : string) (w w1 : World) (c : Coord) :
  geocode_location a w = (Services.Done c, w1) ->
  Services.geocode_cache Net Location w1 (make_cache_key a) = Some c.
Proof.
  intros H.
  destruct (geocode_location_cases a w)
    as [[c' [Ec E]] | [_ [r [w' [E [_ [_ Hr]]]]]]]; rewrite E in H.
  - injection H as <- <-. exact Ec.
  - injection H as Hr' Hw. subst r w'.
    destruct Hr as [[m [Hm _]] | [lon [lat [more [others [n [_ [Hr Hc]]]]]]]];
      [discriminate |].
    injection Hr as Hr. subst c. rewrite Hc. apply store_set_same.
Qed.

(** X15.  Once [geocode_location] has returned coordinates for an
    address, they sit in the cache under the address's key, and every
    address with that key - the same address in another case or with
    other punctuation - gets the same coordinates back from the cache,
    with no call and no change to the world. *)
Theorem geocode_location_answers_from_cache (a b : string) (w w1 : World) (c : Coord) :
  geocode_location a w = (Services.Done c, w1) ->
  same_key_shape a b ->
  Services.geocode_cache Net Location w1 (make_cache_key a) = Some c /\
  geocode_location b w1 = (Services.Done c, w1).
Proof.
  intros H Hs. apply geocode_location_cached in H. split; [exact H |].
  apply make_cache_key_eq_iff in Hs.
  unfold Services.geocode_location. rewrite <- Hs, H. reflexivity.
Qed.

(** X16.  [geocode_location] raises nothing but [ValueError], and then
    it leaves the cache as it was; it asks the geocoder at most once,
    and not at all when the cache has the key; what it returns on a
    miss is the first feature's coordinates with latitude and longitude
    swapped into (latitude, longitude). *)
Theorem geocode_location_outcomes (address : string) (w w' : World) r :
  geocode_location address w = (r, w') ->
  effort 0 1 w w' /\
  (forall e, r = Services.Thrown e ->
     is_value_error e = true /\
     Services.geocode_cache Net Location w' = Services.geocode_cache Net Location w) /\
  (forall c, Services.geocode_cache Net Location w (make_cache_key address) = Some c ->
     r = Services.Done c /\ w' = w) /\
  (forall c, Services.geocode_cache Net Location w (make_cache_key address) = None ->
     r = Services.Done c ->
     exists lon lat more others n,
       pelias_search address (Services.net Net Location w) =
         (Services.Done ((lon :: lat :: more) :: others), n) /\
       c = (lat, lon)).
Proof.
  intros H. split; [eapply geocode_location_effort; exact H |].
  destruct (geocode_location_cases address w)
    as [[c [Ec E]] | [Ec [r' [w1 [E [_ [_ Hr]]]]]]]; rewrite E in H; injection H as <- <-.
  - split; [intros e He; discriminate |].
    split; [intros c' Hc'; rewrite Ec in Hc'; injection Hc' as <-; auto |].
    intros c' Hc'. rewrite Ec in Hc'. discriminate.
  - split; [| split].
    + intros e He.
      destruct Hr as [[m [Hm Hc]] | [lon [lat [more [others [n [_ [Hd _]]]]]]]].
      * rewrite Hm in He. injection He as <-. auto.
      * rewrite Hd in He. discriminate.
    + intros c Hc. rewrite Ec in Hc. discriminate.
    + intros c _ Hc.
      destruct Hr as [[m [Hm _]] | [lon [lat [more [others [n [Hp [Hd _]]]]]]]].
      * rewrite Hm in Hc. discriminate.
      * rewrite Hd in Hc. injection Hc as <-. exists lon, lat, more, others, n. auto.
Qed.

Lemma geocode_location_stored (a : string) (w w' : World) r :
  geocode_location a w = (r, w') ->
  Services.stored_stops Net Location w' = Services.stored_stops Net Location w.
Proof.
  intros E.
  destruct (geocode_location_cases a w)
    as [[c [_ E']] | [_ [r1 [w1 [E' [_ [Hs _]]]]]]]; rewrite E' in E;
    injection E as <- <-; [reflexivity | exact Hs].
Qed.

Lemma geocode_location_step (a : string) (w : World) :
  (exists c w1,
     geocode_location a w = (Services.Done c, w1) /\ effort 0 1 w w1 /\
     Services.geocode_cache Net Location w1 (make_cache_key a) = Some c /\
     Services.stored_stops Net Location w1 = Services.stored_stops Net Location w) \/
  (exists e w1,
     geocode_location a w = (Services.Thrown e, w1) /\ is_value_error e = true /\
     Services.trace Net Location w1 =
       Services.trace Net Location w ++ [Services.PeliasSearch a] /\
     Services.stored_stops Net Location w1 = Services.stored_stops Net Location w).
Proof.
  destruct (geocode_location a w) as [[c | e] w1] eqn:E.
  - left. exists c, w1. split; [reflexivity |].
    split; [eapply geocode_location_effort; exact E |].
    split; [eapply geocode_location_cached; exact E |].
    eapply geocode_location_stored; exact E.
  - right. exists e, w1. split; [reflexivity |].
    pose proof (geocode_location_stored a w w1 _ E) as Hst.
    destruct (geocode_location_cases a w)
      as [[c [_ E']] | [_ [r [w' [E' [Ht [_ Hr]]]]]]]; rewrite E' in E;
      [discriminate |].
    injection E as -> ->.
    destruct Hr as [[m [Hm _]] | [lon [lat [more [others [n [_ [Hd _]]]]]]]];
      [| discriminate].
    injection Hm as ->. auto.
Qed.

Lemma sleep_trace (q : Q) (w : World) :
  Services.sleep Net Location q w =
  (Services.Done tt,
   {| Services.net := Services.net Net Location w;
      Services.geocode_cache := Services.geocode_cache Net Location w;
      Services.poi_cache := Services.poi_cache Net Location w;
      Services.reverse_cache := Services.reverse_cache Net Location w;
      Services.stored_stops := Services.stored_stops Net Location w;
      Services.trace := Services.trace Net Location w ++ [Services.Sleep q] |}).
Proof. reflexivity. Qed.

Lemma geocode_retry_spec (a : string) (w w' : World) r :
  geocode_location_with_retry a 3 w = (r, w') ->
  (exists added,
     Services.trace Net Location w' = Services.trace Net Location w ++ added /\
     slept added <= 3 /\ (calls added <= 3)%nat /\
     (forall e, r = Services.Thrown e ->
        is_value_error e = true /\ slept added == 3 /\ calls added = 3%nat) /\
     (forall c, r = Services.Done c ->
        Services.geocode_cache Net Location w' (make_cache_key a) = Some c)) /\
  Services.stored_stops Net Location w' = Services.stored_stops Net Location w.
Proof.
  unfold Services.geocode_location_with_retry.
  change (py_range 0 3) with [0; 1; 2]%Z.
  cbn [Services.geocode_attempts]. unfold Services.try_except at 1.
  destruct (geocode_location_step a w) as [[c [w1 [E1 [[a1 [T1 [S1 C1]]] [K1 D1]]]]] |
                                           [e1 [w1 [E1 [V1 [T1 D1]]]]]]; rewrite E1.
  { intros [= <- <-]. split; [| exact D1].
    exists a1. split; [exact T1 |]. split; [lra |]. split; [lia |].
    split; [intros e He; discriminate | intros c' [= <-]; exact K1]. }
  change (0 =? 3 - 1)%Z with false. cbn iota.
  unfold Services.bind at 1. rewrite sleep_trace.
  unfold Services.try_except at 1.
  match goal with |- context [geocode_location a ?w2] => set (w1s := w2) end.
  destruct (geocode_location_step a w1s) as [[c [w2 [E2 [[a2 [T2 [S2 C2]]] [K2 D2]]]]] |
                                             [e2 [w2 [E2 [V2 [T2 D2]]]]]]; rewrite E2.
  { intros [= <- <-]. split; [| rewrite D2; subst w1s; exact D1].
    exists ([Services.PeliasSearch a; Services.Sleep (inject_Z (2 ^ 0))] ++ a2).
    rewrite T2. subst w1s. cbn [Services.trace]. rewrite T1, <- !app_assoc.
    split; [reflexivity |]. rewrite slept_app, calls_app.
    split; [cbn; unfold inject_Z; lra |]. split; [cbn; lia |].
    split; [intros e He; discriminate | intros c' [= <-]; exact K2]. }
  change (1 =? 3 - 1)%Z with false. cbn iota.
  unfold Services.bind at 1. rewrite sleep_trace.
  unfold Services.try_except at 1.
  match goal with |- context [geocode_location a ?w3] => set (w2s := w3) end.
  destruct (geocode_location_step a w2s) as [[c [w3 [E3 [[a3 [T3 [S3 C3]]] [K3 D3]]]]] |
                                             [e3 [w3 [E3 [V3 [T3 D3]]]]]]; rewrite E3.
  { intros [= <- <-].
    split; [| rewrite D3; subst w2s; cbn [Services.stored_stops]; rewrite D2;
              subst w1s; exact D1].
    exists ([Services.PeliasSearch a; Services.Sleep (inject_Z (2 ^ 0));
             Services.PeliasSearch a; Services.Sleep (inject_Z (2 ^ 1))] ++ a3).
    rewrite T3. subst w2s. cbn [Services.trace]. rewrite T2. subst w1s.
    cbn [Services.trace]. rewrite T1, <- !app_assoc.
    split; [reflexivity |]. rewrite slept_app, calls_app.
    split; [cbn; unfold inject_Z; lra |]. split; [cbn; lia |].
    split; [intros e He; discriminate | intros c' [= <-]; exact K3]. }
  change (2 =? 3 - 1)%Z with true. cbn iota.
  intros [= <- <-].
  split; [| rewrite D3; subst w2s; cbn [Services.stored_stops]; rewrite D2;
            subst w1s; exact D1].
  exists [Services.PeliasSearch a; Services.Sleep (inject_Z (2 ^ 0));
          Services.PeliasSearch a; Services.Sleep (inject_Z (2 ^ 1));
          Services.PeliasSearch a].
  rewrite T3. subst w2s. cbn [Services.trace]. rewrite T2. subst w1s.
  cbn [Services.trace]. rewrite T1, <- !app_assoc.
  split; [reflexivity |].
  split; [cbn; unfold inject_Z; lra |]. split; [cbn; lia |].
  split; [| intros c He; discriminate].
  intros e [= <-]. split; [exact V3 |]. split; [cbn; unfold inject_Z; lra | reflexivity].
Qed.

(** X17.  [geocode_location_with_retry] with its three attempts asks
    the geocoder at most three times and sleeps at most three seconds
    (one, then two); when it returns, the coordinates are in the cache;
    when it raises, it raises [ValueError] after exactly three calls and
    three seconds.  With no attempt allowed it raises [ValueError] at
    once and touches nothing. *)
Theorem geocode_retry_outcomes (a : string) (w w' : World) r :
  geocode_location_with_retry a 3 w = (r, w') ->
  (exists added,
     Services.trace Net Location w' = Services.trace Net Location w ++ added /\
     slept added <= 3 /\ (calls added <= 3)%nat /\
     (forall e, r = Services.Thrown e ->
        is_value_error e = true /\ slept added == 3 /\ calls added = 3%nat) /\
     (forall c, r = Services.Done c ->
        Services.geocode_cache Net Location w' (make_cache_key a) = Some c)) /\
  (forall n, (n <= 0)%Z ->
     geocode_location_with_retry a n w =
     (Services.Thrown (Services.PyValueError "Geocoding failed after retries"), w)).
Proof.
  intros H. split; [now apply geocode_retry_spec in H |].
  intros n Hn. unfold Services.geocode_location_with_retry, py_range.
  replace (Z.to_nat (n - 0)) with O by lia. reflexivity.
Qed.

Abbreviation find_poi_near_location :=
  (Services.find_poi_near_location Net Location reverse nominatim_search great_circle_km
     poi_cache_key reverse_cache_key).

(** What one attempt of the search can do. *)
Lemma poi_attempt_spec (coords : Coord) (keyword : string) (radius_km : Z)
    (cache_key : string) (attempt : Z) (w w' : World) r :
  (0 <= attempt)%Z ->
  Services.poi_attempt Net Location reverse nominatim_search great_circle_km
    reverse_cache_key coords keyword radius_km cache_key attempt w = (r, w') ->
  effort ((3 # 2) + 5 * inject_Z (attempt + 1)) 2 w w' /\
  Services.stored_stops Net Location w' = Services.stored_stops Net Location w /\
  Services.geocode_cache Net Location w' = Services.geocode_cache Net Location w /\
  (forall e, r = Services.Thrown e -> is_caught e = false) /\
  (forall p, r = Services.Done (Services.Return p) ->
     Services.poi_cache Net Location w' cache_key = Some p /\
     poi_name p = Services.first_component (poi_address p)) /\
  (r = Services.Done Services.NextAttempt ->
     Services.poi_cache Net Location w' = Services.poi_cache Net Location w).
Proof.
  intros H0.
  assert (H1 : 1 <= inject_Z (attempt + 1)).
  { change 1 with (inject_Z 1). rewrite <- Zle_Qle. lia. }
  unfold Services.poi_attempt, Services.try_except, Services.bind, Services.sleep,
    Services.record, Services.call, Services.of_answer, Services.set_reverse_cache,
    Services.set_poi_cache, Services.ret, Services.raise.
  cbn [Services.net Services.reverse_cache Services.trace Services.poi_cache
       Services.geocode_cache Services.stored_stops].
  repeat match goal with
         | |- context [match Services.reverse_cache Net Location w ?k with _ => _ end] =>
             destruct (Services.reverse_cache Net Location w k);
             cbn [Services.net Services.reverse_cache Services.trace Services.poi_cache
                  Services.geocode_cache Services.stored_stops]
         | |- context [reverse ?c ?n] =>
             destruct (reverse c n) as [[[?|]|[]] ?];
             cbn [Services.net Services.reverse_cache Services.trace Services.poi_cache
                  Services.geocode_cache Services.stored_stops]
         | |- context [nominatim_search ?k ?b ?n] =>
             destruct (nominatim_search k b n) as [[[? [[|[[?|] [?|[]]] ?]|[]]]|[]] ?];
             cbn [Services.net Services.reverse_cache Services.trace Services.poi_cache
                  Services.geocode_cache Services.stored_stops Services.status_code
                  Services.json Services.display_name Services.position]
         | |- context [(?s =? 200)%Z] =>
             destruct (s =? 200)%Z;
             cbn [Services.net Services.reverse_cache Services.trace Services.poi_cache
                  Services.geocode_cache Services.stored_stops]
         | |- context [(?s =? 429)%Z] =>
             destruct (s =? 429)%Z;
             cbn [Services.net Services.reverse_cache Services.trace Services.poi_cache
                  Services.geocode_cache Services.stored_stops]
         end;
    intros [= <- <-];
    cbn [Services.net Services.reverse_cache Services.trace Services.poi_cache
         Services.geocode_cache Services.stored_stops];
    (split;
     [eexists; split; [rewrite <- ?app_assoc; reflexivity |];
      split; [cbn; unfold inject_Z in *; lra | cbn; lia]
     | split; [reflexivity |]; split; [reflexivity |];
       split; [intros e [= <-]; reflexivity || (intros e He; discriminate He) |];
       split; [intros p He; try discriminate He; injection He as <-;
               (split; [apply store_set_same | reflexivity])
              | intros He; try discriminate He; reflexivity]]).
Qed.

Lemma attempt_budget_nonneg (attempts : list Z) :
  Forall (fun attempt => (0 <= attempt)%Z) attempts -> 0 <= attempt_budget attempts.
Proof.
  induction 1 as [| a l Ha _ IH]; [apply Qle_refl |].
  cbn [attempt_budget fold_right]. fold (attempt_budget l).
  assert (0 <= inject_Z (a + 1)) by (change 0 with (inject_Z 0); rewrite <- Zle_Qle; lia).
  lra.
Qed.

Lemma poi_attempts_spec (coords : Coord) (keyword : string) (radius_km : Z)
    (cache_key : string) (attempts : list Z) :
  Forall (fun attempt => (0 <= attempt)%Z) attempts ->
  forall (w w' : World) r,
    Services.poi_attempts Net Location reverse nominatim_search great_circle_km
      reverse_cache_key coords keyword radius_km cache_key attempts w = (r, w') ->
    effort (attempt_budget attempts) (2 * List.length attempts) w w' /\
    Services.stored_stops Net Location w' = Services.stored_stops Net Location w /\
    Services.geocode_cache Net Location w' = Services.geocode_cache Net Location w /\
    (forall e, r = Services.Thrown e -> is_caught e = false) /\
    (forall p, r = Services.Done (Some p) ->
       Services.poi_cache Net Location w' cache_key = Some p) /\
    (r = Services.Done None ->
       Services.poi_cache Net Location w' = Services.poi_cache Net Location w).
Proof.
  induction 1 as [| attempt attempts Ha Hall IH]; intros w w' r;
    cbn [Services.poi_attempts].
  - intros [= <- <-]. split; [apply effort_refl |].
    repeat split; try reflexivity; intros; discriminate.
  - unfold Services.bind.
    destruct (Services.poi_attempt _ _ _ _ _ _ _ _ _ _ attempt w) as [v w1] eqn:E.
    apply (poi_attempt_spec _ _ _ _ _ _ _ _ Ha) in E.
    destruct E as [Ef [Es [Eg [Et [Er En]]]]].
    assert (Hb : attempt_budget (attempt :: attempts) ==
                 (3 # 2) + 5 * inject_Z (attempt + 1) + attempt_budget attempts)
      by reflexivity.
    destruct v as [[p |] | e].
    + intros [= <- <-]. split.
      * eapply effort_weaken; [exact Ef | | cbn; lia].
        rewrite Hb. pose proof (attempt_budget_nonneg attempts Hall). lra.
      * split; [exact Es |]. split; [exact Eg |].
        split; [intros e He; discriminate |].
        split; [intros p' [= <-]; apply (Er p); reflexivity | intros He; discriminate].
    + intros H. apply IH in H. destruct H as [Hf [Hs [Hg [Ht [Hr Hn]]]]].
      split; [eapply effort_weaken;
              [eapply effort_trans; [exact Ef | exact Hf] | rewrite Hb; lra | cbn; lia] |].
      split; [now rewrite Hs |]. split; [now rewrite Hg |].
      split; [exact Ht |]. split; [exact Hr |].
      intros He. rewrite (Hn He). now apply En.
    + intros [= <- <-]. split.
      * eapply effort_weaken; [exact Ef | | cbn; lia].
        rewrite Hb. pose proof (attempt_budget_nonneg attempts Hall). lra.
      * split; [exact Es |]. split; [exact Eg |].
        split; [intros e' [= <-]; now apply Et |].
        split; intros; discriminate.
Qed.

Lemma poi_keywords_spec (coords : Coord) (radius_km max_retries : Z)
    (keywords : list string) :
  forall (w w' : World) r,
    find_poi_near_location coords keywords radius_km max_retries w = (r, w') ->
    effort (inject_Z (Z.of_nat (List.length keywords)) *
            attempt_budget (py_range 0 max_retries))
           (List.length keywords * (2 * List.length (py_range 0 max_retries))) w w' /\
    Services.stored_stops Net Location w' = Services.stored_stops Net Location w /\
    Services.geocode_cache Net Location w' = Services.geocode_cache Net Location w /\
    (forall e, r = Services.Thrown e -> is_caught e = false) /\
    (forall p, r = Services.Done (Some p) ->
       exists keyword,
         In keyword keywords /\
         Services.poi_cache Net Location w'
           (poi_cache_key (Services.replace_spaces keyword) coords radius_km) = Some p) /\
    (r = Services.Done None ->
       Services.poi_cache Net Location w' = Services.poi_cache Net Location w).
Proof.
  unfold Services.find_poi_near_location.
  pose proof (attempt_budget_nonneg (py_range 0 max_retries) (py_range_lower 0 max_retries))
    as HB.
  set (B := attempt_budget (py_range 0 max_retries)) in *.
  set (m := List.length (py_range 0 max_retries)).
  induction keywords as [| keyword keywords IH]; intros w w' r;
    cbn [Services.poi_keywords].
  - intros [= <- <-]. split; [eapply effort_weaken; [apply effort_refl | | lia] |].
    + change (inject_Z (Z.of_nat (List.length (@nil string)))) with 0. lra.
    + repeat split; try reflexivity; intros; discriminate.
  - assert (EB : inject_Z (Z.of_nat (List.length (keyword :: keywords))) * B ==
                 B + inject_Z (Z.of_nat (List.length keywords)) * B).
    { cbn [List.length]. rewrite Nat2Z.inj_succ, <- Z.add_1_r, inject_Z_plus.
      change (inject_Z 1) with 1. ring. }
    assert (HK : 0 <= inject_Z (Z.of_nat (List.length keywords)) * B).
    { apply Qmult_le_0_compat; [| exact HB].
      change 0 with (inject_Z 0). rewrite <- Zle_Qle. lia. }
    destruct (Services.poi_cache Net Location w
                (poi_cache_key (Services.replace_spaces keyword) coords radius_km))
      as [cached |] eqn:Ec.
    + intros [= <- <-].
      split; [eapply effort_weaken; [apply effort_refl | rewrite EB; lra | lia] |].
      split; [reflexivity |]. split; [reflexivity |].
      split; [intros e He; discriminate |].
      split; [| intros He; discriminate].
      intros p [= <-]. exists keyword. split; [now left | exact Ec].
    + unfold Services.bind at 1.
      destruct (Services.poi_attempts _ _ _ _ _ _ _ _ _ _ _ w) as [found w1] eqn:E.
      apply poi_attempts_spec in E; [| apply py_range_lower].
      destruct E as [Ef [Es [Eg [Et [Er En]]]]]. fold B in Ef. fold m in Ef.
      destruct found as [[p |] | e].
      * intros [= <- <-].
        split; [eapply effort_weaken; [exact Ef | rewrite EB; lra | cbn [List.length]; lia] |].
        split; [exact Es |]. split; [exact Eg |].
        split; [intros e He; discriminate |].
        split; [| intros He; discriminate].
        intros p' [= <-]. exists keyword. split; [now left | now apply Er].
      * intros H. apply IH in H. destruct H as [Hf [Hs [Hg [Ht [Hr Hn]]]]].
        split; [eapply effort_weaken;
                [eapply effort_trans; [exact Ef | exact Hf] | rewrite EB; lra
                | cbn [List.length]; lia] |].
        split; [now rewrite Hs |]. split; [now rewrite Hg |].
        split; [exact Ht |].
        split.
        -- intros p Hp. destruct (Hr p Hp) as [k [Hin Hk]]. exists k.
           split; [now right | exact Hk].
        -- intros He. rewrite (Hn He). now apply En.
      * intros [= <- <-].
        split; [eapply effort_weaken; [exact Ef | rewrite EB; lra | cbn [List.length]; lia] |].
        split; [exact Es |]. split; [exact Eg |].
        split; [intros e' [= <-]; now apply Et |].
        split; intros; discriminate.
Qed.

(** X18.  With its three attempts a keyword, [find_poi_near_location]
    sleeps at most 34.5 seconds and makes at most six provider calls
    (three reverse lookups, three searches) for every keyword it is
    given, whatever the providers answer. *)
Theorem find_poi_effort_is_bounded (coords : Coord) (keywords : list string)
    (radius_km : Z) (w w' : World) r :
  find_poi_near_location coords keywords radius_km 3 w = (r, w') ->
  effort (inject_Z (Z.of_nat (List.length keywords)) * (69 # 2))
         (6 * List.length keywords) w w'.
Proof.
  intros H. apply poi_keywords_spec in H. destruct H as [H _].
  eapply effort_weaken; [exact H | |].
  - assert (E : attempt_budget (py_range 0 3) == 69 # 2) by (vm_compute; reflexivity).
    rewrite E. apply Qle_refl.
  - change (List.length (py_range 0 3)) with 3%nat. lia.
Qed.

(** X19.  A point of interest that [find_poi_near_location] returns is
    in the cache under the key of one of the keywords, and asking again
    with that keyword first is answered from the cache: the same point,
    no call, no sleep, the world as it was. *)
Theorem find_poi_result_is_cached (coords : Coord) (keywords : list string)
    (radius_km max_retries : Z) (w w' : World) (p : PointOfInterest) :
  find_poi_near_location coords keywords radius_km max_retries w =
    (Services.Done (Some p), w') ->
  exists keyword,
    In keyword keywords /\
    Services.poi_cache Net Location w'
      (poi_cache_key (Services.replace_spaces keyword) coords radius_km) = Some p /\
    forall others retries,
      find_poi_near_location coords (keyword :: others) radius_km retries w' =
      (Services.Done (Some p), w').
Proof.
  intros H. apply poi_keywords_spec in H.
  destruct H as [_ [_ [_ [_ [H _]]]]].
  destruct (H p eq_refl) as [keyword [Hin Hc]].
  exists keyword. split; [exact Hin |]. split; [exact Hc |].
  intros others retries. unfold Services.find_poi_near_location.
  cbn [Services.poi_keywords]. now rewrite Hc.
Qed.

(** X20.  [find_poi_near_location] never raises a [RequestException],
    a [KeyError] or a [ValueError]: those it retries on, and only other
    exceptions of the providers get out.  It never touches the stored
    stops or the geocoding cache, and when it finds nothing it leaves
    the cache of points of interest as it was. *)
Theorem find_poi_raises_only_the_uncaught (coords : Coord) (keywords : list string)
    (radius_km max_retries : Z) (w w' : World) r :
  find_poi_near_location coords keywords radius_km max_retries w = (r, w') ->
  (forall e, r = Services.Thrown e -> is_caught e = false) /\
  Services.stored_stops Net Location w' = Services.stored_stops Net Location w /\
  Services.geocode_cache Net Location w' = Services.geocode_cache Net Location w /\
  (r = Services.Done None ->
   Services.poi_cache Net Location w' = Services.poi_cache Net Location w).
Proof.
  intros H. apply poi_keywords_spec in H.
  destruct H as [_ [Hs [Hg [Ht [_ Hn]]]]]. auto.
Qed.

Abbreviation estimate_distance :=
  (Services.estimate_distance Net Location pelias_search great_circle_miles).

Lemma geocode_retry_effort (a : string) (w w' : World) r :
  geocode_location_with_retry a 3 w = (r, w') -> effort 3 3 w w'.
Proof.
  intros H. apply geocode_retry_spec in H.
  destruct H as [[added [Ht [Hs [Hc _]]]] _]. exists added. auto.
Qed.

Lemma geocode_retry_stored (a : string) (w w' : World) r :
  geocode_location_with_retry a 3 w = (r, w') ->
  Services.stored_stops Net Location w' = Services.stored_stops Net Location w.
Proof. intros H. now apply geocode_retry_spec in H. Qed.

(** X21.  [estimate_distance] never raises: it returns 500 when one of
    the three geocodings fails after its retries, and otherwise the two
    great-circle legs added and rounded to the hundredth; either way it
    makes at most nine geocoder calls and sleeps at most nine seconds. *)
Theorem estimate_distance_never_raises (current_loc pickup_loc dropoff_loc : string)
    (w : World) :
  exists q w',
    estimate_distance current_loc pickup_loc dropoff_loc w = (Services.Done q, w') /\
    effort 9 9 w w' /\
    ((q = 500 /\
      exists e w1 w2 w3,
        (geocode_location_with_retry current_loc 3 w = (Services.Thrown e, w3) \/
         (exists c, geocode_location_with_retry current_loc 3 w = (Services.Done c, w1)) /\
         (geocode_location_with_retry pickup_loc 3 w1 = (Services.Thrown e, w3) \/
          (exists c, geocode_location_with_retry pickup_loc 3 w1 = (Services.Done c, w2)) /\
          geocode_location_with_retry dropoff_loc 3 w2 = (Services.Thrown e, w3)))) \/
     exists cur_coords pickup_coords drop_coords w1 w2,
       geocode_location_with_retry current_loc 3 w = (Services.Done cur_coords, w1) /\
       geocode_location_with_retry pickup_loc 3 w1 = (Services.Done pickup_coords, w2) /\
       geocode_location_with_retry dropoff_loc 3 w2 = (Services.Done drop_coords, w') /\
       q = py_round2 (great_circle_miles cur_coords pickup_coords +
                      great_circle_miles pickup_coords drop_coords)).
Proof.
  unfold Services.estimate_distance, Services.try_except, Services.bind.
  destruct (geocode_location_with_retry current_loc 3 w) as [[c1 | e1] w1] eqn:E1.
  2: { eexists _, _. split; [reflexivity |].
       split; [eapply effort_weaken;
               [eapply geocode_retry_effort; exact E1 | lra | lia] |].
       left. split; [reflexivity |]. exists e1, w1, w1, w1. now left. }
  destruct (geocode_location_with_retry pickup_loc 3 w1) as [[c2 | e2] w2] eqn:E2.
  2: { eexists _, _. split; [reflexivity |].
       split; [eapply effort_weaken;
               [eapply effort_trans; eapply geocode_retry_effort; eassumption
               | lra | lia] |].
       left. split; [reflexivity |]. exists e2, w1, w2, w2.
       right. split; [eauto |]. now left. }
  destruct (geocode_location_with_retry dropoff_loc 3 w2) as [[c3 | e3] w3] eqn:E3.
  2: { eexists _, _. split; [reflexivity |].
       split; [eapply effort_weaken;
               [eapply effort_trans;
                [eapply effort_trans; eapply geocode_retry_effort; eassumption
                | eapply geocode_retry_effort; eassumption]
               | lra | lia] |].
       left. split; [reflexivity |]. exists e3, w1, w2, w3.
       right. split; [eauto |]. right. split; [eauto | exact E3]. }
  eexists _, _. split; [reflexivity |].
  split; [eapply effort_weaken;
          [eapply effort_trans;
           [eapply effort_trans; eapply geocode_retry_effort; eassumption
           | eapply geocode_retry_effort; eassumption]
          | lra | lia] |].
  right. exists c1, c2, c3, w1, w2. auto.
Qed.

Abbreviation get_route_with_waypoints :=
  (Services.get_route_with_waypoints Net Location directions).
Abbreviation get_route_and_distance :=
  (Services.get_route_and_distance Net Location directions).

Lemma get_route_with_waypoints_spec (points : list Coord) (w w' : World) r :
  get_route_with_waypoints points w = (r, w') ->
  Services.trace Net Location w' =
    Services.trace Net Location w ++
    [Services.Directions (map (fun p => (snd p, fst p)) points)
                         (3 <? List.length points)%nat] /\
  Services.stored_stops Net Location w' = Services.stored_stops Net Location w /\
  (forall e, r = Services.Thrown e -> is_value_error e = true) /\
  (forall rd, r = Services.Done rd ->
     Services.waypoints rd = points /\
     exists response n,
       directions (map (fun p => (snd p, fst p)) points) (3 <? List.length points)%nat
                  (Services.net Net Location w) = (Services.Done response, n) /\
       Services.distance_miles rd =
         py_round2 (Services.distance_m response / (160934 # 100)) /\
       Services.geometry rd = Services.response_geometry response).
Proof.
  unfold Services.get_route_with_waypoints, Services.try_except, Services.bind,
    Services.record, Services.call, Services.ret, Services.raise.
  cbn [Services.net Services.trace]. rewrite length_map.
  destruct (directions _ _ (Services.net Net Location w)) as [[response | e] n] eqn:E.
  - intros [= <- <-]. cbn. split; [reflexivity |]. split; [reflexivity |].
    split; [intros e He; discriminate |].
    intros rd [= <-]. split; [reflexivity |]. exists response, n. auto.
  - destruct e; intros [= <- <-]; cbn; (split; [reflexivity |]);
      (split; [reflexivity |]);
      (split; [intros e' [= <-]; reflexivity | intros rd He; discriminate]).
Qed.

(** X22.  [get_route_with_waypoints] makes one routing call, with the
    waypoints swapped to (longitude, latitude) and waypoint optimisation
    asked for only when there are more than three of them; whatever the
    call raises comes out as [ValueError]; and what it returns keeps the
    waypoints as given, with the metres of the answer turned into miles
    rounded to the hundredth. *)
Theorem get_route_with_waypoints_outcomes (points : list Coord) (w w' : World) r :
  get_route_with_waypoints points w = (r, w') ->
  Services.trace Net Location w' =
    Services.trace Net Location w ++
    [Services.Directions (map (fun p => (snd p, fst p)) points)
                         (3 <? List.length points)%nat] /\
  ((List.length points <= 3)%nat -> (3 <? List.length points)%nat = false) /\
  (forall e, r = Services.Thrown e -> is_value_error e = true) /\
  (forall rd, r = Services.Done rd ->
     Services.waypoints rd = points /\
     exists response n,
       directions (map (fun p => (snd p, fst p)) points) (3 <? List.length points)%nat
                  (Services.net Net Location w) = (Services.Done response, n) /\
       Services.distance_miles rd =
         py_round2 (Services.distance_m response / (160934 # 100)) /\
       Services.geometry rd = Services.response_geometry response).
Proof.
  intros H. apply get_route_with_waypoints_spec in H.
  destruct H as [Ht [_ [He Hd]]].
  split; [exact Ht |]. split; [| auto].
  intros Hl. apply Nat.ltb_ge. exact Hl.
Qed.

(** X23.  [get_route_and_distance] makes the routing call that
    [get_route_with_waypoints] makes for the same two points and, when
    the call answers, returns the same miles and geometry; but where
    [get_route_with_waypoints] turns every exception of the call into
    [ValueError], it does so for [ApiError] only and lets every other
    exception out as it is. *)
Theorem get_route_and_distance_lets_errors_out (origin destination : Coord) (w : World) :
  snd (get_route_and_distance origin destination w) =
  snd (get_route_with_waypoints [origin; destination] w) /\
  (forall rd, fst (get_route_and_distance origin destination w) = Services.Done rd ->
     exists rd',
       fst (get_route_with_waypoints [origin; destination] w) = Services.Done rd' /\
       Services.distance_miles rd' = Services.distance_miles rd /\
       Services.geometry rd' = Services.geometry rd) /\
  (forall e n,
     directions [(snd origin, fst origin); (snd destination, fst destination)] false
                (Services.net Net Location w) = (Services.Thrown e, n) ->
     (exists e', fst (get_route_with_waypoints [origin; destination] w) = Services.Thrown e' /\
                 is_value_error e' = true) /\
     match e with
     | Services.ApiError m =>
         fst (get_route_and_distance origin destination w) =
         Services.Thrown (Services.PyValueError ("Routing failed: " ++ m))
     | _ => fst (get_route_and_distance origin destination w) = Services.Thrown e
     end).
Proof.
  unfold Services.get_route_and_distance, Services.get_route_with_waypoints,
    Services.try_except, Services.bind, Services.record, Services.call,
    Services.ret, Services.raise.
  cbn [Services.net Services.trace map fst snd List.length Nat.ltb Nat.leb].
  destruct (directions _ false (Services.net Net Location w)) as [[response | e] n] eqn:E.
  - cbn. split; [reflexivity |]. split; [| intros e n' He; discriminate].
    intros rd [= <-]. eexists. split; [reflexivity |]. split; reflexivity.
  - destruct e; cbn; (split; [reflexivity |]);
      (split; [intros rd He; discriminate |]); intros e' n' [= <- <-];
      (split; [eexists; split; reflexivity | reflexivity]).
Qed.

End ServiceFacts.

(** ** The services on the sample providers *)

(** X15 on two spellings of one town. *)
Lemma geocode_location_answers_from_cache_witness :
  let w1 := snd (Services.geocode_location nat string sample_pelias
                   "St. Louis, MO"%string fresh_world) in
  Services.geocode_cache nat string w1 (make_cache_key "St. Louis, MO"%string) =
    Some st_louis /\
  Services.geocode_location nat string sample_pelias "st. louis; mo"%string w1 =
    (Services.Done st_louis, w1).
Proof.
  apply (geocode_location_answers_from_cache nat string sample_pelias
           "St. Louis, MO"%string "st. louis; mo"%string fresh_world).
  - reflexivity.
  - apply make_cache_key_eq_iff. reflexivity.
Defined.

(** X16 on a geocoder that times out. *)
Lemma geocode_location_outcomes_witness :
  let run := Services.geocode_location nat string failing_pelias "Nowhere"%string
               fresh_world in
  fst run = Services.Thrown
              (Services.PyValueError "Geocoding failed for Nowhere: timed out") /\
  effort 0 1 fresh_world (snd run) /\
  (forall e, fst run = Services.Thrown e ->
     is_value_error e = true /\
     Services.geocode_cache nat string (snd run) =
     Services.geocode_cache nat string fresh_world).
Proof.
  intros run. split; [reflexivity |].
  destruct (geocode_location_outcomes nat string failing_pelias "Nowhere"%string fresh_world
              (snd run) (fst run) (surjective_pairing run)) as [He [Ht _]].
  split; [exact He | exact Ht].
Defined.

(** X17 on a geocoder that times out. *)
Lemma geocode_retry_outcomes_witness :
  let run := Services.geocode_location_with_retry nat string failing_pelias
               "Nowhere"%string 3 fresh_world in
  fst run = Services.Thrown
              (Services.PyValueError "Geocoding failed for Nowhere: timed out") /\
  exists added,
    Services.trace nat string (snd run) = Services.trace nat string fresh_world ++ added /\
    slept added <= 3 /\ (calls added <= 3)%nat /\
    (forall e, fst run = Services.Thrown e ->
       is_value_error e = true /\ slept added == 3 /\ calls added = 3%nat) /\
    (forall c, fst run = Services.Done c ->
       Services.geocode_cache nat string (snd run) (make_cache_key "Nowhere"%string) =
       Some c).
Proof.
  intros run. split; [reflexivity |].
  exact (proj1 (geocode_retry_outcomes nat string failing_pelias "Nowhere"%string
                  fresh_world (snd run) (fst run) (surjective_pairing run))).
Defined.

(** X18 on a search service that answers 429 every time. *)
Lemma find_poi_effort_is_bounded_witness :
  let run := Services.find_poi_near_location nat string sample_reverse busy_nominatim
               sample_great_circle sample_poi_key sample_reverse_key
               st_louis Planner.fuel_keywords 10 3 fresh_world in
  fst run = Services.Done None /\
  effort (inject_Z (Z.of_nat (List.length Planner.fuel_keywords)) * (69 # 2))
         (6 * List.length Planner.fuel_keywords) fresh_world (snd run).
Proof.
  intros run. split; [vm_compute; reflexivity |].
  exact (find_poi_effort_is_bounded nat string sample_reverse busy_nominatim
           sample_great_circle sample_poi_key sample_reverse_key
           st_louis Planner.fuel_keywords 10 fresh_world (snd run) (fst run)
           (surjective_pairing run)).
Defined.

(** X19 on a search that finds a truck plaza. *)
Lemma find_poi_result_is_cached_witness :
  let find := Services.find_poi_near_location nat string sample_reverse sample_nominatim
                sample_great_circle sample_poi_key sample_reverse_key in
  let p := {| poi_name := "Truck Plaza"; poi_address := "Truck Plaza, Main Street";
              poi_coordinates := (3863 # 100, -(9017 # 100)); poi_distance_km := 250 |} in
  let w' := snd (find st_louis ["truck stop"%string; "fuel"%string] 10%Z 3%Z fresh_world) in
  find st_louis ["truck stop"%string; "fuel"%string] 10%Z 3%Z fresh_world =
    (Services.Done (Some p), w') /\
  exists keyword,
    In keyword ["truck stop"%string; "fuel"%string] /\
    Services.poi_cache nat string w'
      (sample_poi_key (Services.replace_spaces keyword) st_louis 10) = Some p /\
    forall others retries,
      find st_louis (keyword :: others) 10%Z retries w' = (Services.Done (Some p), w').
Proof.
  intros find p w'.
  assert (H : find st_louis ["truck stop"%string; "fuel"%string] 10%Z 3%Z fresh_world =
              (Services.Done (Some p), w')) by reflexivity.
  split; [exact H |].
  exact (find_poi_result_is_cached nat string sample_reverse sample_nominatim
           sample_great_circle sample_poi_key sample_reverse_key
           st_louis ["truck stop"%string; "fuel"%string] 10 3 fresh_world w' p H).
Defined.

(** X20 on a search service that answers 429 every time. *)
Lemma find_poi_raises_only_the_uncaught_witness :
  let run := Services.find_poi_near_location nat string sample_reverse busy_nominatim
               sample_great_circle sample_poi_key sample_reverse_key
               st_louis Planner.rest_keywords 20 3 fresh_world in
  fst run = Services.Done None /\
  (forall e, fst run = Services.Thrown e -> is_caught e = false) /\
  Services.stored_stops nat string (snd run) = Services.stored_stops nat string fresh_world /\
  Services.geocode_cache nat string (snd run) =
    Services.geocode_cache nat string fresh_world /\
  (fst run = Services.Done None ->
   Services.poi_cache nat string (snd run) = Services.poi_cache nat string fresh_world).
Proof.
  intros run. split; [vm_compute; reflexivity |].
  exact (find_poi_raises_only_the_uncaught nat string sample_reverse busy_nominatim
           sample_great_circle sample_poi_key sample_reverse_key
           st_louis Planner.rest_keywords 20 3 fresh_world (snd run) (fst run)
           (surjective_pairing run)).
Defined.

(** X22 on three waypoints and a route of 1609340 metres. *)
Lemma get_route_with_waypoints_outcomes_witness :
  let points := [st_louis; (3910 # 100, -(9458 # 100)); (3974 # 100, -(10499 # 100))] in
  let run := Services.get_route_with_waypoints nat string sample_directions points
               fresh_world in
  fst run = Services.Done {| Services.distance_miles := 100000 # 100;
                             Services.geometry := None;
                             Services.waypoints := points |} /\
  Services.trace nat string (snd run) =
    Services.trace nat string fresh_world ++
    [Services.Directions (map (fun p => (snd p, fst p)) points)
                         (3 <? List.length points)%nat] /\
  ((List.length points <= 3)%nat -> (3 <? List.length points)%nat = false) /\
  (forall e, fst run = Services.Thrown e -> is_value_error e = true).
Proof.
  intros points run. split; [vm_compute; reflexivity |].
  destruct (get_route_with_waypoints_outcomes nat string sample_directions points
              fresh_world (snd run) (fst run) (surjective_pairing run))
    as [Ht [Hl [He _]]].
  split; [exact Ht |]. split; [exact Hl | exact He].
Defined.

(** ** The request as a whole *)

(** What the planner's providers leave alone, the planner leaves
    alone. *)
Section PlannerFrame.

Variable World : Type.
Variable geocode_location : string -> Planner.M World Coord.
Variable find_poi_near_location :
  Coord -> list string -> Z -> Planner.M World (option PointOfInterest).
Variable R : World -> World -> Prop.

Hypothesis R_refl : forall w, R w w.
Hypothesis R_trans : forall w1 w2 w3, R w1 w2 -> R w2 w3 -> R w1 w3.
Hypothesis geocode_frame : forall a w r w', geocode_location a w = (r, w') -> R w w'.
Hypothesis find_poi_frame :
  forall c k r0 w r w', find_poi_near_location c k r0 w = (r, w') -> R w w'.

Abbreviation frames := (preserves R).

Lemma frames_ret {A : Type} (a : A) : frames (Planner.ret World a).
Proof. intros w r w' [= _ <-]. apply R_refl. Qed.

Lemma frames_raise {A : Type} (e : exn) : frames (@Planner.raise World A e).
Proof. intros w r w' [= _ <-]. apply R_refl. Qed.

Lemma frames_bind {A B : Type} (c : Planner.M World A) (k : A -> Planner.M World B) :
  frames c -> (forall a, frames (k a)) -> frames (Planner.bind World c k).
Proof.
  intros Hc Hk w r w' E. unfold Planner.bind in E.
  destruct (c w) as [[a | e] w1] eqn:Ec.
  - eapply R_trans; [eapply Hc; exact Ec | eapply Hk; exact E].
  - injection E as _ <-. eapply Hc. exact Ec.
Qed.

Lemma frames_try {A : Type} (c : Planner.M World A) (h : exn -> Planner.M World A) :
  frames c -> (forall e, frames (h e)) -> frames (Planner.try_except World c h).
Proof.
  intros Hc Hh w r w' E. unfold Planner.try_except in E.
  destruct (c w) as [[a | e] w1] eqn:Ec.
  - injection E as _ <-. eapply Hc. exact Ec.
  - eapply R_trans; [eapply Hc; exact Ec | eapply Hh; exact E].
Qed.

Lemma frames_search_ladder (coords : Coord) (keywords : list string) (radii : list Z) :
  frames (Planner.search_ladder World find_poi_near_location coords keywords radii).
Proof.
  induction radii as [| radius radii IH]; cbn [Planner.search_ladder].
  - apply frames_ret.
  - apply frames_bind; [intros w r w'; apply find_poi_frame |].
    intros [p |]; [apply frames_ret | exact IH].
Qed.

Lemma frames_interpolate (route_coords : RouteGeometry) (progress : Q) :
  frames (Planner.interpolate World route_coords progress).
Proof.
  unfold Planner.interpolate, Planner.interpolate_at.
  destruct (nth_error _ _) as [[lon lat] |]; [apply frames_ret | apply frames_raise].
Qed.

Lemma frames_place_stops (marker : Z -> Q) (cutoff : Q) (keywords : list string)
    (make : Z -> Q -> Coord -> option (PointOfInterest * Z) -> Z -> Stop)
    (total_miles : Q) (route_coords : RouteGeometry) (indices : list Z) :
  forall seqno stops,
    frames (Planner.place_stops World find_poi_near_location marker cutoff keywords make
              total_miles route_coords indices seqno stops).
Proof.
  induction indices as [| i indices IH]; intros seqno stops; cbn [Planner.place_stops].
  - apply frames_ret.
  - destruct (Qle_bool _ _); [apply frames_ret |].
    apply frames_bind.
    + unfold Planner.py_div. destruct (Qeq_bool _ _); [apply frames_raise | apply frames_ret].
    + intros progress. apply frames_bind; [apply frames_interpolate |].
      intros coords. apply frames_bind; [apply frames_search_ladder |].
      intros poi. apply IH.
Qed.

Lemma frames_calculate_stops_with_fallback (t : Trip) (total_miles : Q)
    (route_geometry : option RouteGeometry) :
  frames (Planner.calculate_stops_with_fallback World geocode_location
            find_poi_near_location t total_miles route_geometry).
Proof.
  assert (G : forall a, frames (geocode_location a)).
  { intros a w r w'. apply geocode_frame. }
  unfold Planner.calculate_stops_with_fallback.
  apply frames_try; [| intros e; apply frames_ret].
  apply frames_bind.
  2: { intros stops. destruct (_ <? _)%nat; [apply frames_raise | apply frames_ret]. }
  unfold Planner.calculate_stop_points. apply frames_try.
  - unfold Planner.calculate_stop_points_try.
    destruct route_geometry as [route_coords |]; [| apply frames_raise].
    destruct (_ <? _)%Z; [apply frames_raise |].
    apply frames_bind; [apply G |]. intros pickup_coords.
    apply frames_bind; [apply frames_place_stops |]. intros placed.
    apply frames_bind; [apply frames_place_stops |]. intros placed'.
    apply frames_bind; [apply G |]. intros dropoff_coords. apply frames_ret.
  - intros e. unfold Planner.calculate_stop_points_except.
    apply frames_bind; [apply G |]. intros pickup_coords.
    apply frames_bind; [apply G |]. intros dropoff_coords. apply frames_ret.
Qed.

End PlannerFrame.
Section ViewFacts.

Variable Net : Type.
Variable Location : Type.
Variable pelias_search : string -> Net -> Services.answer (list (list Q)) * Net.
Variable directions :
  list Coord -> bool -> Net -> Services.answer Services.RouteResponse * Net.
Variable reverse : Coord -> Net -> Services.answer (option Location) * Net.
Variable nominatim_search :
  string -> (Q * Q) * (Q * Q) -> Net -> Services.answer Services.HttpResponse * Net.
Variable great_circle_miles : Coord -> Coord -> Q.
Variable great_circle_km : Coord -> Coord -> Q.
Variable poi_cache_key : string -> Coord -> Z -> string.
Variable reverse_cache_key : Coord -> string.
Variable today : Z.

Abbreviation World := (Services.World Net Location).
Abbreviation stored := (Services.stored_stops Net Location).
Abbreviation retry := (Services.geocode_location_with_retry Net Location pelias_search).
Abbreviation route_phase := (Views.route_phase Net Location pelias_search directions).
Abbreviation plan_stops :=
  (Views.calculate_stops_with_fallback Net Location pelias_search reverse nominatim_search
     great_circle_km poi_cache_key reverse_cache_key).
Abbreviation on_failure :=
  (Views.on_failure Net Location pelias_search great_circle_miles).
Abbreviation attempt :=
  (Views.attempt Net Location pelias_search directions reverse nominatim_search
     great_circle_miles great_circle_km poi_cache_key reverse_cache_key).
Abbreviation plan_loop :=
  (Views.plan_loop Net Location pelias_search directions reverse nominatim_search
     great_circle_miles great_circle_km poi_cache_key reverse_cache_key).
Abbreviation post :=
  (Views.post Net Location pelias_search directions reverse nominatim_search
     great_circle_miles great_circle_km poi_cache_key reverse_cache_key today).

Lemma estimate_distance_done (a b c : string) (w : World) :
  exists q w',
    Services.estimate_distance Net Location pelias_search great_circle_miles a b c w =
      (Services.Done q, w') /\
    stored w' = stored w.
Proof.
  unfold Services.estimate_distance, Services.try_except, Services.bind, Services.ret.
  destruct (retry a 3 w) as [[c1 | e1] w1] eqn:E1; apply geocode_retry_stored in E1.
  2: { eexists _, _. split; [reflexivity | exact E1]. }
  destruct (retry b 3 w1) as [[c2 | e2] w2] eqn:E2; apply geocode_retry_stored in E2.
  2: { eexists _, _. split; [reflexivity | congruence]. }
  destruct (retry c 3 w2) as [[c3 | e3] w3] eqn:E3; apply geocode_retry_stored in E3.
  2: { eexists _, _. split; [reflexivity | congruence]. }
  eexists _, _. split; [reflexivity | congruence].
Qed.

Lemma route_phase_stored (t : Trip) (w w' : World) r :
  route_phase t w = (r, w') -> stored w' = stored w.
Proof.
  unfold Views.route_phase, Services.bind.
  destruct (retry (current_location t) 3 w) as [[c1 | e1] w1] eqn:E1;
    apply geocode_retry_stored in E1; [| intros [= _ <-]; exact E1].
  destruct (retry (pickup_location t) 3 w1) as [[c2 | e2] w2] eqn:E2;
    apply geocode_retry_stored in E2; [| intros [= _ <-]; congruence].
  destruct (retry (dropoff_location t) 3 w2) as [[c3 | e3] w3] eqn:E3;
    apply geocode_retry_stored in E3; [| intros [= _ <-]; congruence].
  intros E. apply get_route_with_waypoints_spec in E. destruct E as [_ [E _]]. congruence.
Qed.

(** The wrapper of the view always returns an itinerary, and stores
    nothing. *)
Lemma plan_stops_spec (t : Trip) (total_miles : Q) (route_geometry : option RouteGeometry)
    (w w' : World) r :
  plan_stops t total_miles route_geometry w = (r, w') ->
  exists stops, r = Services.Done stops /\ itinerary_ok stops /\ stored w' = stored w.
Proof.
  unfold Views.calculate_stops_with_fallback, Views.of_planner. intros E.
  destruct (calculate_stops_with_fallback_ok (Views.World Net Location)
              (Views.planner_geocode Net Location pelias_search)
              (Views.planner_find_poi Net Location reverse nominatim_search great_circle_km
                 poi_cache_key reverse_cache_key)
              t total_miles route_geometry w) as [stops [w1 [Ep Hi]]].
  pose proof (frames_calculate_stops_with_fallback (Views.World Net Location)
                (Views.planner_geocode Net Location pelias_search)
                (Views.planner_find_poi Net Location reverse nominatim_search great_circle_km
                   poi_cache_key reverse_cache_key)
                (fun w0 w1 => stored w1 = stored w0)) as F.
  rewrite Ep in E. injection E as <- <-. exists stops. split; [reflexivity |].
  split; [exact Hi |].
  eapply F; [reflexivity | intros; congruence | | | exact Ep].
  - intros a w0 r0 w0'. unfold Views.planner_geocode, Views.to_planner.
    destruct (Services.geocode_location Net Location pelias_search a w0) as [[c | e] w2] eqn:G;
      intros [= _ <-]; eapply geocode_location_stored; exact G.
  - intros c k r0 w0 r1 w0'. unfold Views.planner_find_poi, Views.to_planner.
    destruct (Services.find_poi_near_location Net Location reverse nominatim_search
                great_circle_km poi_cache_key reverse_cache_key c k r0 3 w0)
      as [[p | e] w2] eqn:G; intros [= _ <-]; apply poi_keywords_spec in G; apply G.
Qed.

Lemma on_failure_spec (t : Trip) (s : Views.Locals) (w : World) :
  exists s' w',
    on_failure t s w = (Services.Done s', w') /\
    stored w' = stored w /\
    Views.retry_count s' = (Views.retry_count s + 1)%Z /\
    Views.route_data s' = Views.route_data s /\
    ((3 <= Views.retry_count s + 1)%Z /\
     Views.planned s' = Planner.create_basic_trip_stops t /\
     (exists q, Views.miles s' = Some q) \/
     (Views.retry_count s + 1 < 3)%Z /\
     Views.planned s' = Views.planned s /\ Views.miles s' = Views.miles s).
Proof.
  unfold Views.on_failure.
  destruct (3 <=? Views.retry_count s + 1)%Z eqn:E.
  - apply Z.leb_le in E. unfold Services.bind.
    destruct (estimate_distance_done (current_location t) (pickup_location t)
                (dropoff_location t) w) as [q [w' [Eq Hs]]].
    rewrite Eq. eexists _, _. split; [reflexivity |]. cbn.
    split; [exact Hs |]. split; [reflexivity |]. split; [reflexivity |].
    left. split; [exact E |]. split; [reflexivity | eauto].
  - apply Z.leb_gt in E. eexists _, _. split; [reflexivity |]. cbn.
    split; [reflexivity |]. split; [reflexivity |]. split; [reflexivity |].
    right. auto.
Qed.

(** One turn of the loop: the route and the plan succeed and the stops
    are stored, or the route raises and the handler takes over. *)
Lemma attempt_spec (t : Trip) (s : Views.Locals) (w w' : World) r :
  attempt t s w = (r, w') ->
  (exists rd stops w1 w2,
     route_phase t w = (Services.Done rd, w1) /\
     plan_stops t (Services.distance_miles rd) (Services.geometry rd) w1 =
       (Services.Done stops, w2) /\
     itinerary_ok stops /\
     r = Services.Done {| Views.retry_count := Views.retry_count s;
                          Views.route_data := Some rd;
                          Views.planned := stops;
                          Views.miles := Some (Services.distance_miles rd) |} /\
     stored w' = stored w ++ stops) \/
  (exists e w1,
     route_phase t w = (Services.Thrown e, w1) /\ stored w1 = stored w /\
     on_failure t s w1 = (r, w')).
Proof.
  unfold Views.attempt.
  destruct (route_phase t w) as [[rd | e] w1] eqn:E1.
  2: { intros E. right. exists e, w1. split; [reflexivity |].
       split; [eapply route_phase_stored; exact E1 | exact E]. }
  apply route_phase_stored in E1.
  destruct (plan_stops t (Services.distance_miles rd) (Services.geometry rd) w1)
    as [r2 w2] eqn:E2.
  destruct (plan_stops_spec _ _ _ _ _ _ E2) as [stops [-> [Hi Hs]]].
  unfold Views.bulk_create. intros [= <- <-]. left.
  exists rd, stops, w1, w2. split; [reflexivity |]. split; [exact E2 |].
  split; [exact Hi |]. split; [reflexivity |]. cbn. congruence.
Qed.

(** What the loop ends in: a route and its stored itinerary before the
    third failure, or the basic stops and an estimate after it. *)
Lemma plan_loop_spec (t : Trip) (n : nat) :
  forall (s : Views.Locals) (w0 w w' : World) r,
    Views.route_data s = None ->
    (Views.retry_count s + Z.of_nat n = 3)%Z ->
    (Views.retry_count s = 3%Z ->
     Views.planned s = Planner.create_basic_trip_stops t /\
     exists q, Views.miles s = Some q) ->
    stored w = stored w0 ->
    plan_loop n t s w = (r, w') ->
    exists s',
      r = Services.Done (Some s') /\
      ((Views.retry_count s' < 3)%Z /\
       (exists rd wa wb,
          route_phase t wa = (Services.Done rd, wb) /\
          Views.route_data s' = Some rd /\
          Views.miles s' = Some (Services.distance_miles rd)) /\
       itinerary_ok (Views.planned s') /\
       stored w' = stored w0 ++ Views.planned s' \/
       Views.retry_count s' = 3%Z /\
       Views.route_data s' = None /\
       Views.planned s' = Planner.create_basic_trip_stops t /\
       (exists q, Views.miles s' = Some q) /\
       stored w' = stored w0).
Proof.
  induction n as [| n IH]; intros s w0 w w' r Hr Hn H3 Hw E; cbn [Views.plan_loop] in E.
  - assert (Hc : Views.retry_count s = 3%Z) by lia.
    rewrite Hc, Hr in E. cbn in E. injection E as <- <-.
    exists s. split; [reflexivity |]. right. destruct (H3 Hc) as [Hp Hq].
    repeat split; assumption.
  - assert (Hc : (Views.retry_count s <? 3)%Z = true) by (apply Z.ltb_lt; lia).
    rewrite Hc, Hr in E. cbn [andb] in E. unfold Services.bind in E.
    destruct (attempt t s w) as [r1 w1] eqn:Ea.
    apply attempt_spec in Ea.
    destruct Ea as [[rd [stops [wa [wb [Er [_ [Hi [-> Hs]]]]]]]] | [e [wa [_ [Hsa Ef]]]]].
    + destruct n as [| n]; cbn [Views.plan_loop Views.retry_count Views.route_data] in E;
        rewrite Hc in E; cbn in E; injection E as <- <-;
        (eexists; split; [reflexivity |]); left;
        (split; [cbn; lia |]); cbn;
        (split; [exists rd, w, wa; auto |]);
        (split; [exact Hi | rewrite <- Hw; exact Hs]).
    + destruct (on_failure_spec t s wa) as [s1 [w2 [Ef' [Hs2 [Hrc [Hrd Hcase]]]]]].
      rewrite Ef' in Ef. injection Ef as <- <-.
      eapply (IH s1 w0 w2 w' r); [congruence | lia | | congruence | exact E].
      intros H. destruct Hcase as [[_ [Hp Hq]] | [Hlt _]]; [auto | lia].
Qed.

Lemma plan_loop_from_the_start (t : Trip) (w w' : World) r :
  plan_loop 3 t Views.initial w = (r, w') ->
  exists s,
    r = Services.Done (Some s) /\
    ((Views.retry_count s < 3)%Z /\
     (exists rd wa wb,
        route_phase t wa = (Services.Done rd, wb) /\
        Views.route_data s = Some rd /\
        Views.miles s = Some (Services.distance_miles rd)) /\
     itinerary_ok (Views.planned s) /\
     stored w' = stored w ++ Views.planned s \/
     Views.retry_count s = 3%Z /\
     Views.route_data s = None /\
     Views.planned s = Planner.create_basic_trip_stops t /\
     (exists q, Views.miles s = Some q) /\
     stored w' = stored w).
Proof.
  apply plan_loop_spec; [reflexivity | reflexivity | discriminate | reflexivity].
Qed.

(** X24.  Whatever the geocoder, the router and the search for points
    of interest do - answer, raise, time out - the request is answered,
    and the answer is a success unless the driver's cycle is used up:
    with 70 hours or more it is the error [Driver has already exceeded
    70-hr cycle.], with less it is a success for the trip.  (The
    great-circle distance is a total function here: the coordinates the
    providers give are taken to be ones it accepts.) *)
Theorem post_fails_only_at_the_cycle_cap (t : Trip) (w : World) :
  exists resp w',
    post t w = (Returns resp, w') /\
    (70 <= current_cycle_used t ->
     resp = Views.Response500 "Driver has already exceeded 70-hr cycle.") /\
    (current_cycle_used t < 70 ->
     exists body, resp = Views.Response200 body /\ Views.body_trip body = t).
Proof.
  unfold Views.post.
  destruct (plan_loop 3 t Views.initial w) as [r w'] eqn:E.
  apply plan_loop_from_the_start in E. destruct E as [s [-> Hs]].
  assert (Hm : exists q, Views.miles s = Some q).
  { destruct Hs as [[_ [[rd [wa [wb [_ [_ Hm]]]]] _]] | [_ [_ [_ [Hm _]]]]]; eauto. }
  destruct Hm as [q Hm]. rewrite Hm.
  destruct (Qlt_le_dec (current_cycle_used t) 70) as [L | G].
  - destruct (generate_returns today great_circle_miles
                (Planner.sorted_by_sequence (stored w')) (current_cycle_used t) q L)
      as [st [_ Eg]].
    rewrite Eg. eexists _, _. split; [reflexivity |]. split; [intros H; lra |].
    intros _. eexists. split; reflexivity.
  - unfold Sim.generate_eld_logs_with_stops.
    assert (Ec : Qle_bool (MAX_CYCLE_HOURS - current_cycle_used t) 0 = true).
    { apply Qle_bool_iff. unfold MAX_CYCLE_HOURS. lra. }
    rewrite Ec. eexists _, _. split; [reflexivity |]. split; [reflexivity |].
    intros H. lra.
Qed.

(** X25.  A success that carries a warning is the fallback: the stops
    in the answer are the basic pickup and dropoff, there is no route
    geometry, and - the basic stops never being stored - the logs of a
    new trip are empty: the answer lists two stops and no duty log. *)
Theorem fallback_response_has_no_logs (t : Trip) (w w' : World) (body : Views.Body) :
  stored w = [] ->
  post t w = (Returns (Views.Response200 body), w') ->
  Views.body_warnings body <> [] ->
  Views.body_warnings body = ["Used fallback data"%string] /\
  Views.body_stops body = Planner.create_basic_trip_stops t /\
  Views.body_route_geometry body = None /\
  Views.body_eld_logs body = [] /\
  stored w' = [].
Proof.
  intros Hw. unfold Views.post.
  destruct (plan_loop 3 t Views.initial w) as [r w1] eqn:E.
  apply plan_loop_from_the_start in E. destruct E as [s [-> Hs]].
  destruct Hs as [[Hlt _] | [Hc [Hr [Hp [[q Hm] Hst]]]]].
  - destruct (Views.miles s); [| discriminate].
    destruct (Sim.generate_eld_logs_with_stops _ _ _ _ _); try discriminate.
    intros [= <- _]. cbn [Views.body_warnings].
    assert (F : (3 <=? Views.retry_count s)%Z = false) by (apply Z.leb_gt; lia).
    rewrite F. intros H. now elim H.
  - rewrite Hm, Hst, Hw. cbn [Planner.sorted_by_sequence fold_right].
    unfold Sim.generate_eld_logs_with_stops.
    destruct (Qle_bool _ 0); [discriminate |]. cbn.
    intros [= <- <-] _. cbn. rewrite Hc, Hr, Hp. cbn. repeat split. congruence.
Qed.

(** X26.  A success without a warning has a route behind it: its stops
    are a well-formed itinerary, they are the stops stored for the new
    trip, the miles are the route's, rounded, and the logs are the
    simulation of exactly these stops over the route's miles. *)
Theorem success_response_logs_its_stops (t : Trip) (w w' : World) (body : Views.Body) :
  stored w = [] ->
  post t w = (Returns (Views.Response200 body), w') ->
  Views.body_warnings body = [] ->
  itinerary_ok (Views.body_stops body) /\
  stored w' = Views.body_stops body /\
  exists rd wa wb,
    route_phase t wa = (Services.Done rd, wb) /\
    Views.body_route_geometry body = Some (Services.geometry rd) /\
    Views.body_total_miles body = py_round2 (Services.distance_miles rd) /\
    Sim.generate_eld_logs_with_stops today great_circle_miles (Views.body_stops body)
      (current_cycle_used t) (Services.distance_miles rd) =
    Returns (Views.body_eld_logs body).
Proof.
  intros Hw. unfold Views.post.
  destruct (plan_loop 3 t Views.initial w) as [r w1] eqn:E.
  apply plan_loop_from_the_start in E. destruct E as [s [-> Hs]].
  destruct Hs as [[Hlt [[rd [wa [wb [Er [Hr Hm]]]]] [Hi Hst]]] | [Hc [_ [_ [[q Hm] _]]]]].
  - rewrite Hm, Hst, Hw, app_nil_l.
    assert (Hsort : Planner.sorted_by_sequence (Views.planned s) = Views.planned s).
    { apply sorted_by_sequence_id. apply Hi. }
    rewrite Hsort.
    destruct (Sim.generate_eld_logs_with_stops today great_circle_miles (Views.planned s)
                (current_cycle_used t) (Services.distance_miles rd)) as [l | e |] eqn:Eg;
      try discriminate.
    intros [= <- <-] _. cbn. split; [exact Hi |].
    split; [rewrite Hst, Hw; reflexivity |].
    exists rd, wa, wb. rewrite Hr. auto.
  - rewrite Hm.
    destruct (Sim.generate_eld_logs_with_stops _ _ _ _ _); try discriminate.
    intros [= <- _]. cbn [Views.body_warnings]. rewrite Hc. discriminate.
Qed.

(** When the routing service is down, every turn of the loop fails. *)
Lemma route_phase_down (t : Trip) (w : World) :
  (forall coords optimize n, exists e n', directions coords optimize n = (Services.Thrown e, n')) ->
  exists e w1, route_phase t w = (Services.Thrown e, w1).
Proof.
  intros Hd. unfold Views.route_phase, Services.bind.
  destruct (retry (current_location t) 3 w) as [[c1 | e1] w1]; [| eauto].
  destruct (retry (pickup_location t) 3 w1) as [[c2 | e2] w2]; [| eauto].
  destruct (retry (dropoff_location t) 3 w2) as [[c3 | e3] w3]; [| eauto].
  destruct (Services.get_route_with_waypoints Net Location directions [c1; c2; c3] w3)
    as [[rd | e] w4] eqn:E; [| eauto].
  apply get_route_with_waypoints_spec in E. destruct E as [_ [_ [_ E]]].
  destruct (E rd eq_refl) as [_ [response [n [Ed _]]]].
  destruct (Hd (map (fun p => (snd p, fst p)) [c1; c2; c3])
               (3 <? List.length [c1; c2; c3])%nat (Services.net Net Location w3))
    as [e [n' Ed']].
  rewrite Ed' in Ed. discriminate.
Qed.

(** X27.  With the routing service down - every call to it raising -
    and the driver below the cycle cap, the request for a new trip
    still succeeds: after three tries the answer is the fallback, with
    its warning, the basic pickup and dropoff for stops and no log. *)
Theorem post_falls_back_when_routing_is_down (t : Trip) (w : World) :
  (forall coords optimize n, exists e n', directions coords optimize n = (Services.Thrown e, n')) ->
  current_cycle_used t < 70 ->
  stored w = [] ->
  exists body w',
    post t w = (Returns (Views.Response200 body), w') /\
    Views.body_trip body = t /\
    Views.body_warnings body = ["Used fallback data"%string] /\
    Views.body_stops body = Planner.create_basic_trip_stops t /\
    Views.body_route_geometry body = None /\
    Views.body_eld_logs body = [].
Proof.
  intros Hd Hc Hw. unfold Views.post.
  destruct (plan_loop 3 t Views.initial w) as [r w1] eqn:E.
  apply plan_loop_from_the_start in E. destruct E as [s [-> Hs]].
  destruct Hs as [[_ [[rd [wa [wb [Er _]]]] _]] | [Hrc [Hr [Hp [[q Hm] Hst]]]]].
  - destruct (route_phase_down t wa Hd) as [e [w2 Ee]]. rewrite Ee in Er. discriminate.
  - rewrite Hm, Hst, Hw. cbn [Planner.sorted_by_sequence fold_right].
    unfold Sim.generate_eld_logs_with_stops.
    assert (Ec : Qle_bool (MAX_CYCLE_HOURS - current_cycle_used t) 0 = false).
    { apply Qle_bool_false. unfold MAX_CYCLE_HOURS. lra. }
    rewrite Ec. cbn. eexists _, _. split; [reflexivity |]. cbn.
    rewrite Hrc, Hr, Hp. cbn. repeat split.
Qed.
End ViewFacts.

(** ** The request on the sample providers *)

(** X25 and X27 with the routing service down. *)
Lemma fallback_response_has_no_logs_witness :
  exists body w',
    Views.post nat string sample_pelias failing_directions sample_reverse sample_nominatim
      sample_great_circle sample_great_circle sample_poi_key sample_reverse_key 0
      sample_trip fresh_world = (Returns (Views.Response200 body), w') /\
    Views.body_warnings body = ["Used fallback data"%string] /\
    Views.body_stops body = Planner.create_basic_trip_stops sample_trip /\
    Views.body_route_geometry body = None /\
    Views.body_eld_logs body = [] /\
    Services.stored_stops nat string w' = [].
Proof.
  eexists _, _.
  assert (H : Views.post nat string sample_pelias failing_directions sample_reverse
                sample_nominatim sample_great_circle sample_great_circle sample_poi_key
                sample_reverse_key 0 sample_trip fresh_world = _) by (vm_compute; reflexivity).
  split; [exact H |].
  refine (fallback_response_has_no_logs nat string sample_pelias failing_directions
            sample_reverse sample_nominatim sample_great_circle sample_great_circle
            sample_poi_key sample_reverse_key 0 sample_trip fresh_world _ _ eq_refl H _).
  discriminate.
Defined.

Lemma post_falls_back_when_routing_is_down_witness :
  exists body w',
    Views.post nat string failing_pelias failing_directions sample_reverse sample_nominatim
      sample_great_circle sample_great_circle sample_poi_key sample_reverse_key 0
      sample_trip fresh_world = (Returns (Views.Response200 body), w') /\
    Views.body_trip body = sample_trip /\
    Views.body_warnings body = ["Used fallback data"%string] /\
    Views.body_stops body = Planner.create_basic_trip_stops sample_trip /\
    Views.body_route_geometry body = None /\
    Views.body_eld_logs body = [].
Proof.
  apply (post_falls_back_when_routing_is_down nat string failing_pelias failing_directions
           sample_reverse sample_nominatim sample_great_circle sample_great_circle
           sample_poi_key sample_reverse_key 0 sample_trip fresh_world).
  - intros coords optimize n. eexists _, _. reflexivity.
  - reflexivity.
  - reflexivity.
Defined.

(** X26 with every service up. *)
Lemma success_response_logs_its_stops_witness :
  exists body w',
    Views.post nat string sample_pelias sample_directions sample_reverse sample_nominatim
      sample_great_circle sample_great_circle sample_poi_key sample_reverse_key 0
      sample_trip fresh_world = (Returns (Views.Response200 body), w') /\
    map stop_type (Views.body_stops body) = [pickup; dropoff] /\
    itinerary_ok (Views.body_stops body) /\
    Services.stored_stops nat string w' = Views.body_stops body /\
    Views.body_total_miles body = 100000 # 100.
Proof.
  eexists _, _.
  assert (H : Views.post nat string sample_pelias sample_directions sample_reverse
                sample_nominatim sample_great_circle sample_great_circle sample_poi_key
                sample_reverse_key 0 sample_trip fresh_world = _) by (vm_compute; reflexivity).
  split; [exact H |]. split; [reflexivity |].
  destruct (success_response_logs_its_stops nat string sample_pelias sample_directions
              sample_reverse sample_nominatim sample_great_circle sample_great_circle
              sample_poi_key sample_reverse_key 0 sample_trip fresh_world _ _ eq_refl H
              eq_refl) as [Hi [Hs _]].
  split; [exact Hi |]. split; [exact Hs | reflexivity].
Defined.
